(** * Dual-probe thermometer: the sample-and-render core

    A shallow embedding of the project functions of [main_sampler_test.cpp]
    (switch decoding, LED mirroring, RGB indicator, seven-segment rendering,
    decimal-point placement) over the collaborator cores as
    [final_proj_function_tester.cpp] defines them ([GpiCore], [GpoCore],
    [PwmCore], [SsegCore]).

    - [int] values are integers of [Z]; the conversions between [uint32_t]
      and [int] are written out ([to_uint32], [to_int]).
    - [float] is IEEE binary32 and [double] is IEEE binary64, both through
      the Standard Library's executable specification [SpecFloat]
      (round to nearest, ties to even).
      Every [float] operation is rounded to binary32: no excess precision
      and no fused multiply-add.
    - A float-to-int cast truncates towards zero and is undefined when the
      truncated value does not fit an [int]; undefined is [None].
    - [int] additions of small constants to an index ([color + 4],
      [3 + posAdj]) are additions of [Z]: the callers pass 0 or 1.
    - The cores are records; the functions that write to the display run in
      a small state-and-failure monad over [SsegCore]. *)

From Stdlib Require Import ZArith Lia Bool List SpecFloat.
From stdpp Require Import base option list.

Local Open Scope Z_scope.
Set Warnings "-notation-for-abbreviation".

(** ** Machine integers *)

Module Int.

Definition wordsize : Z := 32.
Definition modulus : Z := 2 ^ wordsize.
Definition min_signed : Z := - 2 ^ (wordsize - 1).
Definition max_signed : Z := 2 ^ (wordsize - 1) - 1.

Definition in_range (z : Z) : bool :=
  (min_signed <=? z) && (z <=? max_signed).

(** [(uint32_t) z] *)
Definition to_uint32 (z : Z) : Z := z mod modulus.

(** [(int) u] for [u] an [uint32_t]: the two's complement reading. *)
Definition to_int (u : Z) : Z :=
  let r := u mod modulus in
  if r <=? max_signed then r else r - modulus.

(** [(uint8_t) z] *)
Definition to_uint8 (z : Z) : Z := z mod 256.

End Int.

(** ** IEEE binary floating point, by format *)

Module IEEE.
Section Format.

Variables prec emax : Z.

Definition valid (x : spec_float) : bool := valid_binary prec emax x.

(** The value of an integer constant. *)
Definition of_Z (z : Z) : spec_float := binary_normalize prec emax z 0 false.

(** The value of the decimal constant [n / d]: the nearest number of the
    format, as the correctly rounded quotient of two exact integers. *)
Definition dec (n d : Z) : spec_float := SFdiv prec emax (of_Z n) (of_Z d).

End Format.

(** Truncation towards zero of a finite number. *)
Definition trunc (x : spec_float) : option Z :=
  match x with
  | S754_zero _ => Some 0
  | S754_finite s m e => Some (cond_Zopp s (Z.shiftl (Zpos m) e))
  | S754_infinity _ | S754_nan => None
  end.

(** [(int) x]: undefined unless the truncated value fits an [int]. *)
Definition to_int (x : spec_float) : option Z :=
  match trunc x with
  | Some z => if Int.in_range z then Some z else None
  | None => None
  end.

End IEEE.

(** [float] *)
Module F32.
Definition prec : Z := 24.
Definition emax : Z := 128.
Definition t : Type := spec_float.
Definition valid : t -> bool := IEEE.valid prec emax.
Definition add : t -> t -> t := SFadd prec emax.
Definition mul : t -> t -> t := SFmul prec emax.
Definition div : t -> t -> t := SFdiv prec emax.
(** [x < y] and [x >= y]; both are false when an operand is a NaN. *)
Definition lt (x y : t) : bool := SFltb x y.
Definition ge (x y : t) : bool := SFleb y x.
Definition zero : t := S754_zero false.
Definition of_Z : Z -> t := IEEE.of_Z prec emax.
Definition dec : Z -> Z -> t := IEEE.dec prec emax.
Definition to_int : t -> option Z := IEEE.to_int.
End F32.

(** [double] *)
Module F64.
Definition prec : Z := 53.
Definition emax : Z := 1024.
Definition t : Type := spec_float.
Definition valid : t -> bool := IEEE.valid prec emax.
Definition div : t -> t -> t := SFdiv prec emax.
Definition zero : t := S754_zero false.
Definition of_Z : Z -> t := IEEE.of_Z prec emax.
Definition dec : Z -> Z -> t := IEEE.dec prec emax.
End F64.

Definition float : Type := F32.t.
Definition double : Type := F64.t.

(** ** The collaborator cores *)

(** [#define bit_read(data, n) (((data) >> (n)) & 0x01)] *)
Definition bit_read (data n : Z) : Z := Z.land (Z.shiftr data n) 1.

(** *** GpiCore: the switch port *)

(** [uint32_t sw] *)
Record GpiCore := { sw : Z }.

(** [void set(uint32_t v) { sw = v; }] *)
Definition Gpi_set (v : Z) : GpiCore := {| sw := Int.to_uint32 v |}.

(** [int read() { return (int)sw; }] *)
Definition Gpi_read (c : GpiCore) : Z := Int.to_int (sw c).

(** [int read(int bit_pos) { return (int)bit_read(sw, bit_pos); }] *)
Definition Gpi_read_bit (c : GpiCore) (bit_pos : Z) : Z := bit_read (sw c) bit_pos.

(** *** GpoCore: the LED port *)

(** [uint32_t ledOutput] *)
Record GpoCore := { ledOutput : Z }.

(** [void write(uint32_t v) { ledOutput = v; }] *)
Definition Gpo_write (v : Z) (c : GpoCore) : GpoCore :=
  {| ledOutput := Int.to_uint32 v |}.

(** *** PwmCore: eight duty channels *)

(** [std::array<double, 8> duty; int freq] *)
Record PwmCore := { duty : list double; freq : Z }.

Definition Pwm_set_freq (f : Z) (c : PwmCore) : PwmCore :=
  {| duty := duty c; freq := f |}.

(** [if (ch >= 0 && ch < (int)duty.size()) duty[ch] = d;] *)
Definition Pwm_set_duty (d : double) (ch : Z) (c : PwmCore) : PwmCore :=
  if (0 <=? ch) && (ch <? Z.of_nat (length (duty c)))
  then {| duty := <[Z.to_nat ch := d]> (duty c); freq := freq c |}
  else c.

(** The core as constructed: every duty 0.0. *)
Definition Pwm_init : PwmCore :=
  {| duty := replicate 8 F64.zero; freq := 0 |}.

(** *** SsegCore: eight digit cells and the decimal-point mask *)

(** [std::array<uint8_t, 8> digit; uint8_t dp] *)
Record SsegCore := { digit : list Z; dp : Z }.

(** [uint8_t h2s(int x) { return (uint8_t)(x & 0xFF); }] *)
Definition h2s (x : Z) : Z := Int.to_uint8 (Z.land x 255).

(** [if (pos >= 0 && pos < (int)digit.size()) digit[pos] = ptn;] *)
Definition write_1ptn (ptn : Z) (pos : Z) (c : SsegCore) : SsegCore :=
  if (0 <=? pos) && (pos <? Z.of_nat (length (digit c)))
  then {| digit := <[Z.to_nat pos := ptn]> (digit c); dp := dp c |}
  else c.

Definition set_dp (pt : Z) (c : SsegCore) : SsegCore :=
  {| digit := digit c; dp := pt |}.

(** The core as constructed. *)
Definition Sseg_init : SsegCore := {| digit := replicate 8 0; dp := 0 |}.

(** The cell at an [int] position. *)
Definition cell (c : SsegCore) (pos : Z) : option Z :=
  if 0 <=? pos then digit c !! Z.to_nat pos else None.

(** The duty of an [int] channel. *)
Definition channel (c : PwmCore) (ch : Z) : option double :=
  if 0 <=? ch then duty c !! Z.to_nat ch else None.

(** ** Display programs: state over [SsegCore], failure for undefined casts *)

Definition Disp (A : Type) : Type := SsegCore -> option (A * SsegCore).

#[global] Instance Disp_ret : MRet Disp := fun A a s => Some (a, s).
#[global] Instance Disp_bind : MBind Disp := fun A B f m s =>
  match m s with
  | Some (a, s') => f a s'
  | None => None
  end.

(** A core member function that always succeeds. *)
Definition call (f : SsegCore -> SsegCore) : Disp unit :=
  fun s => Some (tt, f s).

(** A value that may be undefined. *)
Definition defined {A} (o : option A) : Disp A :=
  fun s => match o with Some a => Some (a, s) | None => None end.

(** ** Project functions *)

(** [int getTempLimit(GpiCore *sw_p, int segsSel)]: SW8-14 when [segsSel]
    is 1, SW0-6 otherwise. *)
Definition getTempLimit (sw_p : GpiCore) (segsSel : Z) : Z :=
  let s := Gpi_read sw_p in
  if segsSel =? 1 then Z.land (Z.shiftr s 8) 127 else Z.land s 127.

(** [void dispTempLimit(GpoCore *led_p, int lowerLim, int upperLim)] *)
Definition dispTempLimit (lowerLim upperLim : Z) (led_p : GpoCore) : GpoCore :=
  let ledDisp := 0 in
  let ledDisp := Z.lor ledDisp (Z.land lowerLim 127) in
  let ledDisp := Z.lor ledDisp (Z.shiftl (Z.land upperLim 127) 8) in
  Gpo_write ledDisp led_p.

(** [int getTempFormat(GpiCore *sw_p, int segsSel)]: SW15 or SW7. *)
Definition getTempFormat (sw_p : GpiCore) (segsSel : Z) : Z :=
  if segsSel =? 1 then Gpi_read_bit sw_p 15 else Gpi_read_bit sw_p 7.

(** [for (int n = 0; n < 3; n++) pwm_p->set_duty(0.0, n + base);] *)
Definition clear_triple (base : Z) (pwm_p : PwmCore) : PwmCore :=
  fold_left (fun c n => Pwm_set_duty F64.zero (n + base) c) [0; 1; 2] pwm_p.

(** [void setRGB(PwmCore *pwm_p, int color, int rgbPos)] *)
Definition setRGB (color rgbPos : Z) (pwm_p : PwmCore) : PwmCore :=
  let bright := F64.of_Z 30 in
  let duty := F64.div bright (F64.of_Z 100) in
  if rgbPos =? 1 then
    Pwm_set_duty duty (color + 4) (clear_triple 3 pwm_p)
  else
    Pwm_set_duty duty (color + 1) (clear_triple 0 pwm_p).

(** [float cel2fer(float tmpC)]: [(tmpC * (9.00f / 5.00f)) + 32.00f] *)
Definition cel2fer (tmpC : float) : float :=
  F32.add (F32.mul tmpC (F32.div (F32.of_Z 9) (F32.of_Z 5))) (F32.of_Z 32).

Definition BLANK : Z := 255.

(** [void clearDisp(SsegCore *sseg_p)] *)
Definition clearDisp (sseg_p : SsegCore) : SsegCore :=
  set_dp 0
    (fold_left (fun c i => write_1ptn BLANK i c) [0; 1; 2; 3; 4; 5; 6; 7] sseg_p).

(** [bool dispTemp(SsegCore *sseg_p, float tmpC, float tmpF, int isFer,
    int segsSel)] *)
Definition dispTemp (tmpC tmpF : float) (isFer segsSel : Z) : Disp bool :=
  let posAdj := if segsSel =? 1 then 4 else 0 in
  let isCel := negb (isFer =? 1) in
  let temp := if isFer =? 1 then tmpF else tmpC in
  let temp := if F32.lt temp F32.zero then F32.zero else temp in
  tempInt ← defined (F32.to_int (F32.add (F32.mul temp (F32.of_Z 10)) (F32.dec 5 10)));
  whole ← (if F32.ge temp (F32.of_Z 100)
           then defined (F32.to_int (F32.add temp (F32.dec 5 10)))
           else mret (tempInt ÷ 10));
  let hundreds := Z.rem (whole ÷ 100) 10 in
  let tens := Z.rem (whole ÷ 10) 10 in
  let ones := Z.rem whole 10 in
  let tenths := Z.rem tempInt 10 in
  let isHundred := 100 <=? whole in
  (if isHundred then
     call (write_1ptn (h2s hundreds) (3 + posAdj));;
     call (write_1ptn (h2s tens) (2 + posAdj));;
     call (write_1ptn (h2s ones) (1 + posAdj))
   else
     (if 10 <=? whole
      then call (write_1ptn (h2s tens) (3 + posAdj))
      else call (write_1ptn BLANK (3 + posAdj)));;
     call (write_1ptn (h2s ones) (2 + posAdj));;
     call (write_1ptn (h2s tenths) (1 + posAdj)));;
  (if isCel
   then call (write_1ptn (h2s 12) (0 + posAdj))
   else call (write_1ptn (h2s 15) (0 + posAdj)));;
  mret isHundred.

(** [void dispDp(SsegCore *sseg_p, bool intIsHundred, bool extIsHundred)] *)
Definition dispDp (intIsHundred extIsHundred : bool) (sseg_p : SsegCore) : SsegCore :=
  let dpPos :=
    if intIsHundred && extIsHundred then Z.lor (Z.shiftl 1 1) (Z.shiftl 1 5)
    else if intIsHundred && negb extIsHundred then Z.lor (Z.shiftl 1 2) (Z.shiftl 1 5)
    else if negb intIsHundred && extIsHundred then Z.lor (Z.shiftl 1 1) (Z.shiftl 1 6)
    else Z.lor (Z.shiftl 1 2) (Z.shiftl 1 6) in
  set_dp (Int.to_uint8 dpPos) sseg_p.

(** ** Sensing and the loop of [main] *)

(** [(uint16_t) z] *)
Definition to_uint16 (z : Z) : Z := z mod 65536.

(** [float getExtTempC(I2cCore *adt7420_p)], as a function of the two bytes
    that the read transaction leaves in [uint8_t bytes[2]]; the bus
    transactions and the console output are outside the model. *)
Definition getExtTempC (bytes0 bytes1 : Z) : float :=
  let tmp := to_uint16 (Int.to_uint8 bytes0) in
  let tmp := to_uint16 (Z.shiftl tmp 8 + to_uint16 (Int.to_uint8 bytes1)) in
  if negb (Z.land tmp 32768 =? 0) then
    let tmp := to_uint16 (Z.shiftr tmp 3) in
    F32.div (F32.of_Z (tmp - 8192)) (F32.of_Z 16)
  else
    let tmp := to_uint16 (Z.shiftr tmp 3) in
    F32.div (F32.of_Z tmp) (F32.of_Z 16).

(** The value of a [float] in sixteenths of a unit, when it is a whole
    number of sixteenths. *)
Definition sixteenths (x : float) : option Z :=
  match x with
  | S754_zero _ => Some 0
  | S754_finite s m e =>
      let n := Z.shiftl (Z.pos m) (e + 4) in
      if Z.shiftl n (- (e + 4)) =? Z.pos m then Some (cond_Zopp s n) else None
  | _ => None
  end.

(** The first channel of the triple that [rgbPos] selects in [setRGB]. *)
Definition triple_base (rgbPos : Z) : Z := if rgbPos =? 1 then 3 else 0.

(** The boards that [main] drives: [led], [pwm] and [sseg]. *)
Record Board := { led : GpoCore; pwm : PwmCore; sseg : SsegCore }.

(** [if (tempC > limit) color = 1; else color = 0;] with the [int] limit
    converted to [float]; a NaN is not above any limit. *)
Definition limitColor (tempC : float) (limit : Z) : Z :=
  if F32.lt (F32.of_Z limit) tempC then 1 else 0.

(** The display part of the loop: [clearDisp], the two [dispTemp] and
    [dispDp]. *)
Definition main_display (intTempC extTempC : float) (intIsFer extIsFer : Z)
  : Disp unit :=
  call clearDisp;;
  intIsHundred ← dispTemp intTempC (cel2fer intTempC) intIsFer 1;
  extIsHundred ← dispTemp extTempC (cel2fer extTempC) extIsFer 0;
  call (dispDp intIsHundred extIsHundred).

(** One turn of the loop of [main], from the switch port and the two
    temperatures that [getIntTempC] and [getExtTempC] return; the console
    output and the delay are outside the model. *)
Definition main_loop (sw_p : GpiCore) (intTempC extTempC : float) (b : Board)
  : option Board :=
  let intLimit := getTempLimit sw_p 1 in
  let extLimit := getTempLimit sw_p 0 in
  let led' := dispTempLimit extLimit intLimit (led b) in
  let intIsFer := getTempFormat sw_p 1 in
  let extIsFer := getTempFormat sw_p 0 in
  let intColor := limitColor intTempC intLimit in
  let extColor := limitColor extTempC extLimit in
  let pwm' := setRGB extColor 0 (setRGB intColor 1 (pwm b)) in
  match main_display intTempC extTempC intIsFer extIsFer (sseg b) with
  | Some (_, sseg') => Some {| led := led'; pwm := pwm'; sseg := sseg' |}
  | None => None
  end.

(** The boards when [main] enters the loop: [pwm.set_freq(50)] is done. *)
Definition Board_init : Board :=
  {| led := {| ledOutput := 0 |}; pwm := Pwm_set_freq 50 Pwm_init;
     sseg := Sseg_init |}.

(** ** The local variables of [dispTemp], as functions of its arguments *)

Definition posAdj_of (segsSel : Z) : Z := if segsSel =? 1 then 4 else 0.

(** [temp] before the clamp. *)
Definition selectedTemp (tmpC tmpF : float) (isFer : Z) : float :=
  if isFer =? 1 then tmpF else tmpC.

(** [temp] after the clamp. *)
Definition clampTemp (temp : float) : float :=
  if F32.lt temp F32.zero then F32.zero else temp.

Definition workingTemp (tmpC tmpF : float) (isFer : Z) : float :=
  clampTemp (selectedTemp tmpC tmpF isFer).

(** [tempInt], the temperature in tenths of a degree. *)
Definition scaledTenths (temp : float) : option Z :=
  F32.to_int (F32.add (F32.mul temp (F32.of_Z 10)) (F32.dec 5 10)).

(** [whole], once [tempInt] is known. *)
Definition wholeDeg (temp : float) : option Z :=
  match scaledTenths temp with
  | Some tempInt =>
      if F32.ge temp (F32.of_Z 100)
      then F32.to_int (F32.add temp (F32.dec 5 10))
      else Some (tempInt ÷ 10)
  | None => None
  end.

Definition glyph (isFer : Z) : Z := if isFer =? 1 then 15 else 12.

(** The cell writes of [dispTemp] for given [tempInt] and [whole]. *)
Definition render (posAdj tempInt whole isFer : Z) (c : SsegCore) : SsegCore :=
  let hundreds := Z.rem (whole ÷ 100) 10 in
  let tens := Z.rem (whole ÷ 10) 10 in
  let ones := Z.rem whole 10 in
  let tenths := Z.rem tempInt 10 in
  let c :=
    if 100 <=? whole then
      write_1ptn (h2s ones) (1 + posAdj)
        (write_1ptn (h2s tens) (2 + posAdj)
           (write_1ptn (h2s hundreds) (3 + posAdj) c))
    else
      write_1ptn (h2s tenths) (1 + posAdj)
        (write_1ptn (h2s ones) (2 + posAdj)
           (write_1ptn (if 10 <=? whole then h2s tens else BLANK) (3 + posAdj) c)) in
  write_1ptn (h2s (glyph isFer)) (0 + posAdj) c.

(** ** Values and statements used below *)

(** Constants of the repository's tests. *)
Definition f9_76 : float := F32.dec 976 100.
Definition f99_95 : float := F32.dec 9995 100.
Definition f105_49 : float := F32.dec 10549 100.
Definition fm5_32 : float := F32.dec (-532) 100.

(** The scale of the rounding arguments on binary32: below the exponent of
    every number and of every product with a constant that [dispTemp]
    forms. *)
Definition scale32 : Z := -200.

(** A cleared display, as [main] has it before each render. *)
Definition cleared : SsegCore := clearDisp Sseg_init.

(** One case of the repository's [test_dispTemp]: clear, render [tempC]
    (given in hundredths of a degree) in the format [isFer] on the half
    [segsSel], and read the flag and the eight cells. *)
Definition test_case (hundredths isFer segsSel : Z) : option (bool * list Z) :=
  let tempC := F32.dec hundredths 100 in
  match dispTemp tempC (cel2fer tempC) isFer segsSel cleared with
  | Some (hund, c) => Some (hund, digit c)
  | None => None
  end.

(** A number that is not below zero: no negative finite number and not
    the negative infinity. *)
Definition not_negative (x : spec_float) : Prop :=
  match x with
  | S754_finite true _ _ | S754_infinity true => False
  | _ => True
  end.

(** The numbers whose display is defined: anything that the clamp turns
    into 0.0, or a positive number with an exponent of the format and a
    value below 2 ^ 27. *)
Definition displayable (x : float) : Prop :=
  match x with
  | S754_zero _ => True
  | S754_infinity s => s = true
  | S754_nan => False
  | S754_finite s m e =>
      s = false -> -149 <= e /\ Z.pos m * 2 ^ (e - scale32) < 2 ^ 227
  end.

(** A check of every number below [2 ^ n], by its binary digits. *)
Fixpoint all_below (n : nat) (P : Z -> bool) : bool :=
  match n with
  | O => P 0
  | S n' => all_below n' (fun k => P (2 * k)) && all_below n' (fun k => P (2 * k + 1))
  end.

(** One row of the table of the sensor: for the 13 bits [k] of a reading,
    the tenths and the whole degrees that [dispTemp] computes in Celsius
    and in Fahrenheit are defined, the flags are as the thresholds say and
    the tenths are as exact arithmetic says. *)
Definition sensor_row (k : Z) : bool :=
  let s := if k <? 4096 then k else k - 8192 in
  let x := F32.div (F32.of_Z s) (F32.of_Z 16) in
  let tc := clampTemp x in
  let tf := clampTemp (cel2fer x) in
  let whole (temp : float) (tenths : option Z) :=
    match tenths with
    | Some tempInt =>
        if F32.ge temp (F32.of_Z 100)
        then F32.to_int (F32.add temp (F32.dec 5 10))
        else Some (tempInt ÷ 10)
    | None => None
    end in
  let sc := scaledTenths tc in
  let sf := scaledTenths tf in
  match sc, whole tc sc, sf, whole tf sf with
  | Some tic, Some wc, Some tif, Some wf =>
      Bool.eqb (100 <=? wc) ((k <? 4096) && (1600 <=? k)) &&
      Bool.eqb (100 <=? wf) ((k <? 4096) && (604 <=? k)) &&
      (tic =? Z.max 0 ((10 * s + 8) / 16)) &&
      (Z.max 0 ((18 * s + 5128) / 16) - 1 <=? tif) &&
      (tif <=? Z.max 0 ((18 * s + 5128) / 16))
  | _, _, _, _ => false
  end.

(** C4, as the specification states it: red on the interior indicator sets
    channel 4 to 0.30, channels 3 and 5 to 0.0 and leaves channels 0-2. *)
Definition setRGB_red_interior_as_specified : Prop :=
  forall pwm_p : PwmCore, length (duty pwm_p) = 8%nat ->
    let out := setRGB 1 1 pwm_p in
    channel out 4 = Some (F64.dec 3 10) /\
    channel out 3 = Some F64.zero /\
    channel out 5 = Some F64.zero /\
    (forall ch, 0 <= ch <= 2 -> channel out ch = channel pwm_p ch).

(** C1, as the specification states it: for every temperature that is not
    negative and strictly below 100 after the clamp, position 2 holds the
    ones digit of [whole], position 1 the tenths digit and position 3 the
    tens digit when [whole >= 10], the BLANK pattern otherwise. *)
Definition dispTemp_below_100_as_specified : Prop :=
  forall (tmpC tmpF : float) (isFer segsSel : Z) (c : SsegCore),
    length (digit c) = 8%nat ->
    let temp := workingTemp tmpC tmpF isFer in
    let posAdj := posAdj_of segsSel in
    F32.valid temp = true ->
    F32.lt temp (F32.of_Z 100) = true ->
    exists tempInt b c',
      scaledTenths temp = Some tempInt /\
      dispTemp tmpC tmpF isFer segsSel c = Some (b, c') /\
      let whole := tempInt ÷ 10 in
      cell c' (2 + posAdj) = Some (Z.rem whole 10) /\
      cell c' (1 + posAdj) = Some (Z.rem tempInt 10) /\
      cell c' (3 + posAdj) =
        Some (if 10 <=? whole then Z.rem (whole ÷ 10) 10 else BLANK).

(** ** Rounding, measured on a common scale

    The definitions that the rounding lemmas below are stated with: the
    value of a mantissa and exponent in units of [2 ^ B], the canonical
    numbers of a format, and the truncating shift that [shr_fexp]
    performs. *)

Module Round.
Section Defs.

Variables prec emax : Z.

(** The common scale: values are counted in units of [2 ^ B]. *)
Variable B : Z.

Notation fexp := (SpecFloat.fexp prec emax).

(** Values on a common scale: [val m e] is [m * 2 ^ e] in units of [2 ^ B]. *)
Definition val (m e : Z) : Z := m * 2 ^ (e - B).

(** A positive number of the format in canonical form. *)
Definition canon (mf ef : Z) : Prop :=
  0 < mf /\ ef = fexp (Zdigits2 mf + ef) /\ B <= ef.

(** One truncating shift to the exponent of the format. *)
Definition stage_m (m e : Z) : Z :=
  let n := fexp (Zdigits2 m + e) - e in
  if 0 <? n then m / 2 ^ n else m.

Definition stage_e (m e : Z) : Z :=
  let n := fexp (Zdigits2 m + e) - e in
  if 0 <? n then e + n else e.

Definition stage_exact (m e : Z) : Prop :=
  let n := fexp (Zdigits2 m + e) - e in
  0 < n -> m mod 2 ^ n = 0.

(** The value of a finite number that is not negative, and the numbers that
    bound a rounding: positive, canonical, in the range of the format. *)
Definition Fval (x : spec_float) : Z :=
  match x with
  | S754_finite false m e => val (Z.pos m) e
  | _ => 0
  end.

Definition fin (x : spec_float) : Prop :=
  match x with
  | S754_zero _ => True
  | S754_finite false m e => B <= e
  | _ => False
  end.

Definition canonF (x : spec_float) : Prop :=
  match x with
  | S754_finite false m e =>
      canonical_mantissa prec emax m e = true /\ e <= emax - prec /\ B <= e
  | _ => False
  end.

End Defs.
End Round.



(** * Properties *)

(** ** The repository's tests, run on the model *)

Example test_switch_decode_and_led_mirror :
  let sw_p := Gpi_set (Z.lor (Z.lor 18 (Z.shiftl 52 8)) (Z.shiftl 1 7)) in
  getTempLimit sw_p 0 = 18 /\ getTempLimit sw_p 1 = 52 /\
  ledOutput (dispTempLimit 18 52 {| ledOutput := 0 |}) = Z.lor (Z.shiftl 52 8) 18 /\
  getTempFormat sw_p 0 = 1 /\ getTempFormat sw_p 1 = 0.
Proof. repeat split. Qed.

Example test_cel2fer :
  cel2fer (F32.of_Z 0) = F32.of_Z 32 /\
  cel2fer (F32.of_Z 100) = F32.of_Z 212 /\
  cel2fer (F32.of_Z 25) = F32.of_Z 77.
Proof. repeat split. Qed.

Example test_clearDisp :
  clearDisp {| digit := replicate 8 0; dp := 255 |} =
    {| digit := replicate 8 255; dp := 0 |}.
Proof. reflexivity. Qed.

Example test_setRGB :
  let z := F64.zero in
  let d := F64.dec 3 10 in
  duty (setRGB 1 1 (setRGB 0 0 Pwm_init)) = [z; d; z; z; z; d; z; z].
Proof. reflexivity. Qed.

Example test_dispTemp_interior :
  (fun '(t, isFer) => test_case t isFer 1) <$>
    [(976, 0); (976, 1); (3775, 0); (3775, 1); (3924, 0); (3924, 1);
     (10549, 0); (10549, 1); (-532, 0); (-532, 1); (-2082, 0); (-2082, 1)] =
  [Some (false, [255; 255; 255; 255; 12; 8; 9; 255]);
   Some (false, [255; 255; 255; 255; 15; 6; 9; 4]);
   Some (false, [255; 255; 255; 255; 12; 8; 7; 3]);
   Some (true, [255; 255; 255; 255; 15; 0; 0; 1]);
   Some (false, [255; 255; 255; 255; 12; 2; 9; 3]);
   Some (true, [255; 255; 255; 255; 15; 3; 0; 1]);
   Some (true, [255; 255; 255; 255; 12; 5; 0; 1]);
   Some (true, [255; 255; 255; 255; 15; 2; 2; 2]);
   Some (false, [255; 255; 255; 255; 12; 0; 0; 255]);
   Some (false, [255; 255; 255; 255; 15; 4; 2; 2]);
   Some (false, [255; 255; 255; 255; 12; 0; 0; 255]);
   Some (false, [255; 255; 255; 255; 15; 0; 0; 255])].
Proof. vm_compute. reflexivity. Qed.

Example test_dispTemp_exterior :
  (fun '(t, isFer) => test_case t isFer 0) <$>
    [(976, 0); (976, 1); (3775, 0); (3775, 1); (3924, 0); (3924, 1);
     (10549, 0); (10549, 1); (-532, 0); (-532, 1); (-2082, 0); (-2082, 1)] =
  [Some (false, [12; 8; 9; 255; 255; 255; 255; 255]);
   Some (false, [15; 6; 9; 4; 255; 255; 255; 255]);
   Some (false, [12; 8; 7; 3; 255; 255; 255; 255]);
   Some (true, [15; 0; 0; 1; 255; 255; 255; 255]);
   Some (false, [12; 2; 9; 3; 255; 255; 255; 255]);
   Some (true, [15; 3; 0; 1; 255; 255; 255; 255]);
   Some (true, [12; 5; 0; 1; 255; 255; 255; 255]);
   Some (true, [15; 2; 2; 2; 255; 255; 255; 255]);
   Some (false, [12; 0; 0; 255; 255; 255; 255; 255]);
   Some (false, [15; 4; 2; 2; 255; 255; 255; 255]);
   Some (false, [12; 0; 0; 255; 255; 255; 255; 255]);
   Some (false, [15; 0; 0; 255; 255; 255; 255; 255])].
Proof. vm_compute. reflexivity. Qed.

(** ** Machine integers *)

Lemma to_int_testbit (u n : Z) :
  0 <= n < Int.wordsize -> Z.testbit (Int.to_int u) n = Z.testbit u n.
Proof.
  intros Hn. unfold Int.to_int. cbv zeta.
  destruct (u mod Int.modulus <=? Int.max_signed).
  - apply Z.mod_pow2_bits_low. lia.
  - rewrite <- (Z.mod_pow2_bits_low (u mod Int.modulus - Int.modulus) Int.wordsize n) by lia.
    fold Int.modulus.
    replace (u mod Int.modulus - Int.modulus)
      with (u mod Int.modulus + (-1) * Int.modulus) by ring.
    rewrite Z.mod_add by (unfold Int.modulus, Int.wordsize; lia).
    rewrite Z.mod_mod by (unfold Int.modulus, Int.wordsize; lia).
    apply Z.mod_pow2_bits_low. lia.
Qed.

Lemma land_127_range (z : Z) : 0 <= Z.land z 127 <= 127.
Proof.
  assert (H : Z.land z 127 = z mod 2 ^ 7)
    by (change 127 with (Z.ones 7); apply Z.land_ones; lia).
  rewrite H. pose proof (Z.mod_pos_bound z (2 ^ 7) ltac:(lia)). lia.
Qed.

Lemma land_127_small (z : Z) : 0 <= z <= 127 -> Z.land z 127 = z.
Proof.
  intros Hz. change 127 with (Z.ones 7). rewrite Z.land_ones by lia.
  apply Z.mod_small. change (2 ^ 7) with 128. lia.
Qed.

Lemma testbit_small (z k n : Z) :
  0 <= z < 2 ^ k -> k <= n -> Z.testbit z n = false.
Proof.
  intros Hz Hn. destruct (Z.eq_dec z 0) as [->|Hnz].
  - apply Z.bits_0.
  - apply Z.bits_above_log2; [lia|].
    assert (Z.log2 z < k); [|lia].
    apply Z.log2_lt_pow2; lia.
Qed.

(** ** The cores *)

Lemma length_write_1ptn ptn pos c :
  length (digit (write_1ptn ptn pos c)) = length (digit c).
Proof.
  unfold write_1ptn. case_match; [|reflexivity].
  cbn. apply length_insert.
Qed.

Lemma dp_write_1ptn ptn pos c : dp (write_1ptn ptn pos c) = dp c.
Proof. unfold write_1ptn. case_match; reflexivity. Qed.

(** A write inside the array is read back at its position and nowhere
    else; a write outside the array changes nothing. *)
Lemma cell_write_1ptn ptn pos c q :
  cell (write_1ptn ptn pos c) q =
    if (0 <=? pos) && (pos <? Z.of_nat (length (digit c))) && (q =? pos)
    then Some ptn else cell c q.
Proof.
  unfold write_1ptn, cell.
  destruct (0 <=? pos) eqn:H0; cbn [andb]; [|reflexivity].
  destruct (pos <? Z.of_nat (length (digit c))) eqn:H1; cbn [andb]; [|reflexivity].
  apply Z.leb_le in H0. apply Z.ltb_lt in H1.
  destruct (q =? pos) eqn:H2; cbn [digit].
  - apply Z.eqb_eq in H2. subst q.
    destruct (0 <=? pos) eqn:H3; [|apply Z.leb_gt in H3; lia].
    apply list_lookup_insert_eq. lia.
  - apply Z.eqb_neq in H2.
    destruct (0 <=? q) eqn:H3; [|reflexivity].
    apply Z.leb_le in H3.
    apply list_lookup_insert_ne. lia.
Qed.

Lemma length_Pwm_set_duty d ch c :
  length (duty (Pwm_set_duty d ch c)) = length (duty c).
Proof.
  unfold Pwm_set_duty. case_match; [|reflexivity].
  cbn. apply length_insert.
Qed.

Lemma channel_Pwm_set_duty d ch c q :
  channel (Pwm_set_duty d ch c) q =
    if (0 <=? ch) && (ch <? Z.of_nat (length (duty c))) && (q =? ch)
    then Some d else channel c q.
Proof.
  unfold Pwm_set_duty, channel.
  destruct (0 <=? ch) eqn:H0; cbn [andb]; [|reflexivity].
  destruct (ch <? Z.of_nat (length (duty c))) eqn:H1; cbn [andb]; [|reflexivity].
  apply Z.leb_le in H0. apply Z.ltb_lt in H1.
  destruct (q =? ch) eqn:H2; cbn [duty].
  - apply Z.eqb_eq in H2. subst q.
    destruct (0 <=? ch) eqn:H3; [|apply Z.leb_gt in H3; lia].
    apply list_lookup_insert_eq. lia.
  - apply Z.eqb_neq in H2.
    destruct (0 <=? q) eqn:H3; [|reflexivity].
    apply Z.leb_le in H3.
    apply list_lookup_insert_ne. lia.
Qed.

(** ** Switch decoding and LED mirroring *)

(** C8. For every switch word, [getTempLimit] on the exterior side (segsSel
    0) is [word & 0x7F] and on the interior side (segsSel 1) is
    [(word >> 8) & 0x7F]; both results are in [0, 127]. *)
Theorem getTempLimit_decodes (sw_p : GpiCore) :
  getTempLimit sw_p 0 = Z.land (sw sw_p) 127 /\
  getTempLimit sw_p 1 = Z.land (Z.shiftr (sw sw_p) 8) 127 /\
  0 <= getTempLimit sw_p 0 <= 127 /\
  0 <= getTempLimit sw_p 1 <= 127.
Proof.
  destruct sw_p as [word]. cbn [sw].
  assert (Hlow : forall n, 0 <= n < 32 ->
            Z.testbit (Gpi_read {| sw := word |}) n = Z.testbit word n).
  { intros n Hn. unfold Gpi_read, sw.
    apply to_int_testbit. unfold Int.wordsize. lia. }
  assert (Hmask : forall n, 0 <= n -> Z.testbit 127 n = (n <? 7)).
  { intros n Hn. change 127 with (Z.ones 7).
    destruct (n <? 7) eqn:E.
    - apply Z.ones_spec_low. apply Z.ltb_lt in E. lia.
    - apply Z.ones_spec_high. apply Z.ltb_ge in E. lia. }
  assert (Hext : getTempLimit {| sw := word |} 0 = Z.land word 127).
  { unfold getTempLimit. cbn [Z.eqb]. cbv zeta.
    apply Z.bits_inj'. intros n Hn. rewrite !Z.land_spec, Hmask by lia.
    destruct (n <? 7) eqn:E; [|now rewrite !andb_false_r].
    apply Z.ltb_lt in E. rewrite Hlow by lia. reflexivity. }
  assert (Hint : getTempLimit {| sw := word |} 1 = Z.land (Z.shiftr word 8) 127).
  { unfold getTempLimit. cbn [Z.eqb Pos.eqb]. cbv zeta.
    apply Z.bits_inj'. intros n Hn.
    rewrite !Z.land_spec, !Z.shiftr_spec, Hmask by lia.
    destruct (n <? 7) eqn:E; [|now rewrite !andb_false_r].
    apply Z.ltb_lt in E. rewrite Hlow by lia. reflexivity. }
  rewrite Hext, Hint.
  repeat split; apply land_127_range.
Qed.

(** C9. For limits [a] and [b] in [0, 127], [dispTempLimit] writes
    [(b << 8) | a] to the LED port: [a] in bits 0-6, [b] in bits 8-14, every
    other bit zero. *)
Theorem dispTempLimit_packs (a b : Z) (led_p : GpoCore) :
  0 <= a <= 127 -> 0 <= b <= 127 ->
  let out := ledOutput (dispTempLimit a b led_p) in
  out = Z.lor (Z.shiftl b 8) a /\
  (forall i, 0 <= i <= 6 -> Z.testbit out i = Z.testbit a i) /\
  (forall i, 8 <= i <= 14 -> Z.testbit out i = Z.testbit b (i - 8)) /\
  (forall i, i = 7 \/ 15 <= i -> Z.testbit out i = false).
Proof.
  intros Ha Hb out.
  assert (Hout : out = Z.lor (Z.shiftl b 8) a).
  { subst out. unfold dispTempLimit, Gpo_write, ledOutput. cbv zeta.
    rewrite Z.lor_0_l, !land_127_small by assumption.
    rewrite Z.lor_comm. unfold Int.to_uint32.
    apply Z.mod_small.
    assert (Hsh : Z.shiftl b 8 = b * 2 ^ 8) by (apply Z.shiftl_mul_pow2; lia).
    split.
    - apply Z.lor_nonneg. split; [rewrite Z.shiftl_nonneg|]; lia.
    - destruct (Z.eq_dec (Z.lor (Z.shiftl b 8) a) 0) as [->|Hnz];
        [unfold Int.modulus, Int.wordsize; lia|].
      apply Z.log2_lt_cancel.
      assert (Hlor : 0 <= Z.lor (Z.shiftl b 8) a)
        by (apply Z.lor_nonneg; split; [rewrite Z.shiftl_nonneg|]; lia).
      rewrite Z.log2_lor by (try rewrite Z.shiftl_nonneg; lia).
      unfold Int.modulus, Int.wordsize. rewrite Z.log2_pow2 by lia.
      assert (Z.log2 a < 7).
      { destruct (Z.eq_dec a 0) as [->|]; [vm_compute; reflexivity|].
        apply Z.log2_lt_pow2; lia. }
      assert (Z.log2 (Z.shiftl b 8) < 15).
      { destruct (Z.eq_dec b 0) as [->|]; [vm_compute; reflexivity|].
        apply Z.log2_lt_pow2; [rewrite Hsh; lia|].
        rewrite Hsh. lia. }
      lia. }
  assert (Ha7 : forall i, 7 <= i -> Z.testbit a i = false)
    by (intros i Hi; apply (testbit_small a 7 i); lia).
  assert (Hb7 : forall i, 7 <= i -> Z.testbit b i = false)
    by (intros i Hi; apply (testbit_small b 7 i); lia).
  split; [exact Hout|]. rewrite Hout.
  split; [|split].
  - intros i Hi. rewrite Z.lor_spec, Z.shiftl_spec by lia.
    rewrite (Z.testbit_neg_r b (i - 8)) by lia. reflexivity.
  - intros i Hi. rewrite Z.lor_spec, Z.shiftl_spec by lia.
    rewrite (Ha7 i) by lia. apply orb_false_r.
  - intros i Hi. destruct (Z.lt_ge_cases i 0) as [Hneg|Hpos].
    + apply Z.testbit_neg_r. lia.
    + rewrite Z.lor_spec, Z.shiftl_spec by lia.
      destruct Hi as [->|Hi].
      * rewrite (Ha7 7), (Z.testbit_neg_r b (7 - 8)) by lia. reflexivity.
      * rewrite (Ha7 i), (Hb7 (i - 8)) by lia. reflexivity.
Qed.

(** The mirror of limits 0x12 (exterior) and 0x34 (interior), as the
    repository's test sets them. *)
Lemma dispTempLimit_packs_witness :
  0 <= 18 <= 127 /\ 0 <= 52 <= 127 /\
  ledOutput (dispTempLimit 18 52 {| ledOutput := 0 |}) = Z.lor (Z.shiftl 52 8) 18.
Proof.
  assert (Ha : 0 <= 18 <= 127) by lia.
  assert (Hb : 0 <= 52 <= 127) by lia.
  split; [exact Ha|]. split; [exact Hb|].
  exact (proj1 (dispTempLimit_packs 18 52 {| ledOutput := 0 |} Ha Hb)).
Defined.

(** ** Decimal points *)

(** C10. [dispDp] sets the decimal-point mask by the four-row table:
    (interior, exterior) = (true, true) gives bit1|bit5, (true, false)
    bit2|bit5, (false, true) bit1|bit6, (false, false) bit2|bit6. *)
Theorem dispDp_table (sseg_p : SsegCore) :
  dp (dispDp true true sseg_p) = Z.lor (Z.shiftl 1 1) (Z.shiftl 1 5) /\
  dp (dispDp true false sseg_p) = Z.lor (Z.shiftl 1 2) (Z.shiftl 1 5) /\
  dp (dispDp false true sseg_p) = Z.lor (Z.shiftl 1 1) (Z.shiftl 1 6) /\
  dp (dispDp false false sseg_p) = Z.lor (Z.shiftl 1 2) (Z.shiftl 1 6) /\
  (forall i e, digit (dispDp i e sseg_p) = digit sseg_p).
Proof. repeat split. Qed.

(** ** RGB indicators *)

(** The duty that [setRGB] computes, [30.0 / 100.0], is the binary64 number
    nearest to 0.30. *)
Lemma setRGB_duty : F64.div (F64.of_Z 30) (F64.of_Z 100) = F64.dec 3 10.
Proof. vm_compute. reflexivity. Qed.

(** The loop of the interior branch, unrolled. *)
Lemma setRGB_interior (color : Z) (pwm_p : PwmCore) :
  setRGB color 1 pwm_p =
    Pwm_set_duty (F64.dec 3 10) (color + 4)
      (Pwm_set_duty F64.zero 5
         (Pwm_set_duty F64.zero 4 (Pwm_set_duty F64.zero 3 pwm_p))).
Proof. rewrite <- setRGB_duty. reflexivity. Qed.

Ltac pwm_channels Hlen :=
  rewrite setRGB_interior;
  rewrite ?channel_Pwm_set_duty, ?length_Pwm_set_duty, ?Hlen.

(** C4, counterexample: on the initial core, [setRGB 1 1] leaves channel 4
    at 0.0 and the 0.30 duty is on channel 5. *)
Lemma setRGB_red_interior_counterexample : ~ setRGB_red_interior_as_specified.
Proof.
  intros H. destruct (H Pwm_init eq_refl) as (H4 & _).
  vm_compute in H4. discriminate H4.
Qed.

(** C4, amended. [setRGB] with color 1 (red) on the interior indicator sets
    channel 5 (= 4 + color) to 0.30 and channels 3 and 4 to 0.0; every
    channel outside 3-5, so channels 0-2, keeps its duty, and the frequency
    is kept. *)
Theorem setRGB_red_interior (pwm_p : PwmCore) :
  length (duty pwm_p) = 8%nat ->
  let out := setRGB 1 1 pwm_p in
  channel out 5 = Some (F64.dec 3 10) /\
  channel out 3 = Some F64.zero /\
  channel out 4 = Some F64.zero /\
  (forall ch, ch < 3 \/ 5 < ch -> channel out ch = channel pwm_p ch) /\
  freq out = freq pwm_p /\
  length (duty out) = 8%nat.
Proof.
  intros Hlen out. subst out.
  repeat split.
  - pwm_channels Hlen. reflexivity.
  - pwm_channels Hlen. reflexivity.
  - pwm_channels Hlen. reflexivity.
  - intros ch Hch. pwm_channels Hlen.
    rewrite !(proj2 (Z.eqb_neq ch _)) by lia.
    rewrite !andb_false_r. reflexivity.
  - rewrite setRGB_interior. unfold Pwm_set_duty.
    repeat (case_match; cbn [freq]); reflexivity.
  - rewrite setRGB_interior, !length_Pwm_set_duty. exact Hlen.
Qed.

Lemma setRGB_red_interior_witness :
  length (duty Pwm_init) = 8%nat /\
  channel (setRGB 1 1 Pwm_init) 5 = Some (F64.dec 3 10) /\
  channel (setRGB 1 1 Pwm_init) 4 = Some F64.zero.
Proof.
  split; [reflexivity|].
  pose proof (setRGB_red_interior Pwm_init eq_refl) as (H5 & _ & H4 & _).
  split; [exact H5 | exact H4].
Defined.

(** ** Floating point: order and sign *)

Lemma SFcompare_antisym (x y : spec_float) :
  SFcompare y x = CompOpp <$> SFcompare x y.
Proof.
  destruct x as [sx|sx| |sx mx ex], y as [sy|sy| |sy my ey];
    try destruct sx; try destruct sy; try reflexivity; cbn;
    rewrite (Z.compare_antisym ey ex); destruct (ey ?= ex); cbn;
    try reflexivity; f_equal;
    rewrite ?CompOpp_involutive;
    first [ exact (Pos.compare_cont_antisym my mx Eq)
          | exact (eq_sym (Pos.compare_cont_antisym mx my Eq)) ].
Qed.

Lemma lt_not_ge (x y : float) : F32.lt x y = true -> F32.ge x y = false.
Proof.
  unfold F32.lt, F32.ge, SFltb, SFleb. rewrite (SFcompare_antisym x y).
  destruct (SFcompare x y) as [[]|]; cbn; congruence.
Qed.

Lemma binary_round_aux_not_negative prec emax mx ex lx :
  0 <= mx -> not_negative (binary_round_aux prec emax false mx ex lx).
Proof.
  intros Hmx. unfold binary_round_aux.
  destruct (shr_fexp prec emax mx ex lx) as [mrs' e'].
  destruct (shr_fexp prec emax _ e' loc_Exact) as [mrs'' e''].
  destruct (shr_m mrs''); [exact I| |exact I].
  destruct (e'' <=? emax - prec); exact I.
Qed.

Lemma mul_not_negative prec emax x m e :
  not_negative x -> not_negative (SFmul prec emax x (S754_finite false m e)).
Proof.
  destruct x as [[]|[]| |[] mx ex]; cbn; try tauto.
  intros _. apply binary_round_aux_not_negative. lia.
Qed.

Lemma add_not_negative prec emax x m e :
  not_negative x -> not_negative (SFadd prec emax x (S754_finite false m e)).
Proof.
  destruct x as [[]|[]| |[] mx ex]; cbn [SFadd not_negative]; try tauto.
  intros _. unfold binary_normalize, cond_Zopp.
  cbn [Z.add]. unfold binary_round.
  destruct (shl_align mx ex (ex `min` e)) as [m1 e1].
  destruct (shl_align m e (ex `min` e)) as [m2 e2]. cbn [fst].
  change (Z.pos m1 + Z.pos m2) with (Z.pos (m1 + m2)). cbv iota beta.
  destruct (shl_align (m1 + m2) _ _) as [mz ez].
  apply binary_round_aux_not_negative. lia.
Qed.

Lemma to_int_not_negative (x : float) (z : Z) :
  not_negative x -> F32.to_int x = Some z -> 0 <= z.
Proof.
  unfold F32.to_int, IEEE.to_int.
  destruct x as [s|s| |[] m e]; cbn [IEEE.trunc not_negative cond_Zopp];
    try tauto; try discriminate.
  - intros _ H. destruct (Int.in_range 0); [|discriminate].
    injection H as <-. lia.
  - intros _ H. destruct (Int.in_range _); [|discriminate].
    injection H as <-. apply Z.shiftl_nonneg. lia.
Qed.

(** ** Floating point: rounding to nearest is monotone at the numbers of
    the format

    [binary_round_aux] shifts the mantissa to the exponent of the format,
    rounds, and shifts once more for a carry.  Whatever number of the
    format bounds the exact value from above or from below also bounds the
    rounded value. *)

Section Rounding.

Variables prec emax : Z.
Hypothesis Hprec : 0 < prec.

Variable B : Z.

Notation emin := (SpecFloat.emin prec emax).
Notation fexp := (SpecFloat.fexp prec emax).
Notation val := (Round.val B).
Notation canon := (Round.canon prec emax B).
Notation stage_m := (Round.stage_m prec emax).
Notation stage_e := (Round.stage_e prec emax).
Notation stage_exact := (Round.stage_exact prec emax).
Notation Fval := (Round.Fval B).
Notation fin := (Round.fin B).
Notation canonF := (Round.canonF prec emax B).

(** Digits *)
Lemma digits2_pos_size (p : positive) : digits2_pos p = Pos.size p.
Proof. induction p; cbn; congruence. Qed.

Lemma Zdigits2_log2 (m : Z) : 0 < m -> Zdigits2 m = Z.log2 m + 1.
Proof.
  destruct m as [|p|p]; try lia. intros _. cbn [Zdigits2].
  rewrite digits2_pos_size. destruct p; cbn; lia.
Qed.

Lemma Zdigits2_bounds (m : Z) :
  0 < m -> 0 < Zdigits2 m /\ 2 ^ (Zdigits2 m - 1) <= m < 2 ^ Zdigits2 m.
Proof.
  intros Hm. rewrite Zdigits2_log2 by assumption.
  pose proof (Z.log2_nonneg m). pose proof (Z.log2_spec m Hm).
  replace (Z.log2 m + 1 - 1) with (Z.log2 m) by lia.
  replace (Z.log2 m + 1) with (Z.succ (Z.log2 m)) by lia. lia.
Qed.

Lemma fexp_mono (a b : Z) : a <= b -> fexp a <= fexp b.
Proof. unfold SpecFloat.fexp. lia. Qed.

Lemma fexp_emin (a : Z) : emin <= fexp a.
Proof. unfold SpecFloat.fexp. lia. Qed.

(** Shifts *)
Lemma shr_1_m (mrs : shr_record) :
  0 <= shr_m mrs -> shr_m (shr_1 mrs) = shr_m mrs / 2.
Proof.
  destruct mrs as [m r s]. cbn [shr_m]. intros Hm.
  destruct m as [|[p|p|]|p]; cbn [shr_1 shr_m]; try reflexivity.
  - rewrite (Pos2Z.inj_xI p). apply (Z.div_unique _ 2 _ 1); lia.
  - rewrite (Pos2Z.inj_xO p). apply (Z.div_unique _ 2 _ 0); lia.
  - lia.
Qed.

Lemma shr_1_exact (mrs : shr_record) :
  0 <= shr_m mrs ->
  shr_r mrs || shr_s mrs = false -> shr_m mrs mod 2 = 0 ->
  shr_r (shr_1 mrs) || shr_s (shr_1 mrs) = false.
Proof.
  destruct mrs as [m r s]. cbn [shr_m shr_r shr_s]. intros Hm Hrs.
  destruct m as [|[p|p|]|p]; cbn [shr_1 shr_r shr_s orb]; auto.
  - rewrite (Pos2Z.inj_xI p).
    rewrite <- (Z.mod_unique (2 * Z.pos p + 1) 2 (Z.pos p) 1); lia.
  - discriminate.
  - lia.
Qed.

Lemma mod_mul_l (k a b : Z) : 0 < a -> 0 < b -> k mod (a * b) = 0 -> k mod a = 0.
Proof.
  intros Ha Hb H. apply Z.mod_divide in H; [|lia]. destruct H as [q ->].
  replace (q * (a * b)) with (q * b * a) by ring. apply Z.mod_mul. lia.
Qed.

Lemma mod_mul_r (k a b : Z) : 0 < a -> 0 < b -> k mod (a * b) = 0 -> (k / a) mod b = 0.
Proof.
  intros Ha Hb H. apply Z.mod_divide in H; [|lia]. destruct H as [q ->].
  replace (q * (a * b)) with (q * b * a) by ring.
  rewrite Z.div_mul by lia. apply Z.mod_mul. lia.
Qed.

Lemma iter_shr_1 (p : positive) (mrs : shr_record) :
  0 <= shr_m mrs ->
  let mrs' := SpecFloat.iter_pos shr_1 p mrs in
  shr_m mrs' = shr_m mrs / 2 ^ Z.pos p /\
  (shr_r mrs || shr_s mrs = false -> shr_m mrs mod 2 ^ Z.pos p = 0 ->
   shr_r mrs' || shr_s mrs' = false).
Proof.
  revert mrs.
  assert (Hp : forall q, 0 < 2 ^ Z.pos q) by (intros q; apply Z.pow_pos_nonneg; lia).
  induction p as [p IH|p IH|]; intros mrs Hm; cbn [SpecFloat.iter_pos]; cbv zeta.
  - assert (H1 : 0 <= shr_m (shr_1 mrs))
      by (rewrite shr_1_m by assumption; apply Z.div_pos; lia).
    destruct (IH (shr_1 mrs) H1) as [Ha Hb].
    assert (H2 : 0 <= shr_m (SpecFloat.iter_pos shr_1 p (shr_1 mrs)))
      by (rewrite Ha; apply Z.div_pos; [lia|apply Hp]).
    destruct (IH _ H2) as [Hc Hd].
    rewrite shr_1_m in Ha by assumption.
    assert (Hpow : 2 ^ Z.pos p~1 = 2 * (2 ^ Z.pos p * 2 ^ Z.pos p)).
    { rewrite (Pos2Z.inj_xI p).
      replace (2 * Z.pos p + 1) with (Z.pos p + Z.pos p + 1) by lia.
      rewrite !Z.pow_add_r by lia. change (2 ^ 1) with 2. ring. }
    specialize (Hp p).
    split.
    + rewrite Hc, Ha, Hpow, !Z.div_div by lia. reflexivity.
    + intros Hrs Hmod. rewrite Hpow in Hmod.
      assert (E1 : shr_m mrs mod 2 = 0) by (apply mod_mul_l in Hmod; lia).
      assert (E2 : (shr_m mrs / 2) mod (2 ^ Z.pos p * 2 ^ Z.pos p) = 0)
        by (apply mod_mul_r in Hmod; lia).
      apply Hd.
      * apply Hb; [apply shr_1_exact; assumption|].
        rewrite shr_1_m by assumption. apply mod_mul_l in E2; lia.
      * rewrite Ha. apply mod_mul_r in E2; lia.
  - destruct (IH mrs Hm) as [Ha Hb].
    assert (H2 : 0 <= shr_m (SpecFloat.iter_pos shr_1 p mrs))
      by (rewrite Ha; apply Z.div_pos; [lia|apply Hp]).
    destruct (IH _ H2) as [Hc Hd].
    assert (Hpow : 2 ^ Z.pos p~0 = 2 ^ Z.pos p * 2 ^ Z.pos p).
    { rewrite (Pos2Z.inj_xO p).
      replace (2 * Z.pos p) with (Z.pos p + Z.pos p) by lia.
      rewrite Z.pow_add_r by lia. reflexivity. }
    specialize (Hp p).
    split.
    + rewrite Hc, Ha, Hpow, !Z.div_div by lia. reflexivity.
    + intros Hrs Hmod. rewrite Hpow in Hmod.
      apply Hd.
      * apply Hb; [assumption|]. apply mod_mul_l in Hmod; lia.
      * rewrite Ha. apply mod_mul_r in Hmod; lia.
  - split.
    + rewrite shr_1_m by assumption. reflexivity.
    + intros Hrs Hmod. apply shr_1_exact; assumption.
Qed.



Lemma pow2_pos (k : Z) : 0 <= k -> 0 < 2 ^ k.
Proof. intros Hk. apply Z.pow_pos_nonneg; lia. Qed.

Lemma pow2_split (a b : Z) : 0 <= a -> 0 <= b -> 2 ^ (a + b) = 2 ^ a * 2 ^ b.
Proof. intros Ha Hb. apply Z.pow_add_r; assumption. Qed.

Lemma val_shift (m e n : Z) : B <= e -> 0 <= n -> val m (e + n) = m * 2 ^ n * 2 ^ (e - B).
Proof.
  intros He Hn. unfold Round.val. replace (e + n - B) with (n + (e - B)) by lia.
  rewrite pow2_split by lia. ring.
Qed.

Lemma val_lt_pow (m e : Z) :
  0 < m -> B <= e -> 2 ^ (Zdigits2 m - 1 + e - B) <= val m e < 2 ^ (Zdigits2 m + e - B).
Proof.
  intros Hm He. destruct (Zdigits2_bounds m Hm) as (Hd & Hlo & Hhi).
  unfold Round.val.
  replace (Zdigits2 m - 1 + e - B) with (Zdigits2 m - 1 + (e - B)) by lia.
  replace (Zdigits2 m + e - B) with (Zdigits2 m + (e - B)) by lia.
  rewrite !pow2_split by lia.
  pose proof (pow2_pos (e - B) ltac:(lia)). nia.
Qed.

(** Two positive values compare as their magnitudes allow. *)
Lemma val_le_digits (m e mf ef : Z) :
  0 < m -> B <= e -> 0 < mf -> B <= ef ->
  val m e <= val mf ef -> Zdigits2 m + e <= Zdigits2 mf + ef.
Proof.
  intros Hm He Hmf Hef Hle.
  pose proof (val_lt_pow m e Hm He) as [H1 _].
  pose proof (val_lt_pow mf ef Hmf Hef) as [_ H2].
  destruct (Zdigits2_bounds m Hm) as (Hd & _).
  destruct (Zdigits2_bounds mf Hmf) as (Hdf & _).
  assert (H : 2 ^ (Zdigits2 m - 1 + e - B) < 2 ^ (Zdigits2 mf + ef - B)) by lia.
  apply Z.pow_lt_mono_r_iff in H; lia.
Qed.


Lemma stage_lower (m e : Z) :
  0 < m -> B <= e ->
  0 <= stage_m m e /\ e <= stage_e m e /\ emin <= stage_e m e /\
  val (stage_m m e) (stage_e m e) <= val m e /\
  (~ stage_exact m e -> val (stage_m m e) (stage_e m e) < val m e) /\
  (forall mf ef, canon mf ef -> val mf ef <= val m e ->
     val mf ef <= val (stage_m m e) (stage_e m e)).
Proof.
  intros Hm He. unfold Round.stage_m, stage_e, stage_exact. cbv zeta.
  destruct (Zdigits2_bounds m Hm) as (Hd & Hlo & Hhi).
  remember (Zdigits2 m) as d eqn:Hd0.
  pose proof (fexp_emin (d + e)) as Hemin.
  remember (fexp (d + e) - e) as n eqn:Hn0.
  destruct (0 <? n) eqn:Hn.
  - apply Z.ltb_lt in Hn.
    pose proof (pow2_pos n ltac:(lia)) as HP.
    pose proof (pow2_pos (e - B) ltac:(lia)) as HS.
    pose proof (Z.div_mod m (2 ^ n) ltac:(lia)) as Hdm.
    pose proof (Z.mod_pos_bound m (2 ^ n) HP) as Hmod.
    assert (Hq : 0 <= m / 2 ^ n) by (apply Z.div_pos; lia).
    rewrite val_shift by lia. unfold Round.val at 1 2 4.
    split; [exact Hq|]. split; [lia|]. split; [lia|].
    split; [nia|]. split; [intros Hx; assert (m mod 2 ^ n <> 0) by tauto; nia|].
    intros mf ef (Hmf & Hcan & Hef) Hle.
    destruct (Z_le_gt_dec (e + n) ef) as [Hge|Hlt].
    + (* the bound is a multiple of the unit of the result *)
      unfold Round.val in *. replace (ef - B) with ((ef - (e + n)) + n + (e - B)) in * by lia.
      rewrite !pow2_split in * by lia.
      pose proof (pow2_pos (ef - (e + n)) ltac:(lia)) as HK.
      set (K := mf * 2 ^ (ef - (e + n))) in *.
      replace (mf * (2 ^ (ef - (e + n)) * 2 ^ n * 2 ^ (e - B)))
        with (K * 2 ^ n * 2 ^ (e - B)) in * by (subst K; ring).
      assert (K * 2 ^ n <= m) by nia.
      assert (K <= m / 2 ^ n) by (apply Z.div_le_lower_bound; lia).
      nia.
    + (* the bound is below the binade of [m] *)
      assert (Hdig : Zdigits2 mf + ef < d + e).
      { destruct (Z_lt_le_dec (Zdigits2 mf + ef) (d + e)) as [|Hc]; [assumption|].
        apply fexp_mono in Hc. lia. }
      assert (Hn' : n = d - prec) by (unfold SpecFloat.fexp in *; lia).
      clear Hn0.
      pose proof (val_lt_pow mf ef Hmf Hef) as [_ Hf].
      assert (Hp1 : 2 ^ (Zdigits2 mf + ef - B) <= 2 ^ (d - 1 - n + n + (e - B))).
      { destruct (Zdigits2_bounds mf Hmf) as (Hdf & _).
        apply Z.pow_le_mono_r; lia. }
      rewrite !pow2_split in Hp1 by lia.
      assert (H2 : 2 ^ (d - 1 - n) <= m / 2 ^ n).
      { apply Z.div_le_lower_bound; [lia|].
        rewrite Z.mul_comm, <- pow2_split by lia.
        replace (d - 1 - n + n) with (d - 1) by lia. exact Hlo. }
      assert (H3 : 2 ^ (d - 1 - n) * 2 ^ n * 2 ^ (e - B)
                   <= m / 2 ^ n * 2 ^ n * 2 ^ (e - B))
        by (repeat apply Z.mul_le_mono_nonneg_r; lia).
      unfold Round.val in *. lia.
  - apply Z.ltb_ge in Hn.
    split; [lia|]. split; [lia|]. split; [lia|]. split; [lia|].
    split; [intros Hx; exfalso; apply Hx; lia|]. auto.
Qed.

Lemma stage_upper (m e mf ef : Z) :
  0 < m -> B <= e -> canon mf ef -> val m e <= val mf ef ->
  stage_e m e <= Z.max e ef /\
  (~ stage_exact m e -> val (stage_m m e + 1) (stage_e m e) <= val mf ef).
Proof.
  intros Hm He (Hmf & Hcan & Hef) Hle.
  unfold Round.stage_m, stage_e, stage_exact. cbv zeta.
  pose proof (val_le_digits m e mf ef Hm He Hmf Hef Hle) as Hdig.
  apply fexp_mono in Hdig. rewrite <- Hcan in Hdig.
  remember (fexp (Zdigits2 m + e) - e) as n eqn:Hn0.
  destruct (0 <? n) eqn:Hn.
  - apply Z.ltb_lt in Hn. split; [lia|]. intros Hx.
    assert (Hmod : m mod 2 ^ n <> 0) by tauto.
    pose proof (pow2_pos n ltac:(lia)) as HP.
    pose proof (pow2_pos (e - B) ltac:(lia)) as HS.
    pose proof (pow2_pos (ef - (e + n)) ltac:(lia)) as HK.
    rewrite val_shift by lia. unfold Round.val in *.
    replace (ef - B) with ((ef - (e + n)) + n + (e - B)) in * by lia.
    rewrite !pow2_split in * by lia.
    remember (mf * 2 ^ (ef - (e + n))) as K eqn:HK0.
    replace (mf * (2 ^ (ef - (e + n)) * 2 ^ n * 2 ^ (e - B)))
      with (K * 2 ^ n * 2 ^ (e - B)) in * by (subst K; ring).
    assert (H1 : m <= K * 2 ^ n) by nia.
    assert (H2 : m / 2 ^ n < K).
    { destruct (Z_lt_le_dec (m / 2 ^ n) K) as [|Hc]; [assumption|]. exfalso.
      pose proof (Z.div_mod m (2 ^ n) ltac:(lia)) as Hdm.
      pose proof (Z.mod_pos_bound m (2 ^ n) HP) as Hmb.
      assert (K * 2 ^ n <= m / 2 ^ n * 2 ^ n)
        by (apply Z.mul_le_mono_nonneg_r; lia).
      lia. }
    repeat apply Z.mul_le_mono_nonneg_r; lia.
  - apply Z.ltb_ge in Hn. split; [lia|]. intros Hx. exfalso. apply Hx. lia.
Qed.

(** [shr_fexp] on an exact input is one stage. *)
Lemma shr_fexp_stage (m e : Z) :
  0 <= m ->
  let '(mrs, e') := shr_fexp prec emax m e loc_Exact in
  shr_m mrs = stage_m m e /\ e' = stage_e m e /\
  (stage_exact m e -> loc_of_shr_record mrs = loc_Exact).
Proof.
  intros Hm. unfold shr_fexp, shr, Round.stage_m, stage_e, stage_exact. cbv zeta.
  cbn [shr_record_of_loc].
  destruct (fexp (Zdigits2 m + e) - e) as [|n|n] eqn:Hn.
  - cbn. auto.
  - pose proof (iter_shr_1 n {| shr_m := m; shr_r := false; shr_s := false |} Hm)
      as [Ha Hb].
    cbn [shr_m shr_r shr_s orb] in Ha, Hb.
    change (0 <? Z.pos n) with true. cbv iota.
    split; [exact Ha|]. split; [reflexivity|].
    intros Hx. specialize (Hb eq_refl (Hx ltac:(lia))).
    destruct (SpecFloat.iter_pos shr_1 n _) as [m' [] []]; cbn in Hb |- *;
      congruence.
  - cbn. auto.
Qed.

Lemma round_nearest_even_range (q : Z) (l : location) :
  q <= round_nearest_even q l <= q + 1 /\
  (l = loc_Exact -> round_nearest_even q l = q).
Proof.
  split; [|intros ->; reflexivity].
  unfold round_nearest_even. destruct l as [|[]]; try destruct (Z.even q); lia.
Qed.



Lemma canonF_canon (x : spec_float) :
  canonF x -> exists m e, x = S754_finite false m e /\ canon (Z.pos m) e /\
                          e <= emax - prec.
Proof.
  destruct x as [| | |[] m e]; cbn; try tauto.
  intros (Hc & He & HB). exists m, e. split; [reflexivity|].
  unfold canonical_mantissa in Hc. apply Z.eqb_eq in Hc.
  unfold Round.canon. cbn [Zdigits2]. split; [|lia]. split; [lia|]. split; [lia|exact HB].
Qed.

Lemma val_mono (m m' e : Z) : B <= e -> m <= m' -> val m e <= val m' e.
Proof.
  intros He Hm. unfold Round.val. apply Z.mul_le_mono_nonneg_r; [|exact Hm].
  pose proof (pow2_pos (e - B)). lia.
Qed.

Lemma stage_exact_dec (m e : Z) : stage_exact m e \/ ~ stage_exact m e.
Proof.
  unfold Round.stage_exact. cbv zeta.
  destruct (Z_lt_le_dec 0 (fexp (Zdigits2 m + e) - e)) as [Hn|Hn]; [|left; lia].
  destruct (Z.eq_dec (m mod 2 ^ (fexp (Zdigits2 m + e) - e)) 0) as [E|E];
    [left; auto|right; intros H; apply E, H, Hn].
Qed.

(** Rounding to nearest stays between the numbers of the format that bound
    the exact value. *)
Lemma binary_round_aux_bounds (mx ex : Z) (U : spec_float) :
  0 < mx -> B <= ex -> ex <= emax - prec ->
  canonF U -> val mx ex <= Fval U ->
  let r := binary_round_aux prec emax false mx ex loc_Exact in
  fin r /\ Fval r <= Fval U /\
  (forall L, canonF L -> Fval L <= val mx ex -> Fval L <= Fval r).
Proof.
  intros Hmx HB Hex HU Hle. cbv zeta.
  destruct (canonF_canon U HU) as (mU & eU & -> & HcU & HeU). cbn [Round.Fval] in *.
  unfold binary_round_aux.
  pose proof (shr_fexp_stage mx ex ltac:(lia)) as H1.
  destruct (shr_fexp prec emax mx ex loc_Exact) as [mrs' e'].
  destruct H1 as (Hq & -> & Hloc).
  destruct (stage_lower mx ex Hmx HB) as (Hq0 & He1 & Hemin1 & Hfl & Hstrict & HL1).
  destruct (stage_upper mx ex _ _ Hmx HB HcU Hle) as (HeU1 & HU1).
  destruct (round_nearest_even_range (shr_m mrs') (loc_of_shr_record mrs'))
    as (Hrne & Hrne0).
  rewrite Hq in *.
  remember (round_nearest_even (stage_m mx ex) (loc_of_shr_record mrs')) as q' eqn:Hq'.
  remember (stage_e mx ex) as e1 eqn:He1'.
  assert (HUq : val q' e1 <= val (Z.pos mU) eU).
  { destruct (stage_exact_dec mx ex) as [Hx|Hx].
    - rewrite (Hrne0 (Hloc Hx)). lia.
    - specialize (HU1 Hx). pose proof (val_mono q' (stage_m mx ex + 1) e1). lia. }
  assert (HLq : forall L, canonF L -> Fval L <= val mx ex -> Fval L <= val q' e1).
  { intros L HcL HleL. destruct (canonF_canon L HcL) as (mL & eL & -> & HcL' & _).
    cbn [Round.Fval] in *. specialize (HL1 _ _ HcL' HleL).
    pose proof (val_mono (stage_m mx ex) q' e1). lia. }
  pose proof (shr_fexp_stage q' e1 ltac:(lia)) as H2.
  destruct (shr_fexp prec emax q' e1 loc_Exact) as [mrs'' e''].
  destruct H2 as (Hm2 & -> & _). rewrite Hm2.
  destruct (Z.eq_dec q' 0) as [Hz|Hnz].
  - (* the value rounds to zero *)
    assert (Hs : stage_m q' e1 = 0).
    { rewrite Hz. unfold Round.stage_m. cbv zeta. destruct (0 <? _); reflexivity. }
    rewrite Hs. cbn [Round.fin Round.Fval]. split; [exact I|].
    assert (val q' e1 = 0) by (rewrite Hz; reflexivity).
    split; [lia|]. intros L HcL HleL. specialize (HLq L HcL HleL). lia.
  - destruct (stage_lower q' e1 ltac:(lia) ltac:(lia))
      as (Hm0 & He2 & _ & Hfl2 & _ & HL2).
    destruct (stage_upper q' e1 _ _ ltac:(lia) ltac:(lia) HcU HUq) as (HeU2 & _).
    destruct (stage_m q' e1) as [|p|p] eqn:Hp; [| |lia].
    + cbn [Round.fin Round.Fval]. split; [exact I|].
      assert (val 0 (stage_e q' e1) = 0) by reflexivity.
      split; [lia|]. intros L HcL HleL.
      destruct (canonF_canon L HcL) as (mL & eL & -> & HcL' & _). cbn [Round.Fval] in *.
      specialize (HLq _ HcL HleL). cbn [Round.Fval] in HLq.
      specialize (HL2 _ _ HcL' HLq). lia.
    + assert (Hfit : (stage_e q' e1 <=? emax - prec) = true) by (apply Z.leb_le; lia).
      rewrite Hfit. cbn [Round.fin Round.Fval]. split; [lia|]. split; [lia|].
      intros L HcL HleL.
      destruct (canonF_canon L HcL) as (mL & eL & -> & HcL' & _). cbn [Round.Fval] in *.
      specialize (HLq _ HcL HleL). cbn [Round.Fval] in HLq.
      exact (HL2 _ _ HcL' HLq).
Qed.

(** Alignment keeps the value. *)
Lemma iter_xO (d m : positive) : Z.pos (Pos.iter xO m d) = Z.pos m * 2 ^ Z.pos d.
Proof.
  induction d as [|d IH] using Pos.peano_ind.
  - cbn [Pos.iter]. rewrite (Pos2Z.inj_xO m). change (2 ^ 1) with 2. ring.
  - rewrite Pos.iter_succ, (Pos2Z.inj_xO (Pos.iter xO m d)), IH, Pos2Z.inj_succ.
    rewrite Z.pow_succ_r by lia. ring.
Qed.

Lemma shl_align_val (mx : positive) (ex ex' : Z) :
  B <= ex -> B <= ex' ->
  let '(mz, ez) := shl_align mx ex ex' in
  val (Z.pos mz) ez = val (Z.pos mx) ex /\ B <= ez /\ ez <= ex /\
  (ex' <= ex -> ez = ex').
Proof.
  intros Hex Hex'. unfold shl_align.
  destruct (ex' - ex) as [|d|d] eqn:Hd.
  - split; [reflexivity|]. lia.
  - split; [reflexivity|]. lia.
  - unfold Round.val. rewrite iter_xO.
    replace (ex - B) with (Z.pos d + (ex' - B)) by lia.
    rewrite pow2_split by lia. split; [ring|]. lia.
Qed.

Hypothesis HBmin : B <= emin.

Lemma binary_round_bounds (mx : positive) (ex : Z) (U : spec_float) :
  B <= ex -> ex <= emax - prec ->
  canonF U -> val (Z.pos mx) ex <= Fval U ->
  let r := binary_round prec emax false mx ex in
  fin r /\ Fval r <= Fval U /\
  (forall L, canonF L -> Fval L <= val (Z.pos mx) ex -> Fval L <= Fval r).
Proof.
  intros Hex Hfit HU Hle. cbv zeta. unfold binary_round.
  pose proof (fexp_emin (Z.pos (digits2_pos mx) + ex)) as Hmin.
  pose proof (shl_align_val mx ex (fexp (Z.pos (digits2_pos mx) + ex))
                Hex ltac:(lia)) as Hal.
  destruct (shl_align mx ex _) as [mz ez]. destruct Hal as (Hv & HBz & Hez & _).
  rewrite <- Hv in *.
  apply binary_round_aux_bounds; try assumption; lia.
Qed.

(** The product of two positive numbers. *)
Lemma mul_bounds (mx my : positive) (ex ey : Z) (U : spec_float) :
  B <= ex + ey -> ex + ey <= emax - prec ->
  canonF U -> val (Z.pos mx * Z.pos my) (ex + ey) <= Fval U ->
  let r := SFmul prec emax (S754_finite false mx ex) (S754_finite false my ey) in
  fin r /\ Fval r <= Fval U /\
  (forall L, canonF L -> Fval L <= val (Z.pos mx * Z.pos my) (ex + ey) ->
             Fval L <= Fval r).
Proof.
  intros HB Hfit HU Hle. cbv zeta. cbn [SFmul xorb].
  change (Z.pos (mx * my)) with (Z.pos mx * Z.pos my).
  apply binary_round_aux_bounds; try assumption; lia.
Qed.

(** The sum of two positive numbers. *)
Lemma add_bounds (mx my : positive) (ex ey : Z) (U : spec_float) :
  B <= ex -> B <= ey -> Z.min ex ey <= emax - prec ->
  canonF U -> val (Z.pos mx) ex + val (Z.pos my) ey <= Fval U ->
  let r := SFadd prec emax (S754_finite false mx ex) (S754_finite false my ey) in
  fin r /\ Fval r <= Fval U /\
  (forall L, canonF L -> Fval L <= val (Z.pos mx) ex + val (Z.pos my) ey ->
             Fval L <= Fval r).
Proof.
  intros Hex Hey Hfit HU Hle. cbv zeta. cbn [SFadd cond_Zopp].
  pose proof (shl_align_val mx ex (Z.min ex ey) Hex ltac:(lia)) as H1.
  pose proof (shl_align_val my ey (Z.min ex ey) Hey ltac:(lia)) as H2.
  destruct (shl_align mx ex _) as [m1 e1]. destruct (shl_align my ey _) as [m2 e2].
  destruct H1 as (Hv1 & _ & _ & He1). destruct H2 as (Hv2 & _ & _ & He2).
  specialize (He1 ltac:(lia)). specialize (He2 ltac:(lia)). subst e1 e2.
  cbn [fst]. change (Z.pos m1 + Z.pos m2) with (Z.pos (m1 + m2)).
  cbn [binary_normalize].
  assert (Hv : val (Z.pos (m1 + m2)) (Z.min ex ey)
               = val (Z.pos mx) ex + val (Z.pos my) ey).
  { rewrite <- Hv1, <- Hv2. unfold Round.val. rewrite Pos2Z.inj_add. ring. }
  rewrite <- Hv in *.
  apply binary_round_bounds; try assumption; lia.
Qed.

End Rounding.


(** ** The working temperature *)

Lemma clampTemp_not_lt (temp : float) : F32.lt (clampTemp temp) F32.zero = false.
Proof.
  unfold clampTemp. destruct (F32.lt temp F32.zero) eqn:E; [reflexivity|exact E].
Qed.

Lemma clampTemp_idem (temp : float) : clampTemp (clampTemp temp) = clampTemp temp.
Proof. unfold clampTemp at 1. rewrite clampTemp_not_lt. reflexivity. Qed.

Lemma clampTemp_not_negative (temp : float) : not_negative (clampTemp temp).
Proof.
  unfold clampTemp. destruct (F32.lt temp F32.zero) eqn:E; [exact I|].
  destruct temp as [s|[]| |[] m e]; cbn in *; try exact I; discriminate E.
Qed.

Lemma scaledTenths_nonneg (temp : float) (tempInt : Z) :
  scaledTenths (clampTemp temp) = Some tempInt -> 0 <= tempInt.
Proof.
  unfold scaledTenths. apply to_int_not_negative.
  change (F32.dec 5 10) with (S754_finite false 8388608 (-24)).
  apply add_not_negative.
  change (F32.of_Z 10) with (S754_finite false 10485760 (-20)).
  apply mul_not_negative, clampTemp_not_negative.
Qed.

Lemma wholeDeg_nonneg (temp : float) (whole : Z) :
  wholeDeg (clampTemp temp) = Some whole -> 0 <= whole.
Proof.
  unfold wholeDeg.
  destruct (scaledTenths (clampTemp temp)) as [tempInt|] eqn:E; [|discriminate].
  apply scaledTenths_nonneg in E.
  destruct (F32.ge _ _).
  - apply to_int_not_negative.
    change (F32.dec 5 10) with (S754_finite false 8388608 (-24)).
    apply add_not_negative, clampTemp_not_negative.
  - intros [= <-]. apply Z.quot_pos; lia.
Qed.

(** ** Binary32: the tenths of a temperature below 100 *)

Lemma ltb_finite (m m' : positive) (e e' : Z) :
  SFltb (S754_finite false m e) (S754_finite false m' e') = true <->
  e < e' \/ (e = e' /\ Z.pos m < Z.pos m').
Proof.
  unfold SFltb. cbn [SFcompare].
  destruct (Z.compare_spec e e') as [->|Hlt|Hgt].
  - change (PosDef.Pos.compare_cont Eq m m') with (Pos.compare m m').
    destruct (Pos.compare_spec m m') as [->|Hm|Hm]; split; intros H;
      try discriminate; try reflexivity; lia.
  - split; intros _; [lia|reflexivity].
  - split; intros H; [discriminate|lia].
Qed.

Lemma valid_finite (s : bool) (m : positive) (e : Z) :
  F32.valid (S754_finite s m e) = true ->
  -149 <= e <= 104 /\ Z.pos m < 2 ^ 24 /\
  canonical_mantissa F32.prec F32.emax m e = true.
Proof.
  unfold F32.valid, IEEE.valid. cbn [valid_binary]. unfold bounded.
  intros H. apply andb_true_iff in H as [Hc Hb].
  apply Z.leb_le in Hb. split; [|split; [|exact Hc]].
  - unfold canonical_mantissa in Hc. apply Z.eqb_eq in Hc.
    unfold fexp, emin, F32.prec, F32.emax in *. lia.
  - unfold canonical_mantissa in Hc. apply Z.eqb_eq in Hc.
    destruct (Zdigits2_bounds (Z.pos m) ltac:(lia)) as (_ & _ & Hhi).
    cbn [Zdigits2] in Hhi.
    assert (Hd : Z.pos (digits2_pos m) <= 24)
      by (unfold fexp, emin, F32.prec, F32.emax in *; lia).
    assert (2 ^ Z.pos (digits2_pos m) <= 2 ^ 24) by (apply Z.pow_le_mono_r; lia).
    lia.
Qed.

(** The cast of a number that is not negative, from its scaled value. *)
Lemma to_int_val (m : positive) (e : Z) :
  scale32 <= e ->
  Round.val scale32 (Z.pos m) e / 2 ^ (- scale32) <= Int.max_signed ->
  F32.to_int (S754_finite false m e) =
    Some (Round.val scale32 (Z.pos m) e / 2 ^ (- scale32)).
Proof.
  unfold scale32, Round.val. intros He Hmax.
  assert (Hsh : Z.shiftl (Z.pos m) e = Z.pos m * 2 ^ (e - -200) / 2 ^ (- -200)).
  { destruct (Z_le_gt_dec 0 e) as [Hpos|Hneg].
    - rewrite Z.shiftl_mul_pow2 by lia.
      replace (e - -200) with (e + 200) by lia.
      rewrite Z.pow_add_r, Z.mul_assoc by lia.
      symmetry. apply Z.div_mul. lia.
    - rewrite Z.shiftl_div_pow2 by lia.
      replace (- -200) with (- e + (e - -200)) by lia.
      rewrite (Z.pow_add_r 2 (- e) (e - -200)) by lia.
      symmetry. apply Z.div_mul_cancel_r.
      + pose proof (pow2_pos (- e)). lia.
      + pose proof (pow2_pos (e - -200)). lia. }
  unfold F32.to_int, IEEE.to_int. cbn [IEEE.trunc cond_Zopp]. rewrite Hsh.
  assert (H0 : 0 <= Z.pos m * 2 ^ (e - -200) / 2 ^ (- -200)).
  { apply Z.div_pos; [|lia]. pose proof (pow2_pos (e - -200)). nia. }
  unfold Int.in_range.
  rewrite (proj2 (Z.leb_le _ _)) by (unfold Int.min_signed, Int.wordsize; lia).
  rewrite (proj2 (Z.leb_le _ _)) by exact Hmax.
  reflexivity.
Qed.

Lemma canonF_pos (x : spec_float) :
  Round.canonF F32.prec F32.emax scale32 x -> 0 < Round.Fval scale32 x.
Proof.
  destruct x as [| | |[] m e]; cbn; try tauto.
  intros (_ & _ & He). unfold Round.val. pose proof (pow2_pos (e - scale32)). nia.
Qed.

(** [tempInt] is defined, and lies between the tenths of the numbers that
    bound the product and the sum. *)
Lemma scaledTenths_sandwich (m : positive) (e : Z) (U1 U2 : spec_float) :
  -149 <= e <= 104 ->
  Round.canonF F32.prec F32.emax scale32 U1 ->
  Round.canonF F32.prec F32.emax scale32 U2 ->
  Round.val scale32 (Z.pos m * 10485760) (e + -20) <= Round.Fval scale32 U1 ->
  Round.Fval scale32 U1 + Round.val scale32 8388608 (-24) <= Round.Fval scale32 U2 ->
  Round.Fval scale32 U2 / 2 ^ (- scale32) <= Int.max_signed ->
  exists tempInt,
    scaledTenths (S754_finite false m e) = Some tempInt /\
    0 <= tempInt <= Round.Fval scale32 U2 / 2 ^ (- scale32) /\
    (forall L1 L2,
       Round.canonF F32.prec F32.emax scale32 L1 ->
       Round.canonF F32.prec F32.emax scale32 L2 ->
       Round.Fval scale32 L1 <= Round.val scale32 (Z.pos m * 10485760) (e + -20) ->
       Round.Fval scale32 L2 <= Round.Fval scale32 L1 + Round.val scale32 8388608 (-24) ->
       Round.Fval scale32 L2 / 2 ^ (- scale32) <= tempInt).
Proof.
  intros He HU1 HU2 Hprod Hsum Hmax.
  assert (Hprec : 0 < F32.prec) by reflexivity.
  assert (Hmin : scale32 <= emin F32.prec F32.emax) by (vm_compute; discriminate).
  assert (H2 : 0 < 2 ^ (- scale32)) by reflexivity.
  pose proof (canonF_pos U2 HU2) as HU2pos.
  assert (HU2n : 0 <= Round.Fval scale32 U2 / 2 ^ (- scale32))
    by (apply Z.div_pos; lia).
  unfold scaledTenths.
  change (F32.of_Z 10) with (S754_finite false 10485760 (-20)).
  change (F32.dec 5 10) with (S754_finite false 8388608 (-24)).
  unfold F32.mul, F32.add.
  destruct (mul_bounds F32.prec F32.emax Hprec scale32 m 10485760 e (-20) U1
              ltac:(unfold scale32; lia) ltac:(unfold F32.emax, F32.prec; lia)
              HU1 Hprod) as (Hfin1 & Hle1 & HL1).
  destruct (SFmul F32.prec F32.emax _ _) as [s1| | |[] m1 e1]; cbn [Round.fin] in Hfin1;
    try contradiction.
  - (* the product rounds to zero *)
    exists 0. split; [reflexivity|]. split; [lia|].
    intros L1 L2 HcL1 _ HleL1 _. specialize (HL1 L1 HcL1 HleL1).
    pose proof (canonF_pos L1 HcL1). cbn [Round.Fval] in HL1. lia.
  - cbn [Round.Fval] in Hle1, HL1.
    destruct (add_bounds F32.prec F32.emax Hprec scale32 Hmin m1 8388608 e1 (-24) U2
                Hfin1 ltac:(unfold scale32; lia)
                ltac:(unfold F32.emax, F32.prec; lia) HU2 ltac:(lia))
      as (Hfin2 & Hle2 & HL2).
    destruct (SFadd F32.prec F32.emax _ _) as [s2| | |[] m2 e2];
      cbn [Round.fin] in Hfin2; try contradiction.
    + exists 0. split; [reflexivity|]. split; [lia|].
      intros L1 L2 HcL1 HcL2 HleL1 HleL2. specialize (HL1 L1 HcL1 HleL1).
      specialize (HL2 L2 HcL2 ltac:(lia)).
      pose proof (canonF_pos L2 HcL2). cbn [Round.Fval] in HL2. lia.
    + cbn [Round.Fval] in Hle2, HL2.
      assert (Hdiv : Round.val scale32 (Z.pos m2) e2 / 2 ^ (- scale32)
                     <= Round.Fval scale32 U2 / 2 ^ (- scale32))
        by (apply Z.div_le_mono; lia).
      exists (Round.val scale32 (Z.pos m2) e2 / 2 ^ (- scale32)).
      split; [apply to_int_val; lia|].
      split.
      * split; [|exact Hdiv]. apply Z.div_pos; [|lia].
        unfold Round.val. pose proof (pow2_pos (e2 - scale32)). nia.
      * intros L1 L2 HcL1 HcL2 HleL1 HleL2. specialize (HL1 L1 HcL1 HleL1).
        specialize (HL2 L2 HcL2 ltac:(lia)).
        apply Z.div_le_mono; lia.
Qed.

(** A number with a full mantissa is canonical. *)
Lemma canonF_normal (mf : positive) (ef : Z) :
  2 ^ 23 <= Z.pos mf < 2 ^ 24 -> -149 <= ef <= 104 ->
  Round.canonF F32.prec F32.emax scale32 (S754_finite false mf ef).
Proof.
  intros Hmf Hef.
  assert (Hd : Z.pos (digits2_pos mf) = 24).
  { destruct (Zdigits2_bounds (Z.pos mf) ltac:(lia)) as (_ & Hdlo & Hdhi).
    cbn [Zdigits2] in Hdlo, Hdhi.
    assert (H1 : 2 ^ (Z.pos (digits2_pos mf) - 1) < 2 ^ 24) by lia.
    assert (H2 : 2 ^ 23 < 2 ^ Z.pos (digits2_pos mf)) by lia.
    apply Z.pow_lt_mono_r_iff in H1; [|lia|lia].
    apply Z.pow_lt_mono_r_iff in H2; lia. }
  cbn [Round.canonF]. unfold canonical_mantissa, fexp, emin, F32.prec, F32.emax, scale32.
  rewrite Hd. split; [apply Z.eqb_eq|]; lia.
Qed.

(** The tenths of every number of the format that is not negative and is
    below 100: [tempInt] is defined and at most 1000; it is at most 999
    below 99.95 and exactly 1000 from 99.95 on. *)
Lemma scaledTenths_range (temp : float) :
  F32.valid temp = true ->
  F32.lt temp F32.zero = false ->
  F32.lt temp (F32.of_Z 100) = true ->
  exists tempInt,
    scaledTenths temp = Some tempInt /\
    0 <= tempInt <= 1000 /\
    (F32.lt temp f99_95 = true -> tempInt <= 999) /\
    (F32.lt temp f99_95 = false -> tempInt = 1000).
Proof.
  intros Hvalid Hnn Hlt.
  destruct temp as [s|[]| |[] m e]; try discriminate.
  - (* zero *)
    exists 0. split; [destruct s; reflexivity|]. split; [lia|].
    split; [lia|]. destruct s; discriminate.
  - (* a positive number *)
    apply valid_finite in Hvalid as (He & Hm & _).
    change (F32.of_Z 100) with (S754_finite false 13107200 (-17)) in Hlt.
    change f99_95 with (S754_finite false 13100646 (-17)).
    unfold F32.lt in *. apply ltb_finite in Hlt.
    assert (Hcanon : forall mf, 2 ^ 23 <= Z.pos mf < 2 ^ 24 ->
              Round.canonF F32.prec F32.emax scale32 (S754_finite false mf (-14)))
      by (intros mf Hmf; apply canonF_normal; [exact Hmf|lia]).
    assert (Hpow : e <= -18 -> 0 < 2 ^ (e + -20 - scale32) <= 2 ^ 162).
    { intros Hle. unfold scale32. split; [apply pow2_pos; lia|].
      apply Z.pow_le_mono_r; lia. }
    assert (H17 : 2 ^ (-17 + -20 - scale32) = 2 ^ 163) by reflexivity.
    (* below 100: at most 1000 *)
    destruct (scaledTenths_sandwich m e
                (S754_finite false 16384000 (-14)) (S754_finite false 16392192 (-14))
                He (Hcanon 16384000%positive ltac:(lia))
                (Hcanon 16392192%positive ltac:(lia)))
      as (tempInt & Hti & Hrange & Hlow).
    { cbn [Round.Fval]. unfold Round.val.
      change (2 ^ (-14 - scale32)) with (2 ^ 23 * 2 ^ 163).
      destruct Hlt as [Hlt|[-> Hlt]].
      - specialize (Hpow ltac:(lia)). change (2 ^ 163) with (2 * 2 ^ 162). nia.
      - rewrite H17. pose proof (pow2_pos 163). nia. }
    { vm_compute. discriminate. }
    { vm_compute. discriminate. }
    change (Round.Fval scale32 (S754_finite false 16392192 (-14)) / 2 ^ (- scale32))
      with 1000 in Hrange.
    exists tempInt. split; [exact Hti|]. split; [exact Hrange|]. split.
    + (* below 99.95: at most 999 *)
      intros Hc. apply ltb_finite in Hc.
      destruct (scaledTenths_sandwich m e
                  (S754_finite false 16375807 (-14)) (S754_finite false 16383999 (-14))
                  He (Hcanon 16375807%positive ltac:(lia))
                  (Hcanon 16383999%positive ltac:(lia)))
        as (tempInt' & Hti' & Hrange' & _).
      { cbn [Round.Fval]. unfold Round.val.
        change (2 ^ (-14 - scale32)) with (2 ^ 23 * 2 ^ 163).
        destruct Hc as [Hc|[-> Hc]].
        - specialize (Hpow ltac:(lia)). change (2 ^ 163) with (2 * 2 ^ 162). nia.
        - rewrite H17. pose proof (pow2_pos 163). nia. }
      { vm_compute. discriminate. }
      { vm_compute. discriminate. }
      change (Round.Fval scale32 (S754_finite false 16383999 (-14)) / 2 ^ (- scale32))
        with 999 in Hrange'.
      rewrite Hti in Hti'. injection Hti' as <-. lia.
    + (* from 99.95 on: at least 1000 *)
      intros Hc.
      assert (Hme : e = -17 /\ 13100646 <= Z.pos m).
      { destruct (Z_lt_le_dec e (-17)) as [Hl|Hl].
        - rewrite (proj2 (ltb_finite m 13100646 e (-17))) in Hc by lia. discriminate.
        - assert (e = -17) by lia. split; [assumption|]. subst e.
          destruct (Z_lt_le_dec (Z.pos m) 13100646) as [Hl'|Hl']; [|assumption].
          rewrite (proj2 (ltb_finite m 13100646 (-17) (-17))) in Hc by lia.
          discriminate. }
      destruct Hme as [-> Hm'].
      destruct (Z.eq_dec (Z.pos m) 13100646) as [Heq|Hne].
      * injection Heq as ->. vm_compute in Hti. congruence.
      * assert (Hge : 1000 <= tempInt); [|lia].
        change 1000 with
          (Round.Fval scale32 (S754_finite false 16384000 (-14)) / 2 ^ (- scale32)).
        apply (Hlow (S754_finite false 16375808 (-14)));
          try (apply Hcanon; lia).
        -- cbn [Round.Fval]. unfold Round.val.
           change (2 ^ (-14 - scale32)) with (2 ^ 23 * 2 ^ 163).
           rewrite H17. pose proof (pow2_pos 163). nia.
        -- vm_compute. discriminate.
Qed.

(** ** Binary32: no cast is undefined below 2 ^ 27 degrees *)

Lemma casts_defined (temp : float) :
  F32.valid temp = true ->
  F32.lt temp F32.zero = false ->
  F32.lt temp (F32.of_Z (2 ^ 27)) = true ->
  exists tempInt whole,
    scaledTenths temp = Some tempInt /\ wholeDeg temp = Some whole.
Proof.
  intros Hvalid Hnn Hlt.
  destruct temp as [s|[]| |[] m e]; try discriminate.
  - exists 0, 0. destruct s; split; reflexivity.
  - apply valid_finite in Hvalid as (He & Hm & _).
    change (F32.of_Z (2 ^ 27)) with (S754_finite false 8388608 4) in Hlt.
    unfold F32.lt in Hlt. apply ltb_finite in Hlt.
    assert (HV : Z.pos m * 2 ^ (e - scale32) < 2 ^ 227).
    { destruct Hlt as [Hlt|[-> Hlt]].
      - assert (0 < 2 ^ (e - scale32) <= 2 ^ 203).
        { unfold scale32. split; [apply pow2_pos; lia|].
          apply Z.pow_le_mono_r; lia. }
        change (2 ^ 227) with (2 ^ 24 * 2 ^ 203). nia.
      - change (2 ^ (4 - scale32)) with (2 ^ 204).
        change (2 ^ 227) with (2 ^ 23 * 2 ^ 204). lia. }
    clear Hlt.
    destruct (scaledTenths_sandwich m e
                (S754_finite false 10485760 7) (S754_finite false 10485761 7)
                He (canonF_normal 10485760 7 ltac:(lia) ltac:(lia))
                (canonF_normal 10485761 7 ltac:(lia) ltac:(lia)))
      as (tempInt & Hti & _).
    { cbn [Round.Fval]. unfold Round.val.
      replace (e + -20 - scale32) with (e - scale32 - 20) by lia.
      assert (H20 : 2 ^ (e - scale32) = 2 ^ (e - scale32 - 20) * 2 ^ 20).
      { rewrite <- Z.pow_add_r by (unfold scale32; lia). f_equal. lia. }
      assert (0 < 2 ^ (e - scale32 - 20)) by (apply pow2_pos; unfold scale32; lia).
      change (2 ^ (7 - scale32)) with (2 ^ 227 / 2 ^ 20).
      change (2 ^ 20) with 1048576 in *. change (2 ^ 227 / 1048576) with (2 ^ 207).
      change (2 ^ 227) with (2 ^ 207 * 1048576) in HV. nia. }
    { vm_compute. discriminate. }
    { vm_compute. discriminate. }
    exists tempInt. unfold wholeDeg. rewrite Hti.
    destruct (F32.ge _ _); [|eexists; split; reflexivity].
    change (F32.dec 5 10) with (S754_finite false 8388608 (-24)).
    unfold F32.add.
    destruct (add_bounds F32.prec F32.emax ltac:(reflexivity) scale32
                ltac:(vm_compute; discriminate) m 8388608 e (-24)
                (S754_finite false 8388609 4)
                ltac:(unfold scale32; lia) ltac:(unfold scale32; lia)
                ltac:(unfold F32.emax, F32.prec; lia)
                (canonF_normal 8388609 4 ltac:(lia) ltac:(lia)))
      as (Hfin & Hle & _).
    { cbn [Round.Fval]. unfold Round.val.
      change (2 ^ (4 - scale32)) with (2 ^ 204).
      change (2 ^ (-24 - scale32)) with (2 ^ 176).
      assert (2 ^ 176 <= 2 ^ 204) by (apply Z.pow_le_mono_r; lia).
      change (2 ^ 227) with (8388608 * 2 ^ 204) in HV. lia. }
    destruct (SFadd F32.prec F32.emax _ _) as [s2| | |[] m2 e2];
      cbn [Round.fin] in Hfin; try contradiction.
    + exists 0. split; reflexivity.
    + cbn [Round.Fval] in Hle. eexists. split; [reflexivity|].
      apply to_int_val; [exact Hfin|].
      etransitivity; [apply Z.div_le_mono; [reflexivity|exact Hle]|].
      vm_compute. discriminate.
Qed.

(** ** [dispTemp]: the run of the function *)

(** [dispTemp] fails exactly when a cast is undefined; otherwise it returns
    [whole >= 100] and leaves the cells as [render] writes them. *)
Lemma dispTemp_run tmpC tmpF isFer segsSel (c : SsegCore) :
  dispTemp tmpC tmpF isFer segsSel c =
    let temp := workingTemp tmpC tmpF isFer in
    match scaledTenths temp, wholeDeg temp with
    | Some tempInt, Some whole =>
        Some (100 <=? whole, render (posAdj_of segsSel) tempInt whole isFer c)
    | _, _ => None
    end.
Proof.
  unfold dispTemp, wholeDeg, scaledTenths, workingTemp, clampTemp, selectedTemp,
    render, posAdj_of, glyph.
  unfold mbind, Disp_bind, defined, call, mret, Disp_ret. cbv zeta.
  destruct (F32.to_int (F32.add (F32.mul _ _) _)) as [tempInt|]; [|reflexivity].
  destruct (F32.ge _ _).
  - destruct (F32.to_int _) as [whole|]; [|reflexivity].
    destruct (100 <=? whole), (10 <=? whole), (isFer =? 1); reflexivity.
  - destruct (100 <=? tempInt ÷ 10), (10 <=? tempInt ÷ 10), (isFer =? 1);
      reflexivity.
Qed.

Lemma posAdj_of_cases (segsSel : Z) : posAdj_of segsSel = 0 \/ posAdj_of segsSel = 4.
Proof. unfold posAdj_of. destruct (segsSel =? 1); auto. Qed.

(** A call on a number of the format below 2 ^ 27 returns. *)
Lemma dispTemp_returns tmpC tmpF isFer segsSel (c : SsegCore) :
  F32.valid (selectedTemp tmpC tmpF isFer) = true ->
  F32.lt (selectedTemp tmpC tmpF isFer) (F32.of_Z (2 ^ 27)) = true ->
  exists whole c',
    wholeDeg (workingTemp tmpC tmpF isFer) = Some whole /\
    dispTemp tmpC tmpF isFer segsSel c = Some (100 <=? whole, c').
Proof.
  intros Hvalid Hlt.
  assert (H : F32.valid (workingTemp tmpC tmpF isFer) = true /\
              F32.lt (workingTemp tmpC tmpF isFer) (F32.of_Z (2 ^ 27)) = true).
  { unfold workingTemp, clampTemp.
    destruct (F32.lt (selectedTemp tmpC tmpF isFer) F32.zero);
      [split; reflexivity|split; assumption]. }
  destruct H as [Hv Hl].
  destruct (casts_defined _ Hv (clampTemp_not_lt _) Hl) as (tempInt & whole & Hti & Hwh).
  exists whole, (render (posAdj_of segsSel) tempInt whole isFer c).
  split; [exact Hwh|].
  rewrite dispTemp_run. cbv zeta. rewrite Hti, Hwh. reflexivity.
Qed.

(** A decimal digit is its own pattern. *)
Lemma h2s_digit (x : Z) : 0 <= x -> h2s (Z.rem x 10) = Z.rem x 10.
Proof.
  intros Hx. pose proof (Z.rem_bound_pos x 10 Hx ltac:(lia)) as Hr.
  unfold h2s, Int.to_uint8. change 255 with (Z.ones 8).
  rewrite Z.land_ones by lia. change (2 ^ 8) with 256.
  rewrite Z.mod_mod by lia. apply Z.mod_small. lia.
Qed.

Lemma rem_10_digit (x : Z) : 0 <= x -> 0 <= Z.rem x 10 <= 9.
Proof. intros Hx. pose proof (Z.rem_bound_pos x 10 Hx ltac:(lia)). lia. Qed.

Lemma h2s_glyph (isFer : Z) : h2s (glyph isFer) = glyph isFer.
Proof. unfold glyph. destruct (isFer =? 1); reflexivity. Qed.

Section Render.

Variables (posAdj tempInt whole isFer : Z) (c : SsegCore).
Hypothesis Hlen : length (digit c) = 8%nat.
Hypothesis HposAdj : posAdj = 0 \/ posAdj = 4.

Let c' := render posAdj tempInt whole isFer c.

Ltac cells :=
  subst c'; unfold render; cbv zeta;
  destruct (100 <=? whole);
  rewrite ?cell_write_1ptn, ?length_write_1ptn, ?Hlen;
  destruct HposAdj as [-> | ->].

Lemma render_length : length (digit c') = 8%nat.
Proof.
  subst c'. unfold render. cbv zeta.
  destruct (100 <=? whole); rewrite !length_write_1ptn; exact Hlen.
Qed.

Lemma render_dp : dp c' = dp c.
Proof.
  subst c'. unfold render. cbv zeta.
  destruct (100 <=? whole); rewrite !dp_write_1ptn; reflexivity.
Qed.

Lemma render_frame (q : Z) :
  q < posAdj \/ posAdj + 3 < q -> cell c' q = cell c q.
Proof.
  intros Hq. cells;
    rewrite !(proj2 (Z.eqb_neq q _)) by lia;
    rewrite !andb_false_r; reflexivity.
Qed.

Lemma render_cell_0 : cell c' (0 + posAdj) = Some (glyph isFer).
Proof. cells; rewrite h2s_glyph; reflexivity. Qed.

Lemma render_cell_1 :
  cell c' (1 + posAdj) =
    Some (h2s (if 100 <=? whole then Z.rem whole 10 else Z.rem tempInt 10)).
Proof. cells; reflexivity. Qed.

Lemma render_cell_2 :
  cell c' (2 + posAdj) =
    Some (h2s (if 100 <=? whole then Z.rem (whole ÷ 10) 10 else Z.rem whole 10)).
Proof. cells; reflexivity. Qed.

Lemma render_cell_3 :
  cell c' (3 + posAdj) =
    Some (if 100 <=? whole then h2s (Z.rem (whole ÷ 100) 10)
          else if 10 <=? whole then h2s (Z.rem (whole ÷ 10) 10) else BLANK).
Proof. cells; reflexivity. Qed.

End Render.

(** ** [dispTemp]: the statements of the specification *)

(** C1, counterexample: 99.95 is below 100, its tenths round to 1000 and
    [whole] is 100, so position 3 holds the hundreds digit 1 and not the
    tens digit 0. *)
Lemma dispTemp_below_100_counterexample : ~ dispTemp_below_100_as_specified.
Proof.
  intros H.
  destruct (H f99_95 F32.zero 0 0 cleared eq_refl eq_refl eq_refl)
    as (tempInt & b & c' & Hti & Hrun & _ & _ & H3).
  vm_compute in Hti. injection Hti as <-.
  vm_compute in Hrun. injection Hrun as <- <-.
  vm_compute in H3. discriminate H3.
Qed.

(** Whenever [whole = tempInt / 10] is below 100 for a temperature below
    100, [dispTemp] returns false and shows tens or BLANK, ones, tenths. *)
Lemma dispTemp_two_digits tmpC tmpF isFer segsSel (c : SsegCore) tempInt :
  length (digit c) = 8%nat ->
  let temp := workingTemp tmpC tmpF isFer in
  let posAdj := posAdj_of segsSel in
  let whole := tempInt ÷ 10 in
  F32.lt temp (F32.of_Z 100) = true ->
  scaledTenths temp = Some tempInt ->
  whole < 100 ->
  0 <= tempInt /\ 0 <= whole /\
  exists c',
    dispTemp tmpC tmpF isFer segsSel c = Some (false, c') /\
    cell c' (2 + posAdj) = Some (Z.rem whole 10) /\
    cell c' (1 + posAdj) = Some (Z.rem tempInt 10) /\
    cell c' (3 + posAdj) =
      Some (if 10 <=? whole then Z.rem (whole ÷ 10) 10 else BLANK) /\
    cell c' (0 + posAdj) = Some (glyph isFer).
Proof.
  intros Hlen temp posAdj whole Hlt Hti Hw.
  assert (H0 : 0 <= tempInt) by (apply (scaledTenths_nonneg _ _ Hti)).
  assert (H1 : 0 <= whole) by (apply Z.quot_pos; lia).
  split; [exact H0|]. split; [exact H1|].
  assert (Hwhole : wholeDeg temp = Some whole).
  { unfold wholeDeg. rewrite Hti, (lt_not_ge _ _ Hlt). reflexivity. }
  assert (Hflag : (100 <=? whole) = false) by (apply Z.leb_gt; exact Hw).
  exists (render posAdj tempInt whole isFer c).
  rewrite dispTemp_run. cbv zeta. fold temp. rewrite Hti, Hwhole, Hflag.
  pose proof (posAdj_of_cases segsSel) as Hp. fold posAdj in Hp |- *.
  split; [reflexivity|].
  rewrite render_cell_2, render_cell_1, render_cell_3, render_cell_0, Hflag
    by assumption.
  rewrite !h2s_digit by (try apply Z.quot_pos; lia).
  repeat split.
Qed.

Lemma lt_99_95_lt_100 (temp : float) :
  F32.lt temp F32.zero = false -> F32.lt temp f99_95 = true ->
  F32.lt temp (F32.of_Z 100) = true.
Proof.
  change f99_95 with (S754_finite false 13100646 (-17)).
  change (F32.of_Z 100) with (S754_finite false 13107200 (-17)).
  destruct temp as [s|[]| |[] m e]; try discriminate; try reflexivity.
  unfold F32.lt. intros _ H. apply ltb_finite in H. apply ltb_finite. lia.
Qed.

(** C1, amended. For every selected temperature that, after the negative
    clamp, is strictly below 99.95 (the binary32 number nearest to it),
    [dispTemp] returns false and its half holds: at position 2 the ones
    digit of [whole = tempInt / 10], at position 1 the tenths digit
    [tempInt mod 10], at position 3 the tens digit when [whole >= 10] and
    BLANK (0xFF) otherwise, at position 0 the unit glyph; [tempInt] is at
    most 999.  From 99.95 up to 100, [tempInt] is 1000, [whole] is 100 and
    the call returns true with 1, 0, 0 at positions 3, 2, 1. *)
Theorem dispTemp_below_99_95 tmpC tmpF isFer segsSel (c : SsegCore) :
  length (digit c) = 8%nat ->
  let temp := workingTemp tmpC tmpF isFer in
  let posAdj := posAdj_of segsSel in
  F32.valid temp = true ->
  (F32.lt temp f99_95 = true ->
   exists tempInt c',
     scaledTenths temp = Some tempInt /\ 0 <= tempInt <= 999 /\
     dispTemp tmpC tmpF isFer segsSel c = Some (false, c') /\
     let whole := tempInt ÷ 10 in
     cell c' (2 + posAdj) = Some (Z.rem whole 10) /\
     cell c' (1 + posAdj) = Some (Z.rem tempInt 10) /\
     cell c' (3 + posAdj) =
       Some (if 10 <=? whole then Z.rem (whole ÷ 10) 10 else BLANK) /\
     cell c' (0 + posAdj) = Some (glyph isFer)) /\
  (F32.lt temp f99_95 = false -> F32.lt temp (F32.of_Z 100) = true ->
   exists c',
     scaledTenths temp = Some 1000 /\ wholeDeg temp = Some 100 /\
     dispTemp tmpC tmpF isFer segsSel c = Some (true, c') /\
     cell c' (3 + posAdj) = Some 1 /\ cell c' (2 + posAdj) = Some 0 /\
     cell c' (1 + posAdj) = Some 0 /\ cell c' (0 + posAdj) = Some (glyph isFer)).
Proof.
  intros Hlen temp posAdj Hvalid.
  assert (Hnn : F32.lt temp F32.zero = false) by apply clampTemp_not_lt.
  split.
  - intros Hc.
    pose proof (lt_99_95_lt_100 temp Hnn Hc) as Hlt.
    destruct (scaledTenths_range temp Hvalid Hnn Hlt) as (tempInt & Hti & Hr & Hlo & _).
    specialize (Hlo Hc).
    assert (Hw : tempInt ÷ 10 < 100).
    { apply Z.quot_lt_upper_bound; lia. }
    destruct (dispTemp_two_digits tmpC tmpF isFer segsSel c tempInt Hlen Hlt Hti Hw)
      as (_ & _ & c' & Hrun & Hcells).
    exists tempInt, c'. split; [exact Hti|]. split; [lia|]. split; [exact Hrun|].
    exact Hcells.
  - intros Hc Hlt.
    destruct (scaledTenths_range temp Hvalid Hnn Hlt) as (tempInt & Hti & _ & _ & Hhi).
    specialize (Hhi Hc). subst tempInt.
    assert (Hwh : wholeDeg temp = Some 100).
    { unfold wholeDeg. rewrite Hti, (lt_not_ge _ _ Hlt). reflexivity. }
    pose proof (posAdj_of_cases segsSel) as Hp. fold posAdj in Hp.
    exists (render posAdj 1000 100 isFer c).
    split; [exact Hti|]. split; [exact Hwh|].
    rewrite dispTemp_run. cbv zeta. fold temp posAdj. rewrite Hti, Hwh.
    split; [reflexivity|].
    rewrite render_cell_3, render_cell_2, render_cell_1, render_cell_0
      by assumption.
    repeat split.
Qed.

(** The repository's first test: 9.76 in Celsius mode on the interior half
    shows BLANK, 9, 8 and the C glyph, and returns false. *)
Lemma dispTemp_below_99_95_witness :
  length (digit cleared) = 8%nat /\
  F32.valid (workingTemp f9_76 (cel2fer f9_76) 0) = true /\
  F32.lt (workingTemp f9_76 (cel2fer f9_76) 0) f99_95 = true /\
  exists c',
    dispTemp f9_76 (cel2fer f9_76) 0 1 cleared = Some (false, c') /\
    cell c' 6 = Some 9 /\ cell c' 5 = Some 8 /\
    cell c' 7 = Some 255 /\ cell c' 4 = Some 12.
Proof.
  assert (Hlen : length (digit cleared) = 8%nat) by reflexivity.
  assert (Hvalid : F32.valid (workingTemp f9_76 (cel2fer f9_76) 0) = true)
    by reflexivity.
  assert (Hlt : F32.lt (workingTemp f9_76 (cel2fer f9_76) 0) f99_95 = true)
    by reflexivity.
  repeat (split; [assumption|]).
  destruct (proj1 (dispTemp_below_99_95 f9_76 (cel2fer f9_76) 0 1 cleared Hlen Hvalid)
              Hlt) as (tempInt & c' & Hti & _ & Hrun & Hcells).
  assert (Hte : tempInt = 98) by (vm_compute in Hti; congruence).
  subst tempInt. exists c'. split; [exact Hrun|]. exact Hcells.
Defined.

(** C3. In binary32 arithmetic a selected temperature of 99.95 is below
    100, yet [tempInt = (int)(temp * 10 + 0.5)] is 1000 and [whole] is 100:
    [dispTemp] returns true and shows 1, 0, 0 at positions 3, 2, 1, no
    tenths digit, and the unit glyph at position 0. *)
Theorem dispTemp_99_95 tmpC tmpF isFer segsSel (c : SsegCore) :
  length (digit c) = 8%nat ->
  selectedTemp tmpC tmpF isFer = f99_95 ->
  let temp := workingTemp tmpC tmpF isFer in
  let posAdj := posAdj_of segsSel in
  F32.lt temp (F32.of_Z 100) = true /\
  scaledTenths temp = Some 1000 /\
  wholeDeg temp = Some 100 /\
  exists c',
    dispTemp tmpC tmpF isFer segsSel c = Some (true, c') /\
    cell c' (3 + posAdj) = Some 1 /\
    cell c' (2 + posAdj) = Some 0 /\
    cell c' (1 + posAdj) = Some 0 /\
    cell c' (0 + posAdj) = Some (glyph isFer).
Proof.
  intros Hlen Hsel temp posAdj.
  assert (Htemp : temp = f99_95)
    by (subst temp; unfold workingTemp; rewrite Hsel; reflexivity).
  assert (Hti : scaledTenths temp = Some 1000)
    by (rewrite Htemp; vm_compute; reflexivity).
  assert (Hwh : wholeDeg temp = Some 100)
    by (rewrite Htemp; vm_compute; reflexivity).
  split; [rewrite Htemp; vm_compute; reflexivity|].
  split; [exact Hti|]. split; [exact Hwh|].
  pose proof (posAdj_of_cases segsSel) as Hp. fold posAdj in Hp.
  exists (render posAdj 1000 100 isFer c).
  rewrite dispTemp_run. cbv zeta. fold temp posAdj. rewrite Hti, Hwh.
  split; [reflexivity|].
  rewrite render_cell_3, render_cell_2, render_cell_1, render_cell_0
    by assumption.
  repeat split.
Qed.

Lemma dispTemp_99_95_witness :
  length (digit cleared) = 8%nat /\
  selectedTemp f99_95 (cel2fer f99_95) 0 = f99_95 /\
  exists c',
    dispTemp f99_95 (cel2fer f99_95) 0 0 cleared = Some (true, c') /\
    cell c' 3 = Some 1 /\ cell c' 2 = Some 0 /\ cell c' 1 = Some 0 /\
    cell c' 0 = Some 12.
Proof.
  split; [reflexivity|]. split; [reflexivity|].
  exact (proj2 (proj2 (proj2
    (dispTemp_99_95 f99_95 (cel2fer f99_95) 0 0 cleared eq_refl eq_refl)))).
Defined.

(** C5. A call of [dispTemp] writes its four cells, positions [posAdj + 0]
    to [posAdj + 3], and nothing else: every other cell (so the four cells
    of the other half) and the decimal-point mask keep their values, and
    the four cells of its half end with values that do not depend on what
    the display held before; position 3 in particular always ends as a
    decimal digit or as BLANK.  This holds of every call that returns, and
    a call on a selected temperature of the format below 2 ^ 27 returns. *)
Theorem dispTemp_frame tmpC tmpF isFer segsSel (c : SsegCore) :
  length (digit c) = 8%nat ->
  let posAdj := posAdj_of segsSel in
  (forall b c', dispTemp tmpC tmpF isFer segsSel c = Some (b, c') ->
     (forall q, q < posAdj \/ posAdj + 3 < q -> cell c' q = cell c q) /\
     dp c' = dp c /\
     length (digit c') = 8%nat /\
     (exists v0 v1 v2 v3,
        cell c' (0 + posAdj) = Some v0 /\ cell c' (1 + posAdj) = Some v1 /\
        cell c' (2 + posAdj) = Some v2 /\ cell c' (3 + posAdj) = Some v3 /\
        (v3 = BLANK \/ 0 <= v3 <= 9) /\
        forall c0 : SsegCore, length (digit c0) = 8%nat ->
          exists c0',
            dispTemp tmpC tmpF isFer segsSel c0 = Some (b, c0') /\
            cell c0' (0 + posAdj) = Some v0 /\ cell c0' (1 + posAdj) = Some v1 /\
            cell c0' (2 + posAdj) = Some v2 /\ cell c0' (3 + posAdj) = Some v3)) /\
  (F32.valid (selectedTemp tmpC tmpF isFer) = true ->
   F32.lt (selectedTemp tmpC tmpF isFer) (F32.of_Z (2 ^ 27)) = true ->
   exists b c', dispTemp tmpC tmpF isFer segsSel c = Some (b, c')).
Proof.
  intros Hlen posAdj.
  pose proof (posAdj_of_cases segsSel) as Hp. fold posAdj in Hp.
  split.
  - intros b c' Hrun.
    rewrite dispTemp_run in Hrun. cbv zeta in Hrun. fold posAdj in Hrun.
    destruct (scaledTenths _) as [tempInt|] eqn:Hti; [|discriminate].
    destruct (wholeDeg _) as [whole|] eqn:Hwh; [|discriminate].
    injection Hrun as <- <-.
    assert (H0 : 0 <= whole) by (apply (wholeDeg_nonneg _ _ Hwh)).
    split; [intros q Hq; apply render_frame; assumption|].
    split; [apply render_dp|].
    split; [apply render_length; assumption|].
    do 4 eexists.
    split; [apply render_cell_0; assumption|].
    split; [apply render_cell_1; assumption|].
    split; [apply render_cell_2; assumption|].
    split; [apply render_cell_3; assumption|].
    split.
    + destruct (100 <=? whole); [|destruct (10 <=? whole)];
        [right|right|left; reflexivity];
        rewrite h2s_digit by (apply Z.quot_pos; lia);
        apply rem_10_digit, Z.quot_pos; lia.
    + intros c0 Hlen0. exists (render posAdj tempInt whole isFer c0).
      rewrite dispTemp_run. cbv zeta. fold posAdj. rewrite Hti, Hwh.
      split; [reflexivity|].
      split; [apply render_cell_0; assumption|].
      split; [apply render_cell_1; assumption|].
      split; [apply render_cell_2; assumption|].
      apply render_cell_3; assumption.
  - intros Hvalid Hlt.
    destruct (dispTemp_returns tmpC tmpF isFer segsSel c Hvalid Hlt)
      as (whole & c' & _ & Hrun).
    exists (100 <=? whole), c'. exact Hrun.
Qed.

(** On a display that holds 7 in every cell and mask 0x44, the exterior
    render of 9.76 leaves cells 4-7 and the mask, and blanks cell 3. *)
Lemma dispTemp_frame_witness :
  let c := {| digit := replicate 8 7; dp := 68 |} in
  length (digit c) = 8%nat /\
  exists c',
    dispTemp f9_76 (cel2fer f9_76) 0 0 c = Some (false, c') /\
    cell c' 4 = Some 7 /\ cell c' 7 = Some 7 /\ dp c' = 68 /\
    cell c' 3 = Some BLANK.
Proof.
  intros c. split; [reflexivity|].
  pose (c' := {| digit := [12; 8; 9; 255; 7; 7; 7; 7]; dp := 68 |}).
  assert (Hrun : dispTemp f9_76 (cel2fer f9_76) 0 0 c = Some (false, c'))
    by (vm_compute; reflexivity).
  exists c'. split; [exact Hrun|].
  destruct (proj1 (dispTemp_frame f9_76 (cel2fer f9_76) 0 0 c eq_refl) false c' Hrun)
    as (Hframe & Hdp & _ & _).
  split; [apply (Hframe 4); right; reflexivity|].
  split; [apply (Hframe 7); right; reflexivity|].
  split; [exact Hdp|]. reflexivity.
Defined.

(** C6. [dispTemp] never decomposes a negative value: the working
    temperature is not below 0 and [tempInt] and [whole] are not negative.
    When the selected temperature is negative the working temperature is
    0, the call returns false and its half shows BLANK, 0, 0 and the unit
    glyph at positions 3, 2, 1, 0. *)
Theorem dispTemp_negative_clamp tmpC tmpF isFer segsSel (c : SsegCore) :
  let temp := workingTemp tmpC tmpF isFer in
  let posAdj := posAdj_of segsSel in
  (F32.lt temp F32.zero = false /\
   (forall tempInt, scaledTenths temp = Some tempInt -> 0 <= tempInt) /\
   (forall whole, wholeDeg temp = Some whole -> 0 <= whole)) /\
  (length (digit c) = 8%nat ->
   F32.lt (selectedTemp tmpC tmpF isFer) F32.zero = true ->
   temp = F32.zero /\
   scaledTenths temp = Some 0 /\
   wholeDeg temp = Some 0 /\
   exists c',
     dispTemp tmpC tmpF isFer segsSel c = Some (false, c') /\
     cell c' (3 + posAdj) = Some BLANK /\
     cell c' (2 + posAdj) = Some 0 /\
     cell c' (1 + posAdj) = Some 0 /\
     cell c' (0 + posAdj) = Some (glyph isFer)).
Proof.
  intros temp posAdj. split.
  - split; [apply clampTemp_not_lt|]. split.
    + intros tempInt. apply scaledTenths_nonneg.
    + intros whole. apply wholeDeg_nonneg.
  - intros Hlen Hneg.
    assert (Htemp : temp = F32.zero)
      by (subst temp; unfold workingTemp, clampTemp; rewrite Hneg; reflexivity).
    split; [exact Htemp|].
    assert (Hti : scaledTenths temp = Some 0) by (rewrite Htemp; reflexivity).
    assert (Hwh : wholeDeg temp = Some 0) by (rewrite Htemp; reflexivity).
    split; [exact Hti|]. split; [exact Hwh|].
    pose proof (posAdj_of_cases segsSel) as Hp. fold posAdj in Hp.
    exists (render posAdj 0 0 isFer c).
    rewrite dispTemp_run. cbv zeta. fold temp posAdj. rewrite Hti, Hwh.
    split; [reflexivity|].
    rewrite render_cell_3, render_cell_2, render_cell_1, render_cell_0
      by assumption.
    repeat split.
Qed.

(** The repository's ninth test: -5.32 in Celsius mode on the interior
    half. *)
Lemma dispTemp_negative_clamp_witness :
  length (digit cleared) = 8%nat /\
  F32.lt (selectedTemp fm5_32 (cel2fer fm5_32) 0) F32.zero = true /\
  exists c',
    dispTemp fm5_32 (cel2fer fm5_32) 0 1 cleared = Some (false, c') /\
    cell c' 7 = Some 255 /\ cell c' 6 = Some 0 /\ cell c' 5 = Some 0 /\
    cell c' 4 = Some 12.
Proof.
  split; [reflexivity|]. split; [reflexivity|].
  exact (proj2 (proj2 (proj2
    (proj2 (dispTemp_negative_clamp fm5_32 (cel2fer fm5_32) 0 1 cleared)
       eq_refl eq_refl)))).
Defined.

(** C7. [dispTemp] depends on the selected temperature only: with
    [isFer = 1] the Celsius argument has no influence on the cells written
    or on the value returned, and with any other [isFer] the Fahrenheit
    argument has none; so the clamp acts on the selected value alone, and a
    negative value that is not selected changes nothing. *)
Theorem dispTemp_selected_only (tmpC tmpC' tmpF tmpF' : float) (isFer segsSel : Z)
    (c : SsegCore) :
  dispTemp tmpC tmpF 1 segsSel c = dispTemp tmpC' tmpF 1 segsSel c /\
  (isFer <> 1 ->
   dispTemp tmpC tmpF isFer segsSel c = dispTemp tmpC tmpF' isFer segsSel c) /\
  dispTemp tmpC tmpF isFer segsSel c =
    dispTemp (workingTemp tmpC tmpF isFer) (workingTemp tmpC tmpF isFer)
      isFer segsSel c.
Proof.
  split; [|split].
  - rewrite !dispTemp_run. reflexivity.
  - intros Hne. rewrite !dispTemp_run. unfold workingTemp, selectedTemp.
    apply Z.eqb_neq in Hne. rewrite Hne. reflexivity.
  - rewrite !dispTemp_run. cbv zeta.
    assert (H : workingTemp (workingTemp tmpC tmpF isFer)
                  (workingTemp tmpC tmpF isFer) isFer
                = workingTemp tmpC tmpF isFer); [|rewrite H; reflexivity].
    unfold workingTemp at 1. unfold selectedTemp at 1.
    destruct (isFer =? 1); apply clampTemp_idem.
Qed.

(** The repository's tenth test: -5.32 Celsius is 22.4 Fahrenheit; in
    Fahrenheit mode the display shows 22.4 whatever the Celsius value. *)
Lemma dispTemp_selected_only_witness :
  0 <> 1 /\
  dispTemp fm5_32 (cel2fer fm5_32) 1 1 cleared =
    dispTemp f9_76 (cel2fer fm5_32) 1 1 cleared /\
  dispTemp fm5_32 (cel2fer fm5_32) 0 1 cleared =
    dispTemp fm5_32 f9_76 0 1 cleared.
Proof.
  assert (Hne : 0 <> 1) by discriminate.
  split; [exact Hne|]. split.
  - exact (proj1 (dispTemp_selected_only fm5_32 f9_76 (cel2fer fm5_32)
                    (cel2fer fm5_32) 1 1 cleared)).
  - exact (proj1 (proj2 (dispTemp_selected_only fm5_32 fm5_32 (cel2fer fm5_32)
                    f9_76 0 1 cleared)) Hne).
Defined.


(** * The rest of the program *)

(** ** Switches and LEDs *)

Lemma testbit_127 (n : Z) : 0 <= n -> Z.testbit 127 n = (n <? 7).
Proof.
  intros Hn. change 127 with (Z.ones 7). destruct (n <? 7) eqn:E.
  - apply Z.ones_spec_low. apply Z.ltb_lt in E. lia.
  - apply Z.ones_spec_high. apply Z.ltb_ge in E. lia.
Qed.

Lemma Gpi_read_testbit (sw_p : GpiCore) (n : Z) :
  0 <= n < 32 -> Z.testbit (Gpi_read sw_p) n = Z.testbit (sw sw_p) n.
Proof. intros Hn. apply to_int_testbit. unfold Int.wordsize. lia. Qed.

(** Every [segsSel] other than 1 reads the exterior field. *)
Lemma getTempLimit_exterior (sw_p : GpiCore) (segsSel : Z) :
  segsSel <> 1 -> getTempLimit sw_p segsSel = Z.land (sw sw_p) 127.
Proof.
  intros Hs. unfold getTempLimit. cbv zeta.
  rewrite (proj2 (Z.eqb_neq segsSel 1) Hs).
  apply Z.bits_inj'. intros n Hn. rewrite !Z.land_spec, testbit_127 by lia.
  destruct (n <? 7) eqn:E; [|now rewrite !andb_false_r].
  apply Z.ltb_lt in E. rewrite Gpi_read_testbit by lia. reflexivity.
Qed.

Lemma getTempLimit_interior (sw_p : GpiCore) :
  getTempLimit sw_p 1 = Z.land (Z.shiftr (sw sw_p) 8) 127.
Proof.
  unfold getTempLimit. cbn [Z.eqb Pos.eqb]. cbv zeta.
  apply Z.bits_inj'. intros n Hn.
  rewrite !Z.land_spec, !Z.shiftr_spec, testbit_127 by lia.
  destruct (n <? 7) eqn:E; [|now rewrite !andb_false_r].
  apply Z.ltb_lt in E. rewrite Gpi_read_testbit by lia. reflexivity.
Qed.

(** The word that [dispTempLimit] writes, for every pair of [int]. *)
Lemma dispTempLimit_word (lowerLim upperLim : Z) (led_p : GpoCore) :
  ledOutput (dispTempLimit lowerLim upperLim led_p) =
    Z.lor (Z.land lowerLim 127) (Z.shiftl (Z.land upperLim 127) 8).
Proof.
  unfold dispTempLimit, Gpo_write, ledOutput. cbv zeta. rewrite Z.lor_0_l.
  unfold Int.to_uint32. apply Z.mod_small.
  pose proof (land_127_range lowerLim) as Ha.
  pose proof (land_127_range upperLim) as Hb.
  remember (Z.land lowerLim 127) as a. remember (Z.land upperLim 127) as b.
  assert (Hsh : Z.shiftl b 8 = b * 2 ^ 8) by (apply Z.shiftl_mul_pow2; lia).
  assert (Hnn : 0 <= Z.lor a (Z.shiftl b 8))
    by (apply Z.lor_nonneg; split; [|rewrite Z.shiftl_nonneg]; lia).
  split; [exact Hnn|].
  destruct (Z.eq_dec (Z.lor a (Z.shiftl b 8)) 0) as [->|Hnz];
    [unfold Int.modulus, Int.wordsize; lia|].
  apply Z.log2_lt_cancel.
  rewrite Z.log2_lor by (try rewrite Z.shiftl_nonneg; lia).
  unfold Int.modulus, Int.wordsize. rewrite Z.log2_pow2 by lia.
  assert (Z.log2 a < 7).
  { destruct (Z.eq_dec a 0) as [->|]; [vm_compute; reflexivity|].
    apply Z.log2_lt_pow2; lia. }
  assert (Z.log2 (Z.shiftl b 8) < 15).
  { destruct (Z.eq_dec b 0) as [->|]; [vm_compute; reflexivity|].
    apply Z.log2_lt_pow2; rewrite Hsh; lia. }
  lia.
Qed.

Lemma testbit_limit_mask (n : Z) :
  0 <= n -> Z.testbit 32639 n = (n <? 7) || ((8 <=? n) && (n <? 15)).
Proof.
  intros Hn. change 32639 with (Z.lor 127 (Z.shiftl 127 8)).
  rewrite Z.lor_spec, Z.shiftl_spec, testbit_127 by lia.
  destruct (Z_lt_le_dec n 8) as [H8|H8].
  - rewrite (Z.testbit_neg_r 127 (n - 8)) by lia.
    rewrite (proj2 (Z.leb_gt 8 n)) by lia. reflexivity.
  - rewrite testbit_127 by lia.
    rewrite (proj2 (Z.leb_le 8 n)) by lia.
    rewrite (proj2 (Z.ltb_ge n 7)) by lia. cbn [orb andb].
    destruct (n - 8 <? 7) eqn:E1, (n <? 15) eqn:E2; try reflexivity;
      [apply Z.ltb_lt in E1; apply Z.ltb_ge in E2|
       apply Z.ltb_ge in E1; apply Z.ltb_lt in E2]; lia.
Qed.

(** X1. In the loop of [main] the LEDs mirror the switches: whatever the
    switch word, the LED word is the switch word with the two limit fields
    kept (bits 0-6 and 8-14) and every other bit, the two format switches
    among them, cleared. *)
Theorem main_led_mirror (sw_p : GpiCore) (intTempC extTempC : float)
    (b b' : Board) :
  main_loop sw_p intTempC extTempC b = Some b' ->
  ledOutput (led b') = Z.land (sw sw_p) 32639.
Proof.
  unfold main_loop. cbv zeta.
  destruct (main_display _ _ _ _ _) as [[u sseg']|]; [|discriminate].
  intros [= <-]. cbn [led].
  rewrite dispTempLimit_word, getTempLimit_exterior, getTempLimit_interior
    by discriminate.
  apply Z.bits_inj'. intros n Hn.
  rewrite Z.lor_spec, !Z.land_spec, testbit_limit_mask, testbit_127 by lia.
  destruct (Z_lt_le_dec n 8) as [H8|H8].
  - rewrite Z.shiftl_spec, (Z.testbit_neg_r _ (n - 8)) by lia.
    rewrite (proj2 (Z.leb_gt 8 n)) by lia.
    destruct (n <? 7), (Z.testbit (sw sw_p) n); reflexivity.
  - rewrite Z.shiftl_spec, !Z.land_spec, Z.shiftr_spec, testbit_127 by lia.
    replace (n - 8 + 8) with n by lia.
    rewrite (proj2 (Z.leb_le 8 n)) by lia.
    rewrite (proj2 (Z.ltb_ge n 7)) by lia.
    assert (E : (n - 8 <? 7) = (n <? 15)).
    { destruct (n - 8 <? 7) eqn:E1, (n <? 15) eqn:E2; try reflexivity;
        [apply Z.ltb_lt in E1; apply Z.ltb_ge in E2|
         apply Z.ltb_ge in E1; apply Z.ltb_lt in E2]; lia. }
    rewrite E. destruct (n <? 15), (Z.testbit (sw sw_p) n); reflexivity.
Qed.

(** A turn with both format switches up, limits 0x34 and 0x34. *)
Lemma main_led_mirror_witness :
  exists b',
    main_loop (Gpi_set 46260) f9_76 fm5_32 Board_init = Some b' /\
    ledOutput (led b') = 13364.
Proof.
  assert (H : exists b', main_loop (Gpi_set 46260) f9_76 fm5_32 Board_init = Some b')
    by (eexists; vm_compute; reflexivity).
  destruct H as [b' Hrun]. exists b'. split; [exact Hrun|].
  exact (main_led_mirror (Gpi_set 46260) f9_76 fm5_32 Board_init b' Hrun).
Defined.

Lemma land_1_b2z (z : Z) : Z.land z 1 = Z.b2z (Z.testbit z 0).
Proof.
  change 1 with (Z.ones 1) at 1. rewrite Z.land_ones by lia.
  change (2 ^ 1) with 2. symmetry. apply Z.bit0_mod.
Qed.

Lemma getTempFormat_bit (sw_p : GpiCore) (segsSel : Z) :
  getTempFormat sw_p segsSel =
    Z.b2z (Z.testbit (sw sw_p) (if segsSel =? 1 then 15 else 7)).
Proof.
  unfold getTempFormat, Gpi_read_bit, bit_read.
  destruct (segsSel =? 1); rewrite land_1_b2z, Z.shiftr_spec by lia; reflexivity.
Qed.

(** X2. Decoding undoes the mirror: for limits [a] and [b] in [0, 127], a
    switch port that holds the word that [dispTempLimit a b] writes is read
    back by [getTempLimit] as [a] on the exterior side and [b] on the
    interior side, and by [getTempFormat] as Celsius on both sides. *)
Theorem getTempLimit_dispTempLimit (a b : Z) (led_p : GpoCore) :
  0 <= a <= 127 -> 0 <= b <= 127 ->
  let sw_p := {| sw := ledOutput (dispTempLimit a b led_p) |} in
  getTempLimit sw_p 0 = a /\ getTempLimit sw_p 1 = b /\
  getTempFormat sw_p 0 = 0 /\ getTempFormat sw_p 1 = 0.
Proof.
  intros Ha Hb sw_p. subst sw_p.
  rewrite getTempLimit_exterior, getTempLimit_interior, !getTempFormat_bit
    by discriminate.
  cbn [sw Z.eqb Pos.eqb].
  rewrite dispTempLimit_word, (land_127_small a Ha), (land_127_small b Hb).
  assert (Ha7 : forall i, 7 <= i -> Z.testbit a i = false)
    by (intros i Hi; apply (testbit_small a 7 i); lia).
  assert (Hb7 : forall i, 7 <= i -> Z.testbit b i = false)
    by (intros i Hi; apply (testbit_small b 7 i); lia).
  repeat split.
  - rewrite <- (land_127_small a Ha) at 2.
    apply Z.bits_inj'. intros n Hn.
    rewrite !Z.land_spec, Z.lor_spec, Z.shiftl_spec, testbit_127 by lia.
    destruct (n <? 7) eqn:E; [|now rewrite !andb_false_r].
    apply Z.ltb_lt in E. rewrite (Z.testbit_neg_r b (n - 8)) by lia.
    now rewrite orb_false_r.
  - rewrite <- (land_127_small b Hb) at 2.
    apply Z.bits_inj'. intros n Hn.
    rewrite !Z.land_spec, Z.shiftr_spec, Z.lor_spec, Z.shiftl_spec, testbit_127
      by lia.
    replace (n + 8 - 8) with n by lia.
    rewrite (Ha7 (n + 8)) by lia. reflexivity.
  - rewrite Z.lor_spec, Z.shiftl_spec, (Ha7 7), (Z.testbit_neg_r b (7 - 8)) by lia.
    reflexivity.
  - rewrite Z.lor_spec, Z.shiftl_spec, (Ha7 15), (Hb7 (15 - 8)) by lia.
    reflexivity.
Qed.

Lemma getTempLimit_dispTempLimit_witness :
  0 <= 18 <= 127 /\ 0 <= 52 <= 127 /\
  getTempLimit {| sw := ledOutput (dispTempLimit 18 52 {| ledOutput := 0 |}) |} 1
    = 52.
Proof.
  assert (Ha : 0 <= 18 <= 127) by lia.
  assert (Hb : 0 <= 52 <= 127) by lia.
  split; [exact Ha|]. split; [exact Hb|].
  exact (proj1 (proj2
    (getTempLimit_dispTempLimit 18 52 {| ledOutput := 0 |} Ha Hb))).
Defined.

Lemma lor_fields (a b : Z) :
  0 <= a <= 127 -> 0 <= b -> Z.lor a (Z.shiftl b 8) = a + 256 * b.
Proof.
  intros Ha Hb. rewrite <- (Z.add_lor_land a (Z.shiftl b 8)) at 1 || idtac.
  pose proof (Z.add_lor_land a (Z.shiftl b 8)) as Hadd.
  assert (Hland : Z.land a (Z.shiftl b 8) = 0).
  { apply Z.bits_inj'. intros n Hn. rewrite Z.land_spec, Z.shiftl_spec, Z.bits_0 by lia.
    destruct (Z_lt_le_dec n 8) as [H8|H8].
    - rewrite (Z.testbit_neg_r b (n - 8)) by lia. apply andb_false_r.
    - rewrite (testbit_small a 7 n) by lia. reflexivity. }
  rewrite Z.shiftl_mul_pow2 in * by lia. change (2 ^ 8) with 256 in *. lia.
Qed.

(** X3. [dispTempLimit] masks what it is given: for every pair of [int],
    negative or above 127, only the low seven bits of each limit reach the
    LEDs, so a limit and its residue modulo 128 give the same word, which
    is [(lowerLim mod 128) + 256 * (upperLim mod 128)]; the word is at most
    0x7F7F, its bit 7 and its bits from 15 up are zero, and it does not
    depend on what the port held. *)
Theorem dispTempLimit_masks (lowerLim upperLim : Z) (led_p led_q : GpoCore) :
  let out := ledOutput (dispTempLimit lowerLim upperLim led_p) in
  out = ledOutput (dispTempLimit (lowerLim mod 128) (upperLim mod 128) led_q) /\
  out = lowerLim mod 128 + 256 * (upperLim mod 128) /\
  0 <= out <= 32639 /\
  (forall i, i = 7 \/ 15 <= i -> Z.testbit out i = false).
Proof.
  intros out. subst out. rewrite !dispTempLimit_word.
  assert (Hland : forall z, Z.land z 127 = z mod 128).
  { intros z. change 127 with (Z.ones 7). rewrite Z.land_ones by lia. reflexivity. }
  assert (Hmod : forall z, Z.land (z mod 128) 127 = z mod 128).
  { intros z. apply land_127_small.
    pose proof (Z.mod_pos_bound z 128 ltac:(lia)). lia. }
  rewrite !Hmod, !Hland.
  pose proof (Z.mod_pos_bound lowerLim 128 ltac:(lia)) as Ha.
  pose proof (Z.mod_pos_bound upperLim 128 ltac:(lia)) as Hb.
  remember (lowerLim mod 128) as a. remember (upperLim mod 128) as b.
  assert (Ha7 : forall i, 7 <= i -> Z.testbit a i = false)
    by (intros i Hi; apply (testbit_small a 7 i); lia).
  assert (Hb7 : forall i, 7 <= i -> Z.testbit b i = false)
    by (intros i Hi; apply (testbit_small b 7 i); lia).
  split; [reflexivity|].
  split; [apply lor_fields; lia|].
  split; [rewrite lor_fields by lia; lia|].
  intros i Hi. destruct (Z_lt_le_dec i 0) as [Hneg|Hpos];
    [apply Z.testbit_neg_r; lia|].
  rewrite Z.lor_spec, Z.shiftl_spec by lia.
  destruct Hi as [->|Hi].
  - rewrite (Ha7 7), (Z.testbit_neg_r b (7 - 8)) by lia. reflexivity.
  - rewrite (Ha7 i), (Hb7 (i - 8)) by lia. reflexivity.
Qed.

(** X4. The format switches and the limit switches do not mix:
    [getTempFormat] is 0 or 1, the value of switch 7 (exterior) or 15
    (interior); two switch words that agree on bits 0-6 give the same
    exterior limit and two that agree on bits 8-14 the same interior limit,
    whatever their other bits, so moving a format switch never changes a
    limit; and two words that agree on bit 7 (bit 15) give the same exterior
    (interior) format. *)
Theorem getTempFormat_getTempLimit_fields (p q : GpiCore) :
  (getTempFormat p 0 = Z.b2z (Z.testbit (sw p) 7) /\
   getTempFormat p 1 = Z.b2z (Z.testbit (sw p) 15) /\
   (forall segsSel, getTempFormat p segsSel = 0 \/ getTempFormat p segsSel = 1)) /\
  ((forall n, 0 <= n <= 6 -> Z.testbit (sw p) n = Z.testbit (sw q) n) ->
   getTempLimit p 0 = getTempLimit q 0) /\
  ((forall n, 8 <= n <= 14 -> Z.testbit (sw p) n = Z.testbit (sw q) n) ->
   getTempLimit p 1 = getTempLimit q 1) /\
  (Z.testbit (sw p) 7 = Z.testbit (sw q) 7 -> getTempFormat p 0 = getTempFormat q 0) /\
  (Z.testbit (sw p) 15 = Z.testbit (sw q) 15 -> getTempFormat p 1 = getTempFormat q 1).
Proof.
  split; [|split; [|split; [|split]]].
  - split; [apply getTempFormat_bit|]. split; [apply getTempFormat_bit|].
    intros segsSel. rewrite getTempFormat_bit.
    destruct (Z.testbit _ _); [right|left]; reflexivity.
  - intros H. rewrite !getTempLimit_exterior by discriminate.
    apply Z.bits_inj'. intros n Hn. rewrite !Z.land_spec, testbit_127 by lia.
    destruct (n <? 7) eqn:E; [|now rewrite !andb_false_r].
    apply Z.ltb_lt in E. rewrite H by lia. reflexivity.
  - intros H. rewrite !getTempLimit_interior.
    apply Z.bits_inj'. intros n Hn.
    rewrite !Z.land_spec, !Z.shiftr_spec, testbit_127 by lia.
    destruct (n <? 7) eqn:E; [|now rewrite !andb_false_r].
    apply Z.ltb_lt in E. rewrite H by lia. reflexivity.
  - intros H. rewrite !getTempFormat_bit. cbn [Z.eqb]. rewrite H. reflexivity.
  - intros H. rewrite !getTempFormat_bit. cbn [Z.eqb Pos.eqb]. rewrite H. reflexivity.
Qed.

(** Flipping both format switches of the word 0x3412 keeps both limits. *)
Lemma getTempFormat_getTempLimit_fields_witness :
  getTempLimit (Gpi_set 13330) 0 = getTempLimit (Gpi_set 46226) 0 /\
  getTempLimit (Gpi_set 13330) 1 = getTempLimit (Gpi_set 46226) 1 /\
  getTempFormat (Gpi_set 46226) 1 = 1.
Proof.
  pose proof (getTempFormat_getTempLimit_fields (Gpi_set 13330) (Gpi_set 46226))
    as (_ & Hext & Hint & _).
  pose proof (getTempFormat_getTempLimit_fields (Gpi_set 46226) (Gpi_set 46226))
    as ((_ & Hfmt & _) & _).
  split; [|split; [|exact Hfmt]].
  - apply Hext. intros n Hn.
    assert (Hc : n = 0 \/ n = 1 \/ n = 2 \/ n = 3 \/ n = 4 \/ n = 5 \/ n = 6) by lia.
    repeat (destruct Hc as [->|Hc]; [reflexivity|]). subst n. reflexivity.
  - apply Hint. intros n Hn.
    assert (Hc : n = 8 \/ n = 9 \/ n = 10 \/ n = 11 \/ n = 12 \/ n = 13 \/ n = 14)
      by lia.
    repeat (destruct Hc as [->|Hc]; [reflexivity|]). subst n. reflexivity.
Defined.

(** ** The RGB indicators, every colour and position *)

Lemma list_length_8 {A} (l : list A) :
  length l = 8%nat ->
  exists a0 a1 a2 a3 a4 a5 a6 a7, l = [a0; a1; a2; a3; a4; a5; a6; a7].
Proof.
  intros H.
  destruct l as [|a0 [|a1 [|a2 [|a3 [|a4 [|a5 [|a6 [|a7 [|a8 l]]]]]]]]];
    try discriminate H.
  repeat eexists.
Qed.

(** The loop of the exterior branch, unrolled. *)
Lemma setRGB_exterior (color rgbPos : Z) (pwm_p : PwmCore) :
  rgbPos <> 1 ->
  setRGB color rgbPos pwm_p =
    Pwm_set_duty (F64.dec 3 10) (color + 1)
      (Pwm_set_duty F64.zero 2
         (Pwm_set_duty F64.zero 1 (Pwm_set_duty F64.zero 0 pwm_p))).
Proof.
  intros H. rewrite <- setRGB_duty. unfold setRGB. cbv zeta.
  rewrite (proj2 (Z.eqb_neq rgbPos 1) H). reflexivity.
Qed.

(** Every channel after [setRGB], for every [int] colour and position. *)
Lemma channel_setRGB (color rgbPos : Z) (pwm_p : PwmCore) (q : Z) :
  length (duty pwm_p) = 8%nat ->
  channel (setRGB color rgbPos pwm_p) q =
    let lit := color + triple_base rgbPos + 1 in
    if (0 <=? lit) && (lit <? 8) && (q =? lit) then Some (F64.dec 3 10)
    else if (triple_base rgbPos <=? q) && (q <=? triple_base rgbPos + 2)
         then Some F64.zero
         else channel pwm_p q.
Proof.
  intros Hlen. unfold triple_base. cbv zeta.
  destruct (rgbPos =? 1) eqn:Hpos.
  - apply Z.eqb_eq in Hpos. subst rgbPos.
    rewrite setRGB_interior, !channel_Pwm_set_duty, !length_Pwm_set_duty, Hlen.
    replace (color + 3 + 1) with (color + 4) by lia.
    change (Z.of_nat 8) with 8.
    destruct ((0 <=? color + 4) && (color + 4 <? 8) && (q =? color + 4));
      [reflexivity|].
    cbn [Z.leb Z.ltb Z.compare andb].
    destruct (Z.eq_dec q 5) as [->|H5]; [reflexivity|].
    rewrite (proj2 (Z.eqb_neq q 5)) by assumption.
    destruct (Z.eq_dec q 4) as [->|H4]; [reflexivity|].
    rewrite (proj2 (Z.eqb_neq q 4)) by assumption.
    destruct (Z.eq_dec q 3) as [->|H3]; [reflexivity|].
    rewrite (proj2 (Z.eqb_neq q 3)) by assumption.
    destruct (3 <=? q) eqn:E1, (q <=? 3 + 2) eqn:E2; try reflexivity.
    apply Z.leb_le in E1. apply Z.leb_le in E2. lia.
  - apply Z.eqb_neq in Hpos.
    rewrite setRGB_exterior, !channel_Pwm_set_duty, !length_Pwm_set_duty, Hlen
      by assumption.
    replace (color + 0 + 1) with (color + 1) by lia.
    change (Z.of_nat 8) with 8.
    destruct ((0 <=? color + 1) && (color + 1 <? 8) && (q =? color + 1));
      [reflexivity|].
    cbn [Z.leb Z.ltb Z.compare andb].
    destruct (Z.eq_dec q 2) as [->|H2]; [reflexivity|].
    rewrite (proj2 (Z.eqb_neq q 2)) by assumption.
    destruct (Z.eq_dec q 1) as [->|H1]; [reflexivity|].
    rewrite (proj2 (Z.eqb_neq q 1)) by assumption.
    destruct (Z.eq_dec q 0) as [->|H0]; [reflexivity|].
    rewrite (proj2 (Z.eqb_neq q 0)) by assumption.
    destruct (0 <=? q) eqn:E1, (q <=? 0 + 2) eqn:E2; try reflexivity.
    apply Z.leb_le in E1. apply Z.leb_le in E2. lia.
Qed.

Lemma setRGB_keeps (color rgbPos : Z) (pwm_p : PwmCore) :
  freq (setRGB color rgbPos pwm_p) = freq pwm_p /\
  length (duty (setRGB color rgbPos pwm_p)) = length (duty pwm_p).
Proof.
  destruct (Z.eq_dec rgbPos 1) as [->|H].
  - rewrite setRGB_interior, !length_Pwm_set_duty. split; [|reflexivity].
    unfold Pwm_set_duty. repeat (case_match; cbn [freq]); reflexivity.
  - rewrite setRGB_exterior, !length_Pwm_set_duty by assumption.
    split; [|reflexivity].
    unfold Pwm_set_duty. repeat (case_match; cbn [freq]); reflexivity.
Qed.

(** X5. With colour 0 (green) or 1 (red), [setRGB] lights exactly one
    channel of the triple that [rgbPos] selects (channels 3-5 when it is 1,
    channels 0-2 otherwise): the channel [base + 1 + color] gets duty 0.30,
    the channel of the other colour and the first channel of the triple get
    0.0, every channel outside the triple keeps its duty, and the frequency
    is kept. *)
Theorem setRGB_colours (color rgbPos : Z) (pwm_p : PwmCore) :
  length (duty pwm_p) = 8%nat ->
  color = 0 \/ color = 1 ->
  let base := triple_base rgbPos in
  let out := setRGB color rgbPos pwm_p in
  channel out (base + 1 + color) = Some (F64.dec 3 10) /\
  channel out (base + 2 - color) = Some F64.zero /\
  channel out base = Some F64.zero /\
  (forall q, q < base \/ base + 2 < q -> channel out q = channel pwm_p q) /\
  freq out = freq pwm_p.
Proof.
  intros Hlen Hc base out. subst out base.
  split; [|split; [|split; [|split]]].
  - rewrite channel_setRGB by assumption.
    unfold triple_base. destruct Hc as [-> | ->], (rgbPos =? 1); reflexivity.
  - rewrite channel_setRGB by assumption.
    unfold triple_base. destruct Hc as [-> | ->], (rgbPos =? 1); reflexivity.
  - rewrite channel_setRGB by assumption.
    unfold triple_base. destruct Hc as [-> | ->], (rgbPos =? 1); reflexivity.
  - intros q Hq. rewrite channel_setRGB by assumption. cbv zeta.
    assert (Hb : triple_base rgbPos = 0 \/ triple_base rgbPos = 3)
      by (unfold triple_base; destruct (rgbPos =? 1); auto).
    rewrite (proj2 (Z.eqb_neq q (color + triple_base rgbPos + 1))) by lia.
    rewrite andb_false_r.
    destruct (triple_base rgbPos <=? q) eqn:E1,
             (q <=? triple_base rgbPos + 2) eqn:E2; try reflexivity.
    apply Z.leb_le in E1. apply Z.leb_le in E2. lia.
  - apply setRGB_keeps.
Qed.

(** Green on the exterior indicator of the initial core: channel 1. *)
Lemma setRGB_colours_witness :
  length (duty Pwm_init) = 8%nat /\ (0 = 0 \/ 0 = 1) /\
  channel (setRGB 0 0 Pwm_init) 1 = Some (F64.dec 3 10) /\
  channel (setRGB 0 0 Pwm_init) 2 = Some F64.zero.
Proof.
  assert (Hlen : length (duty Pwm_init) = 8%nat) by reflexivity.
  assert (Hc : 0 = 0 \/ 0 = 1) by (left; reflexivity).
  split; [exact Hlen|]. split; [exact Hc|].
  pose proof (setRGB_colours 0 0 Pwm_init Hlen Hc) as (H1 & H2 & _).
  split; [exact H1 | exact H2].
Defined.

(** X6. [setRGB] does not check its colour.  For every [int] colour (with
    [color + 4] still an [int]) the channel [color + base + 1] is the one
    it tries to light: when that
    channel is outside 0-7 the write is dropped and the whole triple stays
    dark; when it is inside 0-7 but outside the triple, a channel that does
    not belong to the indicator is lit (colour 2 on the exterior indicator
    lights channel 3, the first channel of the interior triple) and the
    triple stays dark.  In both cases no other channel changes. *)
Theorem setRGB_colour_unchecked (color rgbPos : Z) (pwm_p : PwmCore) :
  length (duty pwm_p) = 8%nat ->
  Int.min_signed <= color <= Int.max_signed - 4 ->
  let base := triple_base rgbPos in
  let lit := color + base + 1 in
  let out := setRGB color rgbPos pwm_p in
  (lit < base \/ base + 2 < lit ->
   forall q, base <= q <= base + 2 -> channel out q = Some F64.zero) /\
  (lit < 0 \/ 8 <= lit ->
   forall q, q < base \/ base + 2 < q -> channel out q = channel pwm_p q) /\
  (0 <= lit < 8 -> channel out lit = Some (F64.dec 3 10)) /\
  (forall q, q <> lit -> q < base \/ base + 2 < q ->
   channel out q = channel pwm_p q).
Proof.
  intros Hlen _ base lit out. subst out lit base.
  split; [|split; [|split]].
  - intros Hlit q Hq. rewrite channel_setRGB by assumption. cbv zeta.
    rewrite (proj2 (Z.eqb_neq q (color + triple_base rgbPos + 1))) by lia.
    rewrite andb_false_r.
    rewrite (proj2 (Z.leb_le (triple_base rgbPos) q)) by lia.
    rewrite (proj2 (Z.leb_le q (triple_base rgbPos + 2))) by lia.
    reflexivity.
  - intros Hlit q Hq. rewrite channel_setRGB by assumption. cbv zeta.
    assert (E : (0 <=? color + triple_base rgbPos + 1)
                && (color + triple_base rgbPos + 1 <? 8) = false).
    { destruct Hlit as [Hl|Hl].
      - rewrite (proj2 (Z.leb_gt 0 _)) by lia. reflexivity.
      - rewrite (proj2 (Z.ltb_ge _ 8)) by lia. apply andb_false_r. }
    rewrite E. cbn [andb].
    destruct (triple_base rgbPos <=? q) eqn:E1,
             (q <=? triple_base rgbPos + 2) eqn:E2; try reflexivity.
    apply Z.leb_le in E1. apply Z.leb_le in E2. lia.
  - intros Hlit. rewrite channel_setRGB by assumption. cbv zeta.
    rewrite (proj2 (Z.leb_le 0 _)), (proj2 (Z.ltb_lt _ 8)), Z.eqb_refl by lia.
    reflexivity.
  - intros q Hne Hq. rewrite channel_setRGB by assumption. cbv zeta.
    rewrite (proj2 (Z.eqb_neq q (color + triple_base rgbPos + 1))) by lia.
    rewrite andb_false_r.
    destruct (triple_base rgbPos <=? q) eqn:E1,
             (q <=? triple_base rgbPos + 2) eqn:E2; try reflexivity.
    apply Z.leb_le in E1. apply Z.leb_le in E2. lia.
Qed.

(** Colour 2 on the exterior indicator lights channel 3 and leaves channels
    0-2 dark; colour 4 on the interior indicator lights nothing. *)
Lemma setRGB_colour_unchecked_witness :
  length (duty Pwm_init) = 8%nat /\
  Int.min_signed <= 2 <= Int.max_signed - 4 /\
  Int.min_signed <= 4 <= Int.max_signed - 4 /\
  channel (setRGB 2 0 Pwm_init) 3 = Some (F64.dec 3 10) /\
  channel (setRGB 2 0 Pwm_init) 2 = Some F64.zero /\
  channel (setRGB 4 1 Pwm_init) 5 = Some F64.zero.
Proof.
  assert (Hlen : length (duty Pwm_init) = 8%nat) by reflexivity.
  assert (H2 : Int.min_signed <= 2 <= Int.max_signed - 4)
    by (unfold Int.min_signed, Int.max_signed, Int.wordsize; lia).
  assert (H4 : Int.min_signed <= 4 <= Int.max_signed - 4)
    by (unfold Int.min_signed, Int.max_signed, Int.wordsize; lia).
  split; [exact Hlen|]. split; [exact H2|]. split; [exact H4|].
  pose proof (setRGB_colour_unchecked 2 0 Pwm_init Hlen H2) as (Hdark & _ & Hlit & _).
  pose proof (setRGB_colour_unchecked 4 1 Pwm_init Hlen H4) as (Hdark' & _).
  split; [apply Hlit; unfold triple_base; cbn; lia|].
  split; [apply Hdark; unfold triple_base; cbn; lia|].
  apply Hdark'; unfold triple_base; cbn; lia.
Defined.

(** ** The colour of an indicator *)

(** The limits that the switches can give, as [float]: 0.0 or a positive
    number below 128. *)
Lemma of_Z_limit (limit : Z) :
  0 <= limit <= 127 ->
  F32.of_Z limit = S754_zero false \/
  exists m e, F32.of_Z limit = S754_finite false m e /\ e <= -17.
Proof.
  intros Hl.
  assert (Hall : forallb (fun n => match F32.of_Z (Z.of_nat n) with
                                   | S754_zero false => true
                                   | S754_finite false _ e => e <=? -17
                                   | _ => false
                                   end) (seq 0 128) = true)
    by (vm_compute; reflexivity).
  rewrite forallb_forall in Hall.
  specialize (Hall (Z.to_nat limit)).
  rewrite Z2Nat.id in Hall by lia.
  assert (Hin : In (Z.to_nat limit) (seq 0 128)) by (apply in_seq; lia).
  specialize (Hall Hin).
  destruct (F32.of_Z limit) as [[]| | |[] m e]; try discriminate.
  - left. reflexivity.
  - right. exists m, e. split; [reflexivity|]. apply Z.leb_le. exact Hall.
Qed.

Lemma getTempLimit_range (sw_p : GpiCore) (segsSel : Z) :
  0 <= getTempLimit sw_p segsSel <= 127.
Proof.
  destruct (Z.eq_dec segsSel 1) as [->|H].
  - rewrite getTempLimit_interior. apply land_127_range.
  - rewrite getTempLimit_exterior by assumption. apply land_127_range.
Qed.

(** X9. The colour that [main] gives an indicator is 0 (green) or 1 (red),
    and the switches cannot reach every temperature: whatever the switch
    word, a temperature below 0 and a NaN are green and a temperature of
    128 or more is red. *)
Theorem limitColor_extremes (tempC : float) (sw_p : GpiCore) (segsSel : Z) :
  let color := limitColor tempC (getTempLimit sw_p segsSel) in
  (color = 0 \/ color = 1) /\
  (F32.lt tempC F32.zero = true -> color = 0) /\
  (tempC = S754_nan -> color = 0) /\
  (F32.ge tempC (F32.of_Z 128) = true -> color = 1).
Proof.
  intros color. subst color. unfold limitColor.
  pose proof (of_Z_limit _ (getTempLimit_range sw_p segsSel)) as Hl.
  remember (F32.of_Z (getTempLimit sw_p segsSel)) as l eqn:El. clear El.
  split; [destruct (F32.lt l tempC); auto|].
  split; [|split].
  - intros Hneg.
    destruct Hl as [-> | (m & e & -> & _)];
      destruct tempC as [s|[]| |[] mt et]; try discriminate Hneg; reflexivity.
  - intros ->. destruct Hl as [-> | (m & e & -> & _)]; reflexivity.
  - change (F32.of_Z 128) with (S754_finite false 8388608 (-16)).
    unfold F32.ge, F32.lt. intros Hge.
    destruct tempC as [s|[]| |[] mt et]; try discriminate Hge.
    + destruct Hl as [-> | (m & e & -> & _)]; reflexivity.
    + destruct Hl as [-> | (m & e & -> & He)]; [reflexivity|].
      assert (Hlt : SFltb (S754_finite false m e) (S754_finite false mt et) = true);
        [|rewrite Hlt; reflexivity].
      apply ltb_finite. left.
      assert (Het : -16 <= et); [|lia].
      unfold SFleb in Hge. cbn [SFcompare] in Hge.
      destruct (Z.compare_spec (-16) et); [lia | lia | discriminate Hge].
Qed.

(** With every limit switch up, -5.32 is green; with every switch down,
    130 is red. *)
Lemma limitColor_extremes_witness :
  F32.lt fm5_32 F32.zero = true /\
  limitColor fm5_32 (getTempLimit (Gpi_set 32639) 1) = 0 /\
  F32.ge (F32.of_Z 130) (F32.of_Z 128) = true /\
  limitColor (F32.of_Z 130) (getTempLimit (Gpi_set 0) 0) = 1.
Proof.
  assert (Hneg : F32.lt fm5_32 F32.zero = true) by reflexivity.
  assert (Hge : F32.ge (F32.of_Z 130) (F32.of_Z 128) = true) by reflexivity.
  split; [exact Hneg|].
  split; [exact (proj1 (proj2 (limitColor_extremes fm5_32 (Gpi_set 32639) 1)) Hneg)|].
  split; [exact Hge|].
  exact (proj2 (proj2 (proj2 (limitColor_extremes (F32.of_Z 130) (Gpi_set 0) 0))) Hge).
Defined.

(** X7. After a turn of the loop of [main] the six indicator channels are
    set whatever they held: in each triple the first channel is dark and
    exactly one of the green channel (1, 4) and the red channel (2, 5) has
    duty 0.30, by the colour of its side; channels 6 and 7 and the
    frequency are kept; and the order of the two [setRGB] calls does not
    matter. *)
Theorem main_indicators (sw_p : GpiCore) (intTempC extTempC : float)
    (b b' : Board) :
  length (duty (pwm b)) = 8%nat ->
  main_loop sw_p intTempC extTempC b = Some b' ->
  let intColor := limitColor intTempC (getTempLimit sw_p 1) in
  let extColor := limitColor extTempC (getTempLimit sw_p 0) in
  let lit (on : bool) := Some (if on then F64.dec 3 10 else F64.zero) in
  channel (pwm b') 0 = Some F64.zero /\
  channel (pwm b') 1 = lit (extColor =? 0) /\
  channel (pwm b') 2 = lit (extColor =? 1) /\
  channel (pwm b') 3 = Some F64.zero /\
  channel (pwm b') 4 = lit (intColor =? 0) /\
  channel (pwm b') 5 = lit (intColor =? 1) /\
  channel (pwm b') 6 = channel (pwm b) 6 /\
  channel (pwm b') 7 = channel (pwm b) 7 /\
  freq (pwm b') = freq (pwm b) /\
  pwm b' = setRGB intColor 1 (setRGB extColor 0 (pwm b)).
Proof.
  intros Hlen Hrun intColor extColor lit.
  unfold main_loop in Hrun. cbv zeta in Hrun.
  destruct (main_display _ _ _ _ _) as [[u sseg']|]; [|discriminate].
  injection Hrun as <-. cbn [pwm]. fold intColor extColor.
  assert (Hi : intColor = 0 \/ intColor = 1)
    by (subst intColor; unfold limitColor; destruct (F32.lt _ _); auto).
  assert (He : extColor = 0 \/ extColor = 1)
    by (subst extColor; unfold limitColor; destruct (F32.lt _ _); auto).
  clearbody intColor extColor.
  destruct (list_length_8 _ Hlen) as (d0 & d1 & d2 & d3 & d4 & d5 & d6 & d7 & Hd).
  destruct (pwm b) as [dl f]. cbn [duty] in Hd. subst dl. subst lit.
  rewrite <- !setRGB_duty.
  destruct Hi as [-> | ->], He as [-> | ->]; repeat split.
Qed.

Lemma main_indicators_witness :
  length (duty (pwm Board_init)) = 8%nat /\
  exists b',
    main_loop (Gpi_set 13330) f105_49 f9_76 Board_init = Some b' /\
    channel (pwm b') 5 = Some (F64.dec 3 10) /\
    channel (pwm b') 1 = Some (F64.dec 3 10) /\
    channel (pwm b') 2 = Some F64.zero.
Proof.
  assert (Hlen : length (duty (pwm Board_init)) = 8%nat) by reflexivity.
  split; [exact Hlen|].
  assert (H : exists b', main_loop (Gpi_set 13330) f105_49 f9_76 Board_init = Some b')
    by (eexists; vm_compute; reflexivity).
  destruct H as [b' Hrun]. exists b'. split; [exact Hrun|].
  pose proof (main_indicators (Gpi_set 13330) f105_49 f9_76 Board_init b' Hlen Hrun)
    as (_ & H1 & H2 & _ & _ & H5 & _).
  split; [exact H5|]. split; [exact H1 | exact H2].
Defined.

(** ** Clearing the display *)

(** X8. [clearDisp] leaves nothing of what the display showed: whatever
    the eight cells and the decimal-point mask held, afterwards every cell
    holds BLANK (0xFF) and the mask is 0, so clearing twice is clearing
    once. *)
Theorem clearDisp_blank (sseg_p : SsegCore) :
  length (digit sseg_p) = 8%nat ->
  clearDisp sseg_p = {| digit := replicate 8 BLANK; dp := 0 |} /\
  (forall q, 0 <= q <= 7 -> cell (clearDisp sseg_p) q = Some BLANK) /\
  clearDisp (clearDisp sseg_p) = clearDisp sseg_p.
Proof.
  intros Hlen.
  destruct (list_length_8 _ Hlen) as (d0 & d1 & d2 & d3 & d4 & d5 & d6 & d7 & Hd).
  destruct sseg_p as [dl m]. cbn [digit] in Hd. subst dl.
  split; [reflexivity|]. split; [|reflexivity].
  intros q Hq.
  assert (Hc : q = 0 \/ q = 1 \/ q = 2 \/ q = 3 \/ q = 4 \/ q = 5 \/ q = 6 \/ q = 7)
    by lia.
  repeat (destruct Hc as [->|Hc]; [reflexivity|]). subst q. reflexivity.
Qed.

Lemma clearDisp_blank_witness :
  length (digit {| digit := [1; 2; 3; 4; 5; 6; 7; 8]; dp := 255 |}) = 8%nat /\
  clearDisp {| digit := [1; 2; 3; 4; 5; 6; 7; 8]; dp := 255 |} =
    {| digit := replicate 8 BLANK; dp := 0 |}.
Proof.
  split; [reflexivity|].
  exact (proj1 (clearDisp_blank {| digit := [1; 2; 3; 4; 5; 6; 7; 8]; dp := 255 |}
                  eq_refl)).
Defined.

(** ** The sensor word *)

Lemma land_bit15 (raw : Z) :
  0 <= raw < 65536 -> (Z.land raw 32768 =? 0) = (raw <? 32768).
Proof.
  intros Hraw. change 32768 with (2 ^ 15).
  destruct (Z.ltb_spec raw (2 ^ 15)) as [Hlt|Hge].
  - apply Z.eqb_eq. apply Z.bits_inj'. intros n Hn.
    rewrite Z.land_spec, Z.bits_0, Z.pow2_bits_eqb by lia.
    destruct (Z.eqb_spec 15 n) as [<-|_]; [|apply andb_false_r].
    rewrite (testbit_small raw 15 15) by lia. reflexivity.
  - apply Z.eqb_neq. intros H0.
    assert (Hbit : Z.testbit (Z.land raw (2 ^ 15)) 15 = false)
      by (rewrite H0; apply Z.bits_0).
    rewrite Z.land_spec, Z.pow2_bits_eqb, Z.eqb_refl, andb_true_r in Hbit by lia.
    assert (Ht : Z.testbit raw 15 = true); [|congruence].
    apply Z.testbit_true; [lia|].
    assert (Hq : raw / 2 ^ 15 = 1); [|rewrite Hq; reflexivity].
    symmetry. apply (Z.div_unique raw (2 ^ 15) 1 (raw - 2 ^ 15)); lia.
Qed.

(** The conversion of [getExtTempC] on the upper 13 bits [k] of the word. *)
Lemma getExtTempC_code (bytes0 bytes1 : Z) :
  let k := (256 * (bytes0 mod 256) + bytes1 mod 256) / 8 in
  0 <= k < 8192 /\
  getExtTempC bytes0 bytes1 =
    F32.div (F32.of_Z (if k <? 4096 then k else k - 8192)) (F32.of_Z 16).
Proof.
  intros k. subst k.
  pose proof (Z.mod_pos_bound bytes0 256 ltac:(lia)) as Ha.
  pose proof (Z.mod_pos_bound bytes1 256 ltac:(lia)) as Hb.
  unfold getExtTempC, to_uint16, Int.to_uint8.
  remember (bytes0 mod 256) as a eqn:Ea. remember (bytes1 mod 256) as b eqn:Eb.
  clear Ea Eb bytes0 bytes1.
  rewrite (Z.mod_small a 65536), (Z.mod_small b 65536) by lia.
  rewrite Z.shiftl_mul_pow2 by lia. change (2 ^ 8) with 256.
  rewrite (Z.mod_small (a * 256 + b) 65536) by lia.
  replace (a * 256 + b) with (256 * a + b) by lia.
  remember (256 * a + b) as raw eqn:Eraw.
  assert (Hraw : 0 <= raw < 65536) by lia. clear Eraw a b Ha Hb.
  rewrite land_bit15 by assumption.
  rewrite Z.shiftr_div_pow2 by lia. change (2 ^ 3) with 8.
  assert (Hk : 0 <= raw / 8 < 8192).
  { split; [apply Z.div_pos; lia|apply Z.div_lt_upper_bound; lia]. }
  split; [exact Hk|].
  rewrite (Z.mod_small (raw / 8) 65536) by lia.
  destruct (Z.ltb_spec raw 32768) as [Hlt|Hge]; cbn [negb].
  - assert (Hk' : raw / 8 < 4096) by (apply Z.div_lt_upper_bound; lia).
    rewrite (proj2 (Z.ltb_lt _ _) Hk'). reflexivity.
  - assert (Hk' : 4096 <= raw / 8) by (apply Z.div_le_lower_bound; lia).
    rewrite (proj2 (Z.ltb_ge _ _) Hk'). reflexivity.
Qed.

Lemma all_below_spec (n : nat) (P : Z -> bool) :
  all_below n P = true -> forall k, 0 <= k < 2 ^ Z.of_nat n -> P k = true.
Proof.
  revert P. induction n as [|n IH]; intros P Hall k Hk.
  - cbn in Hall. change (2 ^ Z.of_nat 0) with 1 in Hk.
    assert (k = 0) by lia. subst k. exact Hall.
  - cbn [all_below] in Hall. apply andb_true_iff in Hall as [H0 H1].
    rewrite Nat2Z.inj_succ, Z.pow_succ_r in Hk by lia.
    pose proof (Z.div_mod k 2 ltac:(lia)) as Hdm.
    pose proof (Z.mod_pos_bound k 2 ltac:(lia)) as Hm.
    assert (Hh : 0 <= k / 2 < 2 ^ Z.of_nat n).
    { split; [apply Z.div_pos; lia|apply Z.div_lt_upper_bound; lia]. }
    destruct (Z.eq_dec (k mod 2) 0) as [E|E].
    + specialize (IH _ H0 (k / 2) Hh). cbv beta in IH.
      replace (2 * (k / 2)) with k in IH by lia. exact IH.
    + specialize (IH _ H1 (k / 2) Hh). cbv beta in IH.
      replace (2 * (k / 2) + 1) with k in IH by lia. exact IH.
Qed.

(** Every value of the 13 bits has a property that holds of all of them by
    evaluation. *)
Lemma all_readings (P : Z -> bool) :
  all_below 13 P = true -> forall k, 0 <= k < 8192 -> P k = true.
Proof. intros Hall k Hk. apply (all_below_spec 13 P Hall). exact Hk. Qed.

(** The table of the sensor. *)
Lemma sensor_table (k : Z) :
  0 <= k < 8192 ->
  let s := if k <? 4096 then k else k - 8192 in
  let x := F32.div (F32.of_Z s) (F32.of_Z 16) in
  exists tic wc tif wf,
    scaledTenths (clampTemp x) = Some tic /\
    wholeDeg (clampTemp x) = Some wc /\
    scaledTenths (clampTemp (cel2fer x)) = Some tif /\
    wholeDeg (clampTemp (cel2fer x)) = Some wf /\
    (100 <=? wc) = (k <? 4096) && (1600 <=? k) /\
    (100 <=? wf) = (k <? 4096) && (604 <=? k) /\
    tic = Z.max 0 ((10 * s + 8) / 16) /\
    Z.max 0 ((18 * s + 5128) / 16) - 1 <= tif <= Z.max 0 ((18 * s + 5128) / 16).
Proof.
  intros Hk s x.
  pose proof (all_readings sensor_row ltac:(vm_compute; reflexivity) k Hk) as H.
  unfold sensor_row in H. cbv beta zeta in H.
  change (if k <? 4096 then k else k - 8192) with s in H.
  change (F32.div (F32.of_Z s) (F32.of_Z 16)) with x in H.
  clearbody x. clearbody s.
  unfold wholeDeg.
  destruct (scaledTenths (clampTemp x)) as [tic|]; [|discriminate H].
  destruct (if F32.ge (clampTemp x) (F32.of_Z 100) then _ else _) as [wc|];
    [|discriminate H].
  destruct (scaledTenths (clampTemp (cel2fer x))) as [tif|]; [|discriminate H].
  destruct (if F32.ge (clampTemp (cel2fer x)) (F32.of_Z 100) then _ else _) as [wf|];
    [|discriminate H].
  apply andb_true_iff in H as [H H5]. apply andb_true_iff in H as [H H4].
  apply andb_true_iff in H as [H H3]. apply andb_true_iff in H as [H1 H2].
  apply Bool.eqb_prop in H1, H2. apply Z.eqb_eq in H3. apply Z.leb_le in H4, H5.
  exists tic, wc, tif, wf. repeat split; assumption.
Qed.

(** The working temperature of [dispTemp] is the clamp of the one that the
    format selects. *)
Lemma workingTemp_format (tmpC tmpF : float) (isFer : Z) :
  workingTemp tmpC tmpF isFer = clampTemp (if isFer =? 1 then tmpF else tmpC).
Proof. reflexivity. Qed.

(** X10. [getExtTempC] converts the two bytes of the sensor exactly: with
    [k] the upper 13 bits of the 16-bit word (the low three bits of the
    second byte are dropped), the result is the binary32 number k / 16 when
    the top bit of the word is clear and (k - 8192) / 16 when it is set,
    without rounding; so it is a number of the format from -256 to
    255.9375, and it is below 0 exactly when the top bit of the first byte
    is set. *)
Theorem getExtTempC_reading (bytes0 bytes1 : Z) :
  let raw := 256 * (bytes0 mod 256) + bytes1 mod 256 in
  let k := raw / 8 in
  let tmpC := getExtTempC bytes0 bytes1 in
  sixteenths tmpC = Some (if raw <? 32768 then k else k - 8192) /\
  F32.valid tmpC = true /\
  F32.lt tmpC F32.zero = negb (bytes0 mod 256 <? 128) /\
  F32.ge tmpC (F32.of_Z (-256)) = true /\
  F32.lt tmpC (F32.of_Z 256) = true.
Proof.
  intros raw k tmpC.
  destruct (getExtTempC_code bytes0 bytes1) as (Hk & Hcode).
  fold raw in Hk, Hcode. fold k in Hk, Hcode. fold tmpC in Hcode.
  assert (Htop : (raw <? 32768) = (k <? 4096)).
  { subst k. pose proof (Z.mod_pos_bound bytes1 256 ltac:(lia)).
    pose proof (Z.mod_pos_bound bytes0 256 ltac:(lia)).
    destruct (Z.ltb_spec raw 32768), (Z.ltb_spec (raw / 8) 4096); try reflexivity.
    - assert (raw / 8 < 4096) by (apply Z.div_lt_upper_bound; lia). lia.
    - assert (4096 <= raw / 8) by (apply Z.div_le_lower_bound; lia). lia. }
  assert (Hneg : (bytes0 mod 256 <? 128) = (k <? 4096)).
  { rewrite <- Htop. subst raw. pose proof (Z.mod_pos_bound bytes1 256 ltac:(lia)).
    destruct (Z.ltb_spec (bytes0 mod 256) 128), (Z.ltb_spec (256 * (bytes0 mod 256) + bytes1 mod 256) 32768);
      try reflexivity; lia. }
  rewrite Htop, Hneg, Hcode. clear Htop Hneg Hcode. clearbody k. clear raw tmpC.
  pose proof (all_readings
    (fun k =>
       let x := F32.div (F32.of_Z (if k <? 4096 then k else k - 8192)) (F32.of_Z 16) in
       match sixteenths x with
       | Some n =>
           (n =? (if k <? 4096 then k else k - 8192)) && F32.valid x &&
           Bool.eqb (F32.lt x F32.zero) (negb (k <? 4096)) &&
           F32.ge x (F32.of_Z (-256)) && F32.lt x (F32.of_Z 256)
       | None => false
       end) ltac:(vm_compute; reflexivity) k Hk) as H.
  cbv beta zeta in H.
  destruct (sixteenths _) as [n|]; [|discriminate H].
  apply andb_true_iff in H as [H H5]. apply andb_true_iff in H as [H H4].
  apply andb_true_iff in H as [H H3]. apply andb_true_iff in H as [H1 H2].
  apply Z.eqb_eq in H1. apply Bool.eqb_prop in H3.
  subst n. repeat split; assumption.
Qed.

(** X11. Every reading of the sensor can be shown: on the result of
    [getExtTempC] and its conversion by [cel2fer], [dispTemp] returns in
    either format, on either half and from every display (no cast is
    undefined), and it returns true exactly for the readings from 100
    degrees up in Celsius and from 37.75 degrees Celsius (99.95 Fahrenheit)
    up in Fahrenheit. *)
Theorem getExtTempC_displays (bytes0 bytes1 isFer segsSel : Z) (c : SsegCore) :
  let raw := 256 * (bytes0 mod 256) + bytes1 mod 256 in
  let k := raw / 8 in
  let tmpC := getExtTempC bytes0 bytes1 in
  exists c',
    dispTemp tmpC (cel2fer tmpC) isFer segsSel c =
      Some ((k <? 4096) && ((if isFer =? 1 then 604 else 1600) <=? k), c').
Proof.
  intros raw k tmpC.
  destruct (getExtTempC_code bytes0 bytes1) as (Hk & Hcode).
  fold raw in Hk, Hcode. fold k in Hk, Hcode. fold tmpC in Hcode.
  rewrite Hcode. clear Hcode. clearbody k. clear raw tmpC.
  rewrite dispTemp_run. cbv zeta. rewrite workingTemp_format.
  destruct (sensor_table k Hk)
    as (tic & wc & tif & wf & Htc & Hwc & Htf & Hwf & Hfc & Hff & _).
  cbv zeta in Htc, Hwc, Htf, Hwf.
  destruct (isFer =? 1).
  - rewrite Htf, Hwf, Hff. eexists. reflexivity.
  - rewrite Htc, Hwc, Hfc. eexists. reflexivity.
Qed.

(** ** The display of a turn of the loop *)

Lemma clearDisp_cleared (c : SsegCore) :
  length (digit c) = 8%nat -> clearDisp c = cleared.
Proof.
  intros Hlen.
  destruct (list_length_8 _ Hlen) as (d0 & d1 & d2 & d3 & d4 & d5 & d6 & d7 & Hd).
  destruct c as [dl m]. cbn [digit] in Hd. subst dl. reflexivity.
Qed.

Lemma cell_dispDp (intIsHundred extIsHundred : bool) (c : SsegCore) (q : Z) :
  cell (dispDp intIsHundred extIsHundred c) q = cell c q.
Proof. reflexivity. Qed.

(** The display part of the loop, by the local variables of the two calls
    of [dispTemp]. *)
Lemma main_display_run (intTempC extTempC : float) (intIsFer extIsFer : Z)
    (c : SsegCore) :
  length (digit c) = 8%nat ->
  main_display intTempC extTempC intIsFer extIsFer c =
    let ti := workingTemp intTempC (cel2fer intTempC) intIsFer in
    let te := workingTemp extTempC (cel2fer extTempC) extIsFer in
    match scaledTenths ti, wholeDeg ti, scaledTenths te, wholeDeg te with
    | Some tii, Some wi, Some tei, Some we =>
        Some (tt, dispDp (100 <=? wi) (100 <=? we)
                    (render 0 tei we extIsFer (render 4 tii wi intIsFer cleared)))
    | _, _, _, _ => None
    end.
Proof.
  intros Hlen. unfold main_display.
  unfold mbind, Disp_bind, call. rewrite (clearDisp_cleared c Hlen).
  rewrite dispTemp_run. cbv zeta.
  destruct (scaledTenths (workingTemp intTempC _ _)) as [tii|]; [|reflexivity].
  destruct (wholeDeg (workingTemp intTempC _ _)) as [wi|]; [|reflexivity].
  rewrite dispTemp_run. cbv zeta.
  destruct (scaledTenths (workingTemp extTempC _ _)) as [tei|]; [|reflexivity].
  destruct (wholeDeg (workingTemp extTempC _ _)) as [we|]; reflexivity.
Qed.

(** X12. In a turn of the loop the two halves of the display do not
    disturb each other and nothing of the last turn is left: when the
    display part returns, each call of [dispTemp] alone returns on a
    cleared display, cells 4 to 7 are as the interior call alone leaves
    them, cells 0 to 3 as the exterior call alone leaves them, and the
    display is the same whatever it showed before. *)
Theorem main_display_halves (intTempC extTempC : float) (intIsFer extIsFer : Z)
    (c c' : SsegCore) (u : unit) :
  length (digit c) = 8%nat ->
  main_display intTempC extTempC intIsFer extIsFer c = Some (u, c') ->
  (exists bi ci be ce,
     dispTemp intTempC (cel2fer intTempC) intIsFer 1 cleared = Some (bi, ci) /\
     dispTemp extTempC (cel2fer extTempC) extIsFer 0 cleared = Some (be, ce) /\
     (forall q, 4 <= q <= 7 -> cell c' q = cell ci q) /\
     (forall q, 0 <= q <= 3 -> cell c' q = cell ce q) /\
     dp c' = dp (dispDp bi be cleared)) /\
  length (digit c') = 8%nat /\
  (forall c0 : SsegCore, length (digit c0) = 8%nat ->
     main_display intTempC extTempC intIsFer extIsFer c0 = Some (u, c')).
Proof.
  intros Hlen Hrun.
  assert (Hrun0 := Hrun).
  rewrite main_display_run in Hrun by assumption. cbv zeta in Hrun.
  assert (Hcl : length (digit cleared) = 8%nat) by reflexivity.
  rewrite !dispTemp_run. cbv zeta.
  change (posAdj_of 1) with 4. change (posAdj_of 0) with 0.
  destruct (scaledTenths (workingTemp intTempC _ _)) as [tii|]; [|discriminate].
  destruct (wholeDeg (workingTemp intTempC _ _)) as [wi|]; [|discriminate].
  destruct (scaledTenths (workingTemp extTempC _ _)) as [tei|]; [|discriminate].
  destruct (wholeDeg (workingTemp extTempC _ _)) as [we|]; [|discriminate].
  destruct u. injection Hrun as Hrun. subst c'.
  pose proof (render_length 4 tii wi intIsFer cleared Hcl) as Hli.
  split; [|split].
  - do 4 eexists. split; [reflexivity|]. split; [reflexivity|].
    split; [|split].
    + intros q Hq. rewrite cell_dispDp.
      apply (render_frame 0 tei we extIsFer _ Hli (or_introl eq_refl) q). lia.
    + intros q Hq. rewrite cell_dispDp.
      assert (Hc : q = 0 + 0 \/ q = 1 + 0 \/ q = 2 + 0 \/ q = 3 + 0) by lia.
      destruct Hc as [-> | [-> | [-> | ->]]].
      * rewrite !render_cell_0 by (assumption || (left; reflexivity)). reflexivity.
      * rewrite !render_cell_1 by (assumption || (left; reflexivity)). reflexivity.
      * rewrite !render_cell_2 by (assumption || (left; reflexivity)). reflexivity.
      * rewrite !render_cell_3 by (assumption || (left; reflexivity)). reflexivity.
    + reflexivity.
  - unfold dispDp, set_dp. cbn [digit]. apply render_length. exact Hli.
  - intros c0 Hlen0. rewrite main_display_run by assumption. cbv zeta.
    rewrite main_display_run in Hrun0 by assumption. cbv zeta in Hrun0.
    rewrite Hrun0. reflexivity.
Qed.

Lemma main_display_halves_witness :
  exists c',
    main_display f105_49 f9_76 0 0 (render 0 1234 123 1 Sseg_init) = Some (tt, c') /\
    main_display f105_49 f9_76 0 0 Sseg_init = Some (tt, c').
Proof.
  assert (H : exists c', main_display f105_49 f9_76 0 0 (render 0 1234 123 1 Sseg_init)
                         = Some (tt, c'))
    by (eexists; vm_compute; reflexivity).
  destruct H as [c' Hrun]. exists c'. split; [exact Hrun|].
  assert (Hlen : length (digit (render 0 1234 123 1 Sseg_init)) = 8%nat)
    by reflexivity.
  exact (proj2 (proj2 (main_display_halves f105_49 f9_76 0 0
                         (render 0 1234 123 1 Sseg_init) c' tt Hlen Hrun))
           Sseg_init eq_refl).
Defined.

(** X13. In a turn of the loop the decimal-point mask has one point in
    each half, at the cell that shows the ones digit of the whole degrees
    of that half: bit 2 (bit 6 in the interior half) when the half shows
    tenths, bit 1 (bit 5) when it shows a number from 100 up. *)
Theorem main_display_point (intTempC extTempC : float) (intIsFer extIsFer : Z)
    (c c' : SsegCore) (u : unit) :
  length (digit c) = 8%nat ->
  main_display intTempC extTempC intIsFer extIsFer c = Some (u, c') ->
  exists wi we pi pe,
    wholeDeg (workingTemp intTempC (cel2fer intTempC) intIsFer) = Some wi /\
    wholeDeg (workingTemp extTempC (cel2fer extTempC) extIsFer) = Some we /\
    pi = (if 100 <=? wi then 5 else 6) /\
    pe = (if 100 <=? we then 1 else 2) /\
    dp c' = 2 ^ pi + 2 ^ pe /\
    cell c' pi = Some (Z.rem wi 10) /\
    cell c' pe = Some (Z.rem we 10).
Proof.
  intros Hlen Hrun.
  rewrite main_display_run in Hrun by assumption. cbv zeta in Hrun.
  assert (Hcl : length (digit cleared) = 8%nat) by reflexivity.
  destruct (scaledTenths (workingTemp intTempC _ _)) as [tii|]; [|discriminate].
  destruct (wholeDeg (workingTemp intTempC _ _)) as [wi|] eqn:Hwi; [|discriminate].
  destruct (scaledTenths (workingTemp extTempC _ _)) as [tei|]; [|discriminate].
  destruct (wholeDeg (workingTemp extTempC _ _)) as [we|] eqn:Hwe; [|discriminate].
  destruct u. injection Hrun as Hrun. subst c'.
  pose proof (wholeDeg_nonneg _ _ Hwi) as Hi0.
  pose proof (wholeDeg_nonneg _ _ Hwe) as He0.
  pose proof (render_length 4 tii wi intIsFer cleared Hcl) as Hli.
  exists wi, we, (if 100 <=? wi then 5 else 6), (if 100 <=? we then 1 else 2).
  split; [reflexivity|]. split; [reflexivity|].
  split; [reflexivity|]. split; [reflexivity|].
  split; [destruct (100 <=? wi), (100 <=? we); reflexivity|].
  rewrite !cell_dispDp.
  split.
  - rewrite (render_frame 0 tei we extIsFer _ Hli (or_introl eq_refl))
      by (destruct (100 <=? wi); lia).
    destruct (100 <=? wi) eqn:E.
    + change (cell ?x 5) with (cell x (1 + 4)).
      rewrite render_cell_1 by (assumption || (right; reflexivity)).
      rewrite E, h2s_digit by assumption. reflexivity.
    + change (cell ?x 6) with (cell x (2 + 4)).
      rewrite render_cell_2 by (assumption || (right; reflexivity)).
      rewrite E, h2s_digit by assumption. reflexivity.
  - destruct (100 <=? we) eqn:E.
    + change (cell ?x 1) with (cell x (1 + 0)).
      rewrite render_cell_1 by (assumption || (left; reflexivity)).
      rewrite E, h2s_digit by assumption. reflexivity.
    + change (cell ?x 2) with (cell x (2 + 0)).
      rewrite render_cell_2 by (assumption || (left; reflexivity)).
      rewrite E, h2s_digit by assumption. reflexivity.
Qed.

Lemma main_display_point_witness :
  exists c',
    main_display f105_49 f9_76 0 0 Sseg_init = Some (tt, c') /\
    dp c' = 2 ^ 5 + 2 ^ 2 /\
    cell c' 5 = Some 5 /\ cell c' 2 = Some 9.
Proof.
  assert (H : exists c', main_display f105_49 f9_76 0 0 Sseg_init = Some (tt, c'))
    by (eexists; vm_compute; reflexivity).
  destruct H as [c' Hrun]. exists c'. split; [exact Hrun|].
  destruct (main_display_point f105_49 f9_76 0 0 Sseg_init c' tt eq_refl Hrun)
    as (wi & we & pi & pe & Hwi & Hwe & -> & -> & Hdp & Hci & Hce).
  assert (Ei : wi = 105) by (vm_compute in Hwi; congruence).
  assert (Ee : we = 9) by (vm_compute in Hwe; congruence).
  subst wi we. split; [exact Hdp|]. split; [exact Hci | exact Hce].
Defined.

(** ** The number that a half shows *)

Lemma leb_finite (m m' : positive) (e e' : Z) :
  SFleb (S754_finite false m e) (S754_finite false m' e') = true <->
  e < e' \/ (e = e' /\ Z.pos m <= Z.pos m').
Proof.
  unfold SFleb. cbn [SFcompare].
  destruct (Z.compare_spec e e') as [->|Hlt|Hgt].
  - change (PosDef.Pos.compare_cont Eq m m') with (Pos.compare m m').
    destruct (Pos.compare_spec m m') as [->|Hm|Hm]; split; intros H;
      try discriminate; try reflexivity; lia.
  - split; intros _; [lia|reflexivity].
  - split; intros H; [discriminate|lia].
Qed.

(** From 100 up, [whole] is the rounded sum and is at least 100. *)
Lemma wholeDeg_from_100 (m : positive) (e : Z) :
  F32.valid (S754_finite false m e) = true ->
  F32.lt (S754_finite false m e) (F32.of_Z 100) = false ->
  F32.lt (S754_finite false m e) (F32.of_Z (2 ^ 27)) = true ->
  exists whole, wholeDeg (S754_finite false m e) = Some whole /\ 100 <= whole.
Proof.
  intros Hvalid Hge Hlt.
  destruct (casts_defined _ Hvalid eq_refl Hlt) as (tempInt & whole & Hti & Hwh).
  exists whole. split; [exact Hwh|].
  apply valid_finite in Hvalid as (He & Hm & Hc).
  change (F32.of_Z 100) with (S754_finite false 13107200 (-17)) in *.
  change (F32.of_Z (2 ^ 27)) with (S754_finite false 8388608 4) in Hlt.
  unfold F32.lt in Hge, Hlt. apply ltb_finite in Hlt.
  assert (Hme : -17 < e \/ (e = -17 /\ 13107200 <= Z.pos m)).
  { destruct (Z_lt_le_dec e (-17)) as [Hl|Hl].
    - rewrite (proj2 (ltb_finite m 13107200 e (-17))) in Hge by lia. discriminate.
    - destruct (Z.eq_dec e (-17)) as [->|Hne]; [|lia]. right. split; [reflexivity|].
      destruct (Z_lt_le_dec (Z.pos m) 13107200) as [Hl'|Hl']; [|assumption].
      rewrite (proj2 (ltb_finite m 13107200 (-17) (-17))) in Hge by lia.
      discriminate. }
  assert (Hleb : F32.ge (S754_finite false m e) (S754_finite false 13107200 (-17)) = true)
    by (unfold F32.ge; apply leb_finite; lia).
  assert (Hlow : Round.val scale32 13107200 (-17) <= Round.val scale32 (Z.pos m) e).
  { unfold Round.val. destruct Hme as [Hgt|[-> Hm']].
    - assert (Hfull : 2 ^ 23 <= Z.pos m).
      { unfold canonical_mantissa in Hc. apply Z.eqb_eq in Hc.
        destruct (Zdigits2_bounds (Z.pos m) ltac:(lia)) as (_ & Hdlo & _).
        cbn [Zdigits2] in Hdlo.
        assert (Hd : Z.pos (digits2_pos m) = 24)
          by (unfold fexp, emin, F32.prec, F32.emax in Hc; lia).
        rewrite Hd in Hdlo. exact Hdlo. }
      change (2 ^ (-17 - scale32)) with (2 ^ 183).
      assert (Hp : 2 ^ 184 <= 2 ^ (e - scale32))
        by (apply Z.pow_le_mono_r; unfold scale32; lia).
      change (2 ^ 184) with (2 * 2 ^ 183) in Hp.
      change (2 ^ 23) with 8388608 in Hfull.
      pose proof (pow2_pos 183 ltac:(lia)). nia.
    - pose proof (pow2_pos (-17 - scale32) ltac:(unfold scale32; lia)). nia. }
  assert (HV : Z.pos m * 2 ^ (e - scale32) < 2 ^ 227).
  { destruct Hlt as [Hlt|[-> Hlt]].
    - assert (0 < 2 ^ (e - scale32) <= 2 ^ 203).
      { unfold scale32. split; [apply pow2_pos; lia|].
        apply Z.pow_le_mono_r; lia. }
      change (2 ^ 227) with (2 ^ 24 * 2 ^ 203). nia.
    - change (2 ^ (4 - scale32)) with (2 ^ 204).
      change (2 ^ 227) with (2 ^ 23 * 2 ^ 204). lia. }
  unfold wholeDeg in Hwh.
  change (F32.of_Z 100) with (S754_finite false 13107200 (-17)) in Hwh.
  rewrite Hti, Hleb in Hwh.
  change (F32.dec 5 10) with (S754_finite false 8388608 (-24)) in Hwh.
  unfold F32.add in Hwh.
  destruct (add_bounds F32.prec F32.emax ltac:(reflexivity) scale32
              ltac:(vm_compute; discriminate) m 8388608 e (-24)
              (S754_finite false 8388609 4)
              ltac:(unfold scale32; lia) ltac:(unfold scale32; lia)
              ltac:(unfold F32.emax, F32.prec; lia)
              (canonF_normal 8388609 4 ltac:(lia) ltac:(lia)))
    as (Hfin & Hle & HL).
  { cbn [Round.Fval]. unfold Round.val.
    change (2 ^ (4 - scale32)) with (2 ^ 204).
    change (2 ^ (-24 - scale32)) with (2 ^ 176).
    assert (2 ^ 176 <= 2 ^ 204) by (apply Z.pow_le_mono_r; lia).
    change (2 ^ 227) with (8388608 * 2 ^ 204) in HV. lia. }
  specialize (HL (S754_finite false 13107200 (-17))
                (canonF_normal 13107200 (-17) ltac:(lia) ltac:(lia))).
  cbn [Round.Fval] in HL.
  assert (H05 : 0 <= Round.val scale32 8388608 (-24)) by (vm_compute; discriminate).
  specialize (HL ltac:(lia)).
  destruct (SFadd F32.prec F32.emax _ _) as [s2| | |[] m2 e2];
    cbn [Round.fin] in Hfin; try (exfalso; exact Hfin).
  - exfalso. cbn [Round.Fval] in HL.
    pose proof (pow2_pos (-17 - scale32) ltac:(unfold scale32; lia)).
    unfold Round.val in HL. lia.
  - cbn [Round.Fval] in Hle, HL.
    rewrite to_int_val in Hwh.
    + injection Hwh as <-.
      change 100 with (Round.val scale32 13107200 (-17) / 2 ^ (- scale32)).
      apply Z.div_le_mono; [reflexivity|exact HL].
    + exact Hfin.
    + etransitivity; [apply Z.div_le_mono; [reflexivity|exact Hle]|].
      vm_compute. discriminate.
Qed.

(** [tempInt] and [whole] of a working temperature below 2 ^ 27: below
    99.95 [whole] is a tenth of [tempInt] and below 100; from 99.95 on it
    is at least 100. *)
Lemma wholeDeg_cases (temp : float) :
  F32.valid temp = true ->
  F32.lt temp F32.zero = false ->
  F32.lt temp (F32.of_Z (2 ^ 27)) = true ->
  exists tempInt whole,
    scaledTenths temp = Some tempInt /\ wholeDeg temp = Some whole /\
    0 <= tempInt /\
    (if F32.lt temp f99_95
     then whole = tempInt ÷ 10 /\ tempInt <= 999
     else 100 <= whole).
Proof.
  intros Hvalid Hnn Hlt.
  destruct (casts_defined temp Hvalid Hnn Hlt) as (tempInt & whole & Hti & Hwh).
  exists tempInt, whole. split; [exact Hti|]. split; [exact Hwh|].
  assert (H0 : 0 <= tempInt).
  { apply (scaledTenths_nonneg temp). unfold clampTemp. rewrite Hnn. exact Hti. }
  split; [exact H0|].
  destruct (F32.lt temp (F32.of_Z 100)) eqn:H100.
  - destruct (scaledTenths_range temp Hvalid Hnn H100)
      as (tempInt' & Hti' & Hr & Hlo & Hhi).
    rewrite Hti in Hti'. injection Hti' as <-.
    assert (Hw : whole = tempInt ÷ 10).
    { unfold wholeDeg in Hwh. rewrite Hti, (lt_not_ge _ _ H100) in Hwh.
      congruence. }
    destruct (F32.lt temp f99_95).
    + split; [exact Hw|auto].
    + rewrite Hw, (Hhi eq_refl). reflexivity.
  - assert (H9995 : F32.lt temp f99_95 = false).
    { destruct (F32.lt temp f99_95) eqn:E; [|reflexivity].
      rewrite (lt_99_95_lt_100 temp Hnn E) in H100. discriminate. }
    rewrite H9995.
    destruct temp as [s|[]| |[] m e]; try discriminate.
    destruct (wholeDeg_from_100 m e Hvalid H100 Hlt) as (w & Hw & Hge).
    rewrite Hwh in Hw. injection Hw as <-. exact Hge.
Qed.

Lemma workingTemp_ready tmpC tmpF isFer :
  F32.valid (selectedTemp tmpC tmpF isFer) = true ->
  F32.lt (selectedTemp tmpC tmpF isFer) (F32.of_Z (2 ^ 27)) = true ->
  F32.valid (workingTemp tmpC tmpF isFer) = true /\
  F32.lt (workingTemp tmpC tmpF isFer) F32.zero = false /\
  F32.lt (workingTemp tmpC tmpF isFer) (F32.of_Z (2 ^ 27)) = true.
Proof.
  intros Hvalid Hlt. unfold workingTemp, clampTemp.
  destruct (F32.lt (selectedTemp tmpC tmpF isFer) F32.zero) eqn:E.
  - repeat split.
  - repeat split; assumption.
Qed.

(** X14. The flag that [dispTemp] returns is a threshold on the selected
    temperature: for every selected temperature of the format below 2 ^ 27
    the call returns, and it returns true exactly when the temperature is
    not below 99.95f, the binary32 number nearest to 99.95. *)
Theorem dispTemp_flag_threshold tmpC tmpF isFer segsSel (c : SsegCore) :
  F32.valid (selectedTemp tmpC tmpF isFer) = true ->
  F32.lt (selectedTemp tmpC tmpF isFer) (F32.of_Z (2 ^ 27)) = true ->
  exists c',
    dispTemp tmpC tmpF isFer segsSel c =
      Some (negb (F32.lt (selectedTemp tmpC tmpF isFer) f99_95), c').
Proof.
  intros Hvalid Hlt.
  destruct (workingTemp_ready tmpC tmpF isFer Hvalid Hlt) as (Hv & Hnn & Hl).
  destruct (wholeDeg_cases _ Hv Hnn Hl) as (tempInt & whole & Hti & Hwh & H0 & Hc).
  rewrite dispTemp_run. cbv zeta. rewrite Hti, Hwh. eexists. f_equal. f_equal.
  assert (Hsel : F32.lt (workingTemp tmpC tmpF isFer) f99_95 =
                 F32.lt (selectedTemp tmpC tmpF isFer) f99_95).
  { unfold workingTemp, clampTemp.
    destruct (F32.lt (selectedTemp tmpC tmpF isFer) F32.zero) eqn:E; [|reflexivity].
    destruct (selectedTemp tmpC tmpF isFer) as [s|[]| |[] m e];
      try discriminate E; reflexivity. }
  rewrite <- Hsel.
  destruct (F32.lt (workingTemp tmpC tmpF isFer) f99_95).
  - destruct Hc as [-> Hle]. apply Z.leb_gt.
    apply Z.quot_lt_upper_bound; lia.
  - apply Z.leb_le. exact Hc.
Qed.

Lemma dispTemp_flag_threshold_witness :
  F32.valid (selectedTemp (F32.dec 3775 100) f99_95 1) = true /\
  F32.lt (selectedTemp (F32.dec 3775 100) f99_95 1) (F32.of_Z (2 ^ 27)) = true /\
  exists c', dispTemp (F32.dec 3775 100) f99_95 1 0 cleared = Some (true, c').
Proof.
  split; [reflexivity|]. split; [reflexivity|].
  exact (dispTemp_flag_threshold (F32.dec 3775 100) f99_95 1 0 cleared
           eq_refl eq_refl).
Defined.

(** X15. The three digit cells of a half read back as the number that
    [dispTemp] computed.  When the call returns false they show [tempInt],
    the temperature in tenths, as tens, ones and tenths, with BLANK for a
    tens digit of 0; when it returns true they show [whole] modulo 1000 as
    hundreds, tens and ones, so a number from 1000 up is shown without its
    thousands. *)
Theorem dispTemp_reads_back tmpC tmpF isFer segsSel (c : SsegCore) :
  length (digit c) = 8%nat ->
  F32.valid (selectedTemp tmpC tmpF isFer) = true ->
  F32.lt (selectedTemp tmpC tmpF isFer) (F32.of_Z (2 ^ 27)) = true ->
  let posAdj := posAdj_of segsSel in
  let temp := workingTemp tmpC tmpF isFer in
  exists isHundred c' tempInt whole v3 v2 v1,
    dispTemp tmpC tmpF isFer segsSel c = Some (isHundred, c') /\
    scaledTenths temp = Some tempInt /\ wholeDeg temp = Some whole /\
    cell c' (3 + posAdj) = Some v3 /\
    cell c' (2 + posAdj) = Some v2 /\
    cell c' (1 + posAdj) = Some v1 /\
    0 <= v2 <= 9 /\ 0 <= v1 <= 9 /\
    (if isHundred
     then 0 <= v3 <= 9 /\ 100 * v3 + 10 * v2 + v1 = whole mod 1000
     else (v3 = BLANK <-> tempInt < 100) /\
          100 * (if v3 =? BLANK then 0 else v3) + 10 * v2 + v1 = tempInt).
Proof.
  intros Hlen Hvalid Hlt posAdj temp.
  destruct (workingTemp_ready tmpC tmpF isFer Hvalid Hlt) as (Hv & Hnn & Hl).
  destruct (wholeDeg_cases _ Hv Hnn Hl) as (tempInt & whole & Hti & Hwh & H0 & Hc).
  fold temp in Hti, Hwh, Hc.
  pose proof (posAdj_of_cases segsSel) as Hp. fold posAdj in Hp.
  assert (Hw0 : 0 <= whole).
  { destruct (F32.lt temp f99_95); [|lia].
    destruct Hc as [-> _]. apply Z.quot_pos; lia. }
  rewrite dispTemp_run. cbv zeta. fold temp posAdj. rewrite Hti, Hwh.
  do 7 eexists.
  split; [reflexivity|]. split; [reflexivity|]. split; [reflexivity|].
  split; [apply render_cell_3; assumption|].
  split; [apply render_cell_2; assumption|].
  split; [apply render_cell_1; assumption|].
  assert (Hq10 : 0 <= whole ÷ 10) by (apply Z.quot_pos; lia).
  assert (Hq100 : 0 <= whole ÷ 100) by (apply Z.quot_pos; lia).
  destruct (100 <=? whole) eqn:E.
  - rewrite !h2s_digit by assumption.
    rewrite !Z.rem_mod_nonneg, !Z.quot_div_nonneg by lia.
    pose proof (Z.mod_pos_bound (whole / 100) 10 ltac:(lia)).
    pose proof (Z.mod_pos_bound (whole / 10) 10 ltac:(lia)).
    pose proof (Z.mod_pos_bound whole 10 ltac:(lia)).
    split; [lia|]. split; [lia|]. split; [lia|].
    pose proof (Z.div_mod whole 10 ltac:(lia)).
    pose proof (Z.div_mod (whole / 10) 10 ltac:(lia)).
    pose proof (Z.div_mod (whole / 100) 10 ltac:(lia)).
    assert (H100 : whole / 100 = whole / 10 / 10)
      by (rewrite Z.div_div by lia; reflexivity).
    apply (Z.mod_unique_pos whole 1000 (whole / 100 / 10)); lia.
  - apply Z.leb_gt in E.
    assert (Hlt99 : F32.lt temp f99_95 = true).
    { destruct (F32.lt temp f99_95); [reflexivity|lia]. }
    rewrite Hlt99 in Hc. destruct Hc as [Hw Hle].
    rewrite !h2s_digit by assumption.
    rewrite Z.quot_div_nonneg in Hw by lia.
    rewrite !Z.rem_mod_nonneg by lia.
    pose proof (Z.mod_pos_bound tempInt 10 ltac:(lia)).
    pose proof (Z.mod_pos_bound whole 10 ltac:(lia)).
    pose proof (Z.div_mod tempInt 10 ltac:(lia)).
    pose proof (Z.div_mod whole 10 ltac:(lia)).
    split; [lia|]. split; [lia|].
    destruct (10 <=? whole) eqn:E10.
    + apply Z.leb_le in E10.
      rewrite ?h2s_digit by assumption.
      rewrite ?Z.rem_mod_nonneg, ?Z.quot_div_nonneg by lia.
      assert (Hd : 1 <= whole / 10 <= 9).
      { split; [apply Z.div_le_lower_bound; lia|].
        assert (whole / 10 < 10) by (apply Z.div_lt_upper_bound; lia). lia. }
      rewrite (Z.mod_small (whole / 10) 10) by lia.
      unfold BLANK.
      rewrite (proj2 (Z.eqb_neq (whole / 10) 255)) by lia.
      split; [split; intros; lia|lia].
    + apply Z.leb_gt in E10. rewrite Z.eqb_refl.
      split; [split; [intros _; lia|reflexivity]|lia].
Qed.

(** 9.76 shows blank, 9, 8, which reads back as 98 tenths. *)
Lemma dispTemp_reads_back_witness :
  length (digit cleared) = 8%nat /\
  F32.valid (selectedTemp f9_76 f105_49 0) = true /\
  F32.lt (selectedTemp f9_76 f105_49 0) (F32.of_Z (2 ^ 27)) = true /\
  exists isHundred c' tempInt whole v3 v2 v1,
    dispTemp f9_76 f105_49 0 0 cleared = Some (isHundred, c') /\
    scaledTenths (workingTemp f9_76 f105_49 0) = Some tempInt /\
    wholeDeg (workingTemp f9_76 f105_49 0) = Some whole /\
    cell c' 3 = Some v3 /\ cell c' 2 = Some v2 /\ cell c' 1 = Some v1 /\
    0 <= v2 <= 9 /\ 0 <= v1 <= 9 /\
    (if isHundred
     then 0 <= v3 <= 9 /\ 100 * v3 + 10 * v2 + v1 = whole mod 1000
     else (v3 = BLANK <-> tempInt < 100) /\
          100 * (if v3 =? BLANK then 0 else v3) + 10 * v2 + v1 = tempInt).
Proof.
  split; [reflexivity|]. split; [reflexivity|]. split; [reflexivity|].
  exact (dispTemp_reads_back f9_76 f105_49 0 0 cleared eq_refl eq_refl eq_refl).
Defined.

(** X16. What the display shows of a sensor reading, against exact
    arithmetic.  With [s] the reading in sixteenths of a degree, the
    Celsius tenths are the reading rounded to tenths, half up, exactly
    (0 below zero); the Fahrenheit tenths are the exact conversion
    1.8 * s / 16 + 32 rounded to tenths, half up, or one tenth less, never
    more, and one tenth less does occur (10.25 degrees is 50.45 Fahrenheit
    and shows as 50.4). *)
Theorem getExtTempC_tenths (bytes0 bytes1 : Z) :
  let raw := 256 * (bytes0 mod 256) + bytes1 mod 256 in
  let s := if raw <? 32768 then raw / 8 else raw / 8 - 8192 in
  let tmpC := getExtTempC bytes0 bytes1 in
  scaledTenths (workingTemp tmpC (cel2fer tmpC) 0) =
    Some (Z.max 0 ((10 * s + 8) / 16)) /\
  (exists tempInt,
     scaledTenths (workingTemp tmpC (cel2fer tmpC) 1) = Some tempInt /\
     Z.max 0 ((18 * s + 5128) / 16) - 1 <= tempInt <= Z.max 0 ((18 * s + 5128) / 16)) /\
  scaledTenths (workingTemp (getExtTempC 5 32) (cel2fer (getExtTempC 5 32)) 1) =
    Some 504.
Proof.
  intros raw s tmpC.
  destruct (getExtTempC_code bytes0 bytes1) as (Hk & Hcode).
  fold raw in Hk, Hcode. fold tmpC in Hcode.
  assert (Htop : (raw <? 32768) = (raw / 8 <? 4096)).
  { pose proof (Z.mod_pos_bound bytes1 256 ltac:(lia)).
    pose proof (Z.mod_pos_bound bytes0 256 ltac:(lia)).
    destruct (Z.ltb_spec raw 32768), (Z.ltb_spec (raw / 8) 4096); try reflexivity.
    - assert (raw / 8 < 4096) by (apply Z.div_lt_upper_bound; lia). lia.
    - assert (4096 <= raw / 8) by (apply Z.div_le_lower_bound; lia). lia. }
  subst s. rewrite Htop, Hcode. clear Htop Hcode tmpC.
  remember (raw / 8) as k eqn:Ek. clear Ek raw.
  rewrite !workingTemp_format. cbn [Z.eqb].
  destruct (sensor_table k Hk)
    as (tic & wc & tif & wf & Htc & _ & Htf & _ & _ & _ & Hc & Hf).
  cbv zeta in Htc, Htf, Hc, Hf.
  split; [rewrite Htc, Hc; reflexivity|].
  split; [exists tif; split; [exact Htf|exact Hf]|].
  vm_compute. reflexivity.
Qed.

(** ** Binary32: the sign and the exponent of a rounded result *)

Section Shape.

Variables prec emax : Z.
Hypothesis Hprec : 0 < prec.

Variable B : Z.
Hypothesis HBmin : B <= emin prec emax.

(** A rounded result is never NaN, has the sign it was given, and when it is
    finite its exponent is at least [emin]. *)
Lemma binary_round_aux_shape (s : bool) (mx ex : Z) :
  0 < mx -> B <= ex ->
  match binary_round_aux prec emax s mx ex loc_Exact with
  | S754_zero s' => s' = s
  | S754_infinity s' => s' = s
  | S754_finite s' _ e => s' = s /\ emin prec emax <= e
  | S754_nan => False
  end.
Proof.
  intros Hmx HB. unfold binary_round_aux.
  pose proof (shr_fexp_stage prec emax mx ex ltac:(lia)) as H1.
  destruct (shr_fexp prec emax mx ex loc_Exact) as [mrs' e'].
  destruct H1 as (Hq & -> & _).
  destruct (stage_lower prec emax Hprec B mx ex Hmx HB) as (Hq0 & He1 & _).
  destruct (round_nearest_even_range (shr_m mrs') (loc_of_shr_record mrs'))
    as (Hrne & _).
  rewrite Hq in *.
  remember (round_nearest_even (Round.stage_m prec emax mx ex) (loc_of_shr_record mrs'))
    as q' eqn:Hq'.
  remember (Round.stage_e prec emax mx ex) as e1 eqn:He1'.
  pose proof (shr_fexp_stage prec emax q' e1 ltac:(lia)) as H2.
  destruct (shr_fexp prec emax q' e1 loc_Exact) as [mrs'' e''].
  destruct H2 as (Hm2 & -> & _). rewrite Hm2.
  destruct (Z.eq_dec q' 0) as [Hz|Hnz].
  - assert (Hs : Round.stage_m prec emax q' e1 = 0).
    { rewrite Hz. unfold Round.stage_m. cbv zeta. destruct (0 <? _); reflexivity. }
    rewrite Hs. reflexivity.
  - destruct (stage_lower prec emax Hprec B q' e1 ltac:(lia) ltac:(lia))
      as (Hm0 & _ & Hemin & _).
    destruct (Round.stage_m prec emax q' e1) as [|p|p]; [reflexivity| |lia].
    destruct (Round.stage_e prec emax q' e1 <=? emax - prec); [|reflexivity].
    split; [reflexivity|exact Hemin].
Qed.

Lemma binary_round_shape (s : bool) (mx : positive) (ex : Z) :
  B <= ex ->
  match binary_round prec emax s mx ex with
  | S754_zero s' => s' = s
  | S754_infinity s' => s' = s
  | S754_finite s' _ e => s' = s /\ emin prec emax <= e
  | S754_nan => False
  end.
Proof.
  intros Hex. unfold binary_round.
  pose proof (fexp_emin prec emax (Z.pos (digits2_pos mx) + ex)) as Hmin.
  pose proof (shl_align_val B mx ex (fexp prec emax (Z.pos (digits2_pos mx) + ex))
                Hex ltac:(lia)) as Hal.
  destruct (shl_align mx ex _) as [mz ez]. destruct Hal as (_ & HBz & _).
  apply binary_round_aux_shape; lia.
Qed.

(** The product of two finite numbers. *)
Lemma mul_shape (sx sy : bool) (mx my : positive) (ex ey : Z) :
  B <= ex + ey ->
  match SFmul prec emax (S754_finite sx mx ex) (S754_finite sy my ey) with
  | S754_zero s' => s' = xorb sx sy
  | S754_infinity s' => s' = xorb sx sy
  | S754_finite s' _ e => s' = xorb sx sy /\ emin prec emax <= e
  | S754_nan => False
  end.
Proof.
  intros HB. cbn [SFmul]. apply binary_round_aux_shape; lia.
Qed.

(** The sum of two finite numbers of any signs; when the first is negative
    and the sum is positive, it is at most the second. *)
Lemma add_shape (sx sy : bool) (mx my : positive) (ex ey : Z) (U : spec_float) :
  B <= ex -> B <= ey -> Z.min ex ey <= emax - prec ->
  Round.canonF prec emax B U ->
  Round.val B (Z.pos my) ey <= Round.Fval B U ->
  match SFadd prec emax (S754_finite sx mx ex) (S754_finite sy my ey) with
  | S754_zero _ => True
  | S754_infinity s' => sx = true -> sy = false -> s' = true
  | S754_finite s' m e =>
      emin prec emax <= e /\
      (sx = true -> sy = false -> s' = false ->
       Round.val B (Z.pos m) e <= Round.Fval B U)
  | S754_nan => False
  end.
Proof.
  intros Hex Hey Hfit HU Hle. cbn [SFadd].
  pose proof (shl_align_val B mx ex (Z.min ex ey) Hex ltac:(lia)) as H1.
  pose proof (shl_align_val B my ey (Z.min ex ey) Hey ltac:(lia)) as H2.
  destruct (shl_align mx ex _) as [m1 e1]. destruct (shl_align my ey _) as [m2 e2].
  destruct H1 as (Hv1 & _ & _ & He1). destruct H2 as (Hv2 & _ & _ & He2).
  specialize (He1 ltac:(lia)). specialize (He2 ltac:(lia)). subst e1 e2.
  cbn [fst]. unfold binary_normalize.
  destruct (cond_Zopp sx (Z.pos m1) + cond_Zopp sy (Z.pos m2)) as [|p|p] eqn:Hsum.
  - exact I.
  - pose proof (binary_round_shape false p (Z.min ex ey) ltac:(lia)) as Hsh.
    destruct (binary_round prec emax false p (Z.min ex ey)) as [s'|s'| |s' m e] eqn:Hr;
      try exact I; try contradiction.
    + intros -> ->. cbn [cond_Zopp] in Hsum.
      destruct (binary_round_bounds prec emax Hprec B HBmin p (Z.min ex ey) U
                  ltac:(lia) Hfit HU) as (Hfin & _).
      { unfold Round.val in *.
        assert (Z.pos p <= Z.pos m2) by lia.
        pose proof (pow2_pos (Z.min ex ey - B) ltac:(lia)). nia. }
      rewrite Hr in Hfin. cbn [Round.fin] in Hfin. contradiction.
    + destruct Hsh as [-> Hemin]. split; [exact Hemin|].
      intros -> -> _. cbn [cond_Zopp] in Hsum.
      destruct (binary_round_bounds prec emax Hprec B HBmin p (Z.min ex ey) U
                  ltac:(lia) Hfit HU) as (_ & Hub & _).
      { unfold Round.val in *.
        assert (Z.pos p <= Z.pos m2) by lia.
        pose proof (pow2_pos (Z.min ex ey - B) ltac:(lia)). nia. }
      rewrite Hr in Hub. cbn [Round.Fval] in Hub. exact Hub.
  - pose proof (binary_round_shape true p (Z.min ex ey) ltac:(lia)) as Hsh.
    destruct (binary_round prec emax true p (Z.min ex ey)) as [s'|s'| |s' m e];
      try exact I; try contradiction.
    + intros _ _. exact Hsh.
    + destruct Hsh as [-> Hemin]. split; [exact Hemin|]. intros _ _ H. discriminate H.
Qed.

End Shape.

(** ** No undefined cast in the loop *)

(** The casts of [dispTemp] on a positive number below 2 ^ 27, from its
    exponent and value alone. *)
Lemma casts_defined_val (m : positive) (e : Z) :
  -149 <= e -> Z.pos m * 2 ^ (e - scale32) < 2 ^ 227 ->
  exists tempInt whole,
    scaledTenths (S754_finite false m e) = Some tempInt /\
    wholeDeg (S754_finite false m e) = Some whole.
Proof.
  intros Hemin HV.
  assert (He : -149 <= e <= 104).
  { split; [exact Hemin|].
    destruct (Z_le_gt_dec e 104) as [Hle|Hgt]; [exact Hle|exfalso].
    assert (Hp : 2 ^ 227 <= 2 ^ (e - scale32))
      by (apply Z.pow_le_mono_r; unfold scale32; lia).
    pose proof (pow2_pos 227 ltac:(lia)). nia. }
  destruct (scaledTenths_sandwich m e
              (S754_finite false 10485760 7) (S754_finite false 10485761 7)
              He (canonF_normal 10485760 7 ltac:(lia) ltac:(lia))
              (canonF_normal 10485761 7 ltac:(lia) ltac:(lia)))
    as (tempInt & Hti & _).
  { cbn [Round.Fval]. unfold Round.val.
    replace (e + -20 - scale32) with (e - scale32 - 20) by lia.
    assert (H20 : 2 ^ (e - scale32) = 2 ^ (e - scale32 - 20) * 2 ^ 20).
    { rewrite <- Z.pow_add_r by (unfold scale32; lia). f_equal. lia. }
    assert (0 < 2 ^ (e - scale32 - 20)) by (apply pow2_pos; unfold scale32; lia).
    change (2 ^ (7 - scale32)) with (2 ^ 227 / 2 ^ 20).
    change (2 ^ 20) with 1048576 in *. change (2 ^ 227 / 1048576) with (2 ^ 207).
    change (2 ^ 227) with (2 ^ 207 * 1048576) in HV. nia. }
  { vm_compute. discriminate. }
  { vm_compute. discriminate. }
  exists tempInt. unfold wholeDeg. rewrite Hti.
  destruct (F32.ge _ _); [|eexists; split; reflexivity].
  change (F32.dec 5 10) with (S754_finite false 8388608 (-24)).
  unfold F32.add.
  destruct (add_bounds F32.prec F32.emax ltac:(reflexivity) scale32
              ltac:(vm_compute; discriminate) m 8388608 e (-24)
              (S754_finite false 8388609 4)
              ltac:(unfold scale32; lia) ltac:(unfold scale32; lia)
              ltac:(unfold F32.emax, F32.prec; lia)
              (canonF_normal 8388609 4 ltac:(lia) ltac:(lia)))
    as (Hfin & Hle & _).
  { cbn [Round.Fval]. unfold Round.val.
    change (2 ^ (4 - scale32)) with (2 ^ 204).
    change (2 ^ (-24 - scale32)) with (2 ^ 176).
    assert (2 ^ 176 <= 2 ^ 204) by (apply Z.pow_le_mono_r; lia).
    change (2 ^ 227) with (8388608 * 2 ^ 204) in HV. lia. }
  destruct (SFadd F32.prec F32.emax _ _) as [s2| | |[] m2 e2];
    cbn [Round.fin] in Hfin; try (exfalso; exact Hfin).
  + exists 0. split; reflexivity.
  + cbn [Round.Fval] in Hle. eexists. split; [reflexivity|].
    apply to_int_val; [exact Hfin|].
    etransitivity; [apply Z.div_le_mono; [reflexivity|exact Hle]|].
    vm_compute. discriminate.
Qed.

Lemma displayable_casts (x : float) :
  displayable x ->
  exists tempInt whole,
    scaledTenths (clampTemp x) = Some tempInt /\ wholeDeg (clampTemp x) = Some whole.
Proof.
  destruct x as [s|s| |[] m e]; cbn [displayable].
  - intros _. exists 0, 0. destruct s; split; reflexivity.
  - intros ->. exists 0, 0. split; reflexivity.
  - contradiction.
  - intros _. exists 0, 0. split; reflexivity.
  - intros H. destruct (H eq_refl) as [He HV].
    change (clampTemp (S754_finite false m e)) with (S754_finite false m e).
    apply casts_defined_val; assumption.
Qed.

(** A number of the format below 2 ^ 26. *)
Lemma below_2_26 (m : positive) (e : Z) :
  F32.valid (S754_finite false m e) = true ->
  F32.lt (S754_finite false m e) (F32.of_Z (2 ^ 26)) = true ->
  -149 <= e <= 104 /\ Z.pos m * 2 ^ (e - scale32) < 2 ^ 226.
Proof.
  intros Hvalid Hlt. apply valid_finite in Hvalid as (He & Hm & _).
  split; [exact He|].
  change (F32.of_Z (2 ^ 26)) with (S754_finite false 8388608 3) in Hlt.
  unfold F32.lt in Hlt. apply ltb_finite in Hlt.
  destruct Hlt as [Hlt|[-> Hlt]].
  - assert (0 < 2 ^ (e - scale32) <= 2 ^ 202).
    { unfold scale32. split; [apply pow2_pos; lia|].
      apply Z.pow_le_mono_r; lia. }
    change (2 ^ 226) with (2 ^ 24 * 2 ^ 202). nia.
  - change (2 ^ (3 - scale32)) with (2 ^ 203).
    change (2 ^ 226) with (2 ^ 23 * 2 ^ 203). lia.
Qed.

Lemma valid_displayable (t : float) :
  F32.valid t = true -> F32.lt t (F32.of_Z (2 ^ 26)) = true -> displayable t.
Proof.
  intros Hvalid Hlt.
  destruct t as [s|[]| |[] m e]; try discriminate Hlt; cbn [displayable]; auto.
  - intros H. discriminate H.
  - intros _. destruct (below_2_26 m e Hvalid Hlt) as (He & HV).
    split; [lia|]. change (2 ^ 227) with (2 * 2 ^ 226). lia.
Qed.

(** The Fahrenheit value of a Celsius number of the format below 2 ^ 26,
    of either sign. *)
Lemma cel2fer_displayable (t : float) :
  F32.valid t = true -> F32.lt t (F32.of_Z (2 ^ 26)) = true ->
  displayable (cel2fer t).
Proof.
  intros Hvalid Hlt.
  assert (Hprec : 0 < F32.prec) by reflexivity.
  assert (Hmin : scale32 <= emin F32.prec F32.emax) by (vm_compute; discriminate).
  assert (H32 : displayable (S754_finite false 8388608 (-18))).
  { cbn [displayable]. intros _. split; [lia|]. vm_compute. reflexivity. }
  assert (HU32 : Round.canonF F32.prec F32.emax scale32 (S754_finite false 8388608 (-18)))
    by (apply canonF_normal; lia).
  destruct t as [s|[]| |[] m e]; try discriminate Hlt.
  - (* zero *)
    replace (cel2fer (S754_zero s)) with (S754_finite false 8388608 (-18))
      by (destruct s; vm_compute; reflexivity).
    exact H32.
  - (* minus infinity *)
    vm_compute. reflexivity.
  - (* a negative number *)
    apply valid_finite in Hvalid as (He & _).
    unfold cel2fer, F32.mul, F32.add.
    change (F32.div (F32.of_Z 9) (F32.of_Z 5)) with (S754_finite false 15099494 (-23)).
    change (F32.of_Z 32) with (S754_finite false 8388608 (-18)).
    pose proof (mul_shape F32.prec F32.emax Hprec scale32 true false m 15099494 e (-23)
                  ltac:(unfold scale32; lia)) as Hmul.
    destruct (SFmul F32.prec F32.emax _ _) as [s1|s1| |s1 m1 e1]; try contradiction.
    + exact H32.
    + cbn in Hmul. subst s1. reflexivity.
    + destruct Hmul as [Hs1 He1]. cbn in Hs1. subst s1.
      change (emin F32.prec F32.emax) with (-149) in He1.
      pose proof (add_shape F32.prec F32.emax Hprec scale32 Hmin true false
                    m1 8388608 e1 (-18) (S754_finite false 8388608 (-18))
                    ltac:(unfold scale32; lia) ltac:(unfold scale32; lia)
                    ltac:(unfold F32.emax, F32.prec; lia) HU32
                    ltac:(cbn [Round.Fval]; lia)) as Hadd.
      destruct (SFadd F32.prec F32.emax _ _) as [s2|s2| |s2 m2 e2];
        cbn [displayable]; try exact I; try contradiction.
      * apply Hadd; reflexivity.
      * destruct Hadd as [He2 Hub]. intros ->.
        change (emin F32.prec F32.emax) with (-149) in He2.
        split; [exact He2|].
        specialize (Hub eq_refl eq_refl eq_refl).
        cbn [Round.Fval] in Hub. unfold Round.val in Hub.
        eapply Z.le_lt_trans; [exact Hub|]. vm_compute. reflexivity.
  - (* a positive number *)
    destruct (below_2_26 m e Hvalid Hlt) as (He & HV).
    unfold cel2fer, F32.mul, F32.add.
    change (F32.div (F32.of_Z 9) (F32.of_Z 5)) with (S754_finite false 15099494 (-23)).
    change (F32.of_Z 32) with (S754_finite false 8388608 (-18)).
    destruct (mul_bounds F32.prec F32.emax Hprec scale32 m 15099494 e (-23)
                (S754_finite false 15099494 3)
                ltac:(unfold scale32; lia) ltac:(unfold F32.emax, F32.prec; lia)
                (canonF_normal 15099494 3 ltac:(lia) ltac:(lia)))
      as (Hfin1 & Hle1 & _).
    { cbn [Round.Fval]. unfold Round.val.
      replace (e + -23 - scale32) with (e - scale32 - 23) by lia.
      assert (H23 : 2 ^ (e - scale32) = 2 ^ (e - scale32 - 23) * 2 ^ 23).
      { rewrite <- Z.pow_add_r by (unfold scale32; lia). f_equal. lia. }
      assert (0 < 2 ^ (e - scale32 - 23)) by (apply pow2_pos; unfold scale32; lia).
      change (2 ^ (3 - scale32)) with (2 ^ 203).
      change (2 ^ 226) with (2 ^ 203 * 2 ^ 23) in HV.
      change (2 ^ 23) with 8388608 in *.
      assert (Z.pos m * 2 ^ (e - scale32 - 23) < 2 ^ 203) by nia.
      nia. }
    destruct (SFmul F32.prec F32.emax _ _) as [s1| | |[] m1 e1];
      cbn [Round.fin] in Hfin1; try (exfalso; exact Hfin1).
    + exact H32.
    + cbn [Round.Fval] in Hle1.
      destruct (add_bounds F32.prec F32.emax Hprec scale32 Hmin m1 8388608 e1 (-18)
                  (S754_finite false 15099498 3)
                  Hfin1 ltac:(unfold scale32; lia)
                  ltac:(unfold F32.emax, F32.prec; lia)
                  (canonF_normal 15099498 3 ltac:(lia) ltac:(lia)))
        as (Hfin2 & Hle2 & _).
      { cbn [Round.Fval]. unfold Round.val in *.
        change (2 ^ (3 - scale32)) with (2 ^ 203) in *.
        change (2 ^ (-18 - scale32)) with (2 ^ 182).
        change (2 ^ 203) with (2097152 * 2 ^ 182) in *.
        pose proof (pow2_pos 182 ltac:(lia)). nia. }
      pose proof (add_shape F32.prec F32.emax Hprec scale32 Hmin false false
                    m1 8388608 e1 (-18) (S754_finite false 8388608 (-18))
                    Hfin1 ltac:(unfold scale32; lia)
                    ltac:(unfold F32.emax, F32.prec; lia) HU32
                    ltac:(cbn [Round.Fval]; lia)) as Hadd.
      destruct (SFadd F32.prec F32.emax _ _) as [s2| | |[] m2 e2];
        cbn [Round.fin] in Hfin2; try (exfalso; exact Hfin2).
      * exact I.
      * cbn [displayable]. intros _. destruct Hadd as [He2 _].
        change (emin F32.prec F32.emax) with (-149) in He2.
        split; [exact He2|].
        cbn [Round.Fval] in Hle2. unfold Round.val in Hle2.
        eapply Z.le_lt_trans; [exact Hle2|]. vm_compute. reflexivity.
Qed.

(** The casts of [dispTemp] on a reading of the sensor, in either format. *)
Lemma reading_casts (bytes0 bytes1 isFer : Z) :
  let tmpC := getExtTempC bytes0 bytes1 in
  exists tempInt whole,
    scaledTenths (workingTemp tmpC (cel2fer tmpC) isFer) = Some tempInt /\
    wholeDeg (workingTemp tmpC (cel2fer tmpC) isFer) = Some whole.
Proof.
  intros tmpC.
  destruct (getExtTempC_code bytes0 bytes1) as (Hk & Hcode).
  fold tmpC in Hcode. rewrite Hcode. clear Hcode tmpC.
  remember ((256 * (bytes0 mod 256) + bytes1 mod 256) / 8) as k eqn:Ek. clear Ek.
  rewrite workingTemp_format.
  destruct (sensor_table k Hk)
    as (tic & wc & tif & wf & Htc & Hwc & Htf & Hwf & _).
  cbv zeta in Htc, Hwc, Htf, Hwf.
  destruct (isFer =? 1); eauto.
Qed.

(** X17. A turn of the loop of [main] never makes an undefined cast: for
    every switch word, every pair of bytes read from the sensor and every
    interior Celsius temperature of the format below 2 ^ 26, of either
    sign and in either format, the turn returns a board. *)
Theorem main_loop_returns (sw_p : GpiCore) (intTempC : float)
    (bytes0 bytes1 : Z) (b : Board) :
  length (digit (sseg b)) = 8%nat ->
  F32.valid intTempC = true ->
  F32.lt intTempC (F32.of_Z (2 ^ 26)) = true ->
  exists b', main_loop sw_p intTempC (getExtTempC bytes0 bytes1) b = Some b'.
Proof.
  intros Hlen Hvalid Hlt. unfold main_loop. cbv zeta.
  rewrite main_display_run by assumption. cbv zeta.
  assert (Hint : exists tempInt whole,
            scaledTenths (workingTemp intTempC (cel2fer intTempC)
                            (getTempFormat sw_p 1)) = Some tempInt /\
            wholeDeg (workingTemp intTempC (cel2fer intTempC)
                        (getTempFormat sw_p 1)) = Some whole).
  { unfold workingTemp, selectedTemp.
    destruct (getTempFormat sw_p 1 =? 1); apply displayable_casts.
    - apply cel2fer_displayable; assumption.
    - apply valid_displayable; assumption. }
  destruct Hint as (tii & wi & -> & ->).
  destruct (reading_casts bytes0 bytes1 (getTempFormat sw_p 0))
    as (tei & we & -> & ->).
  eexists. reflexivity.
Qed.

(** -5.32 inside, shown in Fahrenheit, and the sensor word 0x0520 outside. *)
Lemma main_loop_returns_witness :
  length (digit (sseg Board_init)) = 8%nat /\
  F32.valid fm5_32 = true /\
  F32.lt fm5_32 (F32.of_Z (2 ^ 26)) = true /\
  exists b', main_loop (Gpi_set 32768) fm5_32 (getExtTempC 5 32) Board_init = Some b'.
Proof.
  split; [reflexivity|]. split; [reflexivity|]. split; [reflexivity|].
  exact (main_loop_returns (Gpi_set 32768) fm5_32 5 32 Board_init
           eq_refl eq_refl eq_refl).
Defined.

(** ** [dispTemp]: the flag and the whole degrees against the temperature *)





